(** * PDF merger and splitter back end: operation records, page selection
      and the background executors

    A shallow embedding of the service layer ([services/pdfService.js]), the
    operation model ([models/PdfOperation.js]), the request validation
    middleware and the controller of the PDF merger and splitter, with the
    properties of its specification stated over that embedding.

    The external collaborators are modelled at their interface:
    - pdf-lib: a document is its sequence of pages; [save] followed by
      [load] gives the document back, except that a document without pages
      is saved with one blank page; bytes that are not a PDF do not load;
    - the file system: a finite map from paths to file contents; a
      directory exists when the environment lists it or a file lies
      below it;
    - MongoDB/Mongoose: [save] validates the document against the schema
      and then writes it; storage failures other than the unique index of
      [operationId] are outside the model;
    - the clock ([Date.now()], [new Date()]) and [uuidv4()]: streams of
      readings held by the environment.
    JavaScript numbers are integers here (page numbers, indices, sizes and
    millisecond time stamps), exact as long as they stay below 2^53. *)

From Stdlib Require Import ZArith Lia String Ascii List.
From stdpp Require Import base gmap strings list.

Open Scope Z_scope.

(* ===================================================================== *)
(** * JavaScript primitives used by the code                              *)
(* ===================================================================== *)

(** A JavaScript number that is either an integer or [NaN]. *)
Inductive jsnum : Type :=
  | NaN
  | Num (z : Z).

Definition isNaN (n : jsnum) : bool :=
  match n with NaN => true | Num _ => false end.

(** White space as [String.prototype.trim] and [parseInt] skip it (the
    ASCII part: tab, line feed, vertical tab, form feed, carriage return,
    space). *)
Definition isWhiteSpace (c : ascii) : bool :=
  let n := Z.of_N (N_of_ascii c) in
  ((9 <=? n) && (n <=? 13)) || (n =? 32).

Fixpoint trimStart (s : string) : string :=
  match s with
  | EmptyString => EmptyString
  | String c s' => if isWhiteSpace c then trimStart s' else s
  end.

Fixpoint trimEnd (s : string) : string :=
  match s with
  | EmptyString => EmptyString
  | String c s' =>
      match trimEnd s' with
      | EmptyString => if isWhiteSpace c then EmptyString else String c EmptyString
      | r => String c r
      end
  end.

(** [s.trim()] *)
Definition trim (s : string) : string := trimEnd (trimStart s).

(** [s.includes(c)] for a one-character needle. *)
Fixpoint includes (c : ascii) (s : string) : bool :=
  match s with
  | EmptyString => false
  | String d s' => Ascii.eqb d c || includes c s'
  end.

(** [s.split(c)] for a one-character separator. *)
Fixpoint split (sep : ascii) (s : string) : list string :=
  match s with
  | EmptyString => [EmptyString]
  | String c s' =>
      if Ascii.eqb c sep then EmptyString :: split sep s'
      else match split sep s' with
           | h :: t => String c h :: t
           | [] => [String c EmptyString]
           end
  end.

(** Value of a character as a digit (0-9, a-z, A-Z), as [parseInt] reads it. *)
Definition digitValue (c : ascii) : option Z :=
  let n := Z.of_N (N_of_ascii c) in
  if (48 <=? n) && (n <=? 57) then Some (n - 48)
  else if (97 <=? n) && (n <=? 122) then Some (n - 87)
  else if (65 <=? n) && (n <=? 90) then Some (n - 55)
  else None.

Definition radixDigit (R : Z) (c : ascii) : option Z :=
  match digitValue c with
  | Some d => if d <? R then Some d else None
  | None => None
  end.

(** The longest prefix of radix-[R] digits, read left to right; [acc] is
    [None] until a digit has been read. *)
Fixpoint parseDigits (R : Z) (s : string) (acc : option Z) : option Z :=
  match s with
  | EmptyString => acc
  | String c s' =>
      match radixDigit R c with
      | Some d => parseDigits R s' (Some (default 0 acc * R + d))
      | None => acc
      end
  end.

(** The sign [parseInt] reads, and what follows it. *)
Definition readSign (s : string) : Z * string :=
  match s with
  | String "-" r => (-1, r)
  | String "+" r => (1, r)
  | _ => (1, s)
  end.

(** The radix [parseInt] chooses when none is given, and what follows the
    prefix. *)
Definition readRadix (s : string) : Z * string :=
  match s with
  | String "0" (String "x" r) => (16, r)
  | String "0" (String "X" r) => (16, r)
  | _ => (10, s)
  end.

(** [parseInt(s)] with no radix argument: leading white space is skipped,
    a sign is read, a [0x]/[0X] prefix selects radix 16, then the longest
    digit prefix is read; [NaN] when there is no digit. The result is the
    value of the digits; it is JavaScript's result as long as it is
    below 2^53, from where on JavaScript rounds it to a double (and gives
    [Infinity] from 2^1024 on). Properties of values that large are
    stated with that bound. *)
Definition parseInt (s : string) : jsnum :=
  let signed := readSign (trimStart s) in
  let prefixed := readRadix (snd signed) in
  match parseDigits (fst prefixed) (snd prefixed) None with
  | Some v => Num (fst signed * v)
  | None => NaN
  end.

Definition digitChar (d : Z) : ascii := ascii_of_N (Z.to_N (48 + d)).

(** Decimal digits of a non-negative integer, most significant first, in
    front of [acc]. *)
Fixpoint decimalDigits (fuel : nat) (n : Z) (acc : string) : string :=
  match fuel with
  | O => acc
  | S f =>
      let acc' := String (digitChar (n mod 10)) acc in
      if n / 10 =? 0 then acc' else decimalDigits f (n / 10) acc'
  end.

Definition natToString (n : Z) : string :=
  decimalDigits (S (Z.to_nat (Z.log2 n))) n EmptyString.

(** [String(z)], what a template literal [`${z}`] inserts for an integer. *)
Definition intToString (z : Z) : string :=
  if z <? 0 then String "-" (natToString (- z)) else natToString z.

Definition numberToString (n : jsnum) : string :=
  match n with NaN => "NaN" | Num z => intToString z end.

(** [Array.prototype.sort(cmp)]: a stable sort (ES2019); [cmp a b <= 0]
    keeps [a] before [b]. Written as a stable insertion sort. *)
Fixpoint sortInsert {A} (cmp : A -> A -> Z) (x : A) (l : list A) : list A :=
  match l with
  | [] => [x]
  | y :: l' => if cmp x y <=? 0 then x :: y :: l' else y :: sortInsert cmp x l'
  end.

Definition sort {A} (cmp : A -> A -> Z) (l : list A) : list A :=
  foldr (sortInsert cmp) [] l.

(** The integers [a, a+1, ..., b-1] of a counting loop
    [for (let i = a; i < b; i++)]. *)
Fixpoint countFrom (a : Z) (n : nat) : list Z :=
  match n with
  | O => []
  | S n' => a :: countFrom (a + 1) n'
  end.

Definition loopRange (a b : Z) : list Z := countFrom a (Z.to_nat (b - a)).

(** [Math.ceil(a / b)] for integers with [b > 0]. *)
Definition ceilDiv (a b : Z) : Z := - ((- a) / b).

(* ===================================================================== *)
(** * Data model                                                          *)
(* ===================================================================== *)

(** A page of a PDF document, identified by its content. *)
Definition PDFPage : Type := string.

(** A loaded pdf-lib document: its pages in order. *)
Definition PDFDocument : Type := list PDFPage.

(** The content of a stored file: a serialized PDF or anything else. *)
Inductive FileBytes : Type :=
  | PdfBytes (doc : PDFDocument)
  | RawBytes (content : string).

Inductive ErrorName : Type :=
  | Error
  | AppError
  | ValidationError
  | MongoServerError
  | ReferenceError
  | SystemError.

(** A thrown JavaScript error. *)
Record JsError : Type := mkError {
  name : ErrorName;
  message : string;
  statusCode : option Z
}.

(** A file as multer hands it to the handlers ([req.files[i]]). *)
Module MulterFile.
Record t : Type := mk {
  originalname : string;
  filename : string;
  path : string;
  size : Z;
  mimetype : string
}.
End MulterFile.

(** An input descriptor built by the handlers; [order] is only set by the
    merge handler. *)
Module InputFile.
Record t : Type := mk {
  originalName : string;
  filename : string;
  path : string;
  size : Z;
  mimetype : string;
  order : option Z
}.
End InputFile.

(** An output descriptor as the schema stores it (the [previewUrl] the
    executors add is not a schema path and is dropped on assignment). *)
Module OutputFile.
Record t : Type := mk {
  filename : string;
  path : string;
  size : Z;
  downloadUrl : string
}.
End OutputFile.

Module SplitOptions.
Record t : Type := mk {
  splitType : string;
  pageRanges : list string;
  pagesPerFile : Z
}.
End SplitOptions.

Module Metadata.
Record t : Type := mk {
  mergeOrder : list Z;
  splitOptions : option SplitOptions.t
}.
End Metadata.

Module Processing.
Record t : Type := mk {
  startTime : option Z;
  endTime : option Z;
  duration : option jsnum;
  errorMessage : option string
}.
End Processing.

Module ClientInfo.
Record t : Type := mk {
  ipAddress : string;
  userAgent : string
}.
End ClientInfo.

(** A [PdfOperation] document. *)
Record PdfOperation : Type := mkOperation {
  operationId : string;
  operationType : string;
  status : string;
  inputFiles : list InputFile.t;
  outputFiles : list OutputFile.t;
  metadata : Metadata.t;
  processing : Processing.t;
  clientInfo : ClientInfo.t
}.

(** What the environment fixes: clock readings, generated identifiers, the
    directory [path.join(__dirname, '..', 'processed')], the length of
    a serialized document, and the directories that exist whether or not
    they hold a file. *)
Record Env : Type := mkEnv {
  clock : nat -> Z;
  uuids : nat -> string;
  processedDir : string;
  pdfSize : PDFDocument -> Z;
  directories : list string
}.

(** The state the code reads and writes. [documents] are the Mongoose
    documents in memory and [collection] the persisted ones, both under
    the identity ([_id]) a document gets when it is constructed; [oplog]
    is every persisted write in order. *)
Record World : Type := mkWorld {
  env : Env;
  files : gmap string FileBytes;
  ticks : nat;
  drawn : nat;
  fresh_id : nat;
  documents : gmap nat PdfOperation;
  collection : gmap nat PdfOperation;
  oplog : list PdfOperation
}.

Definition set_files (f : gmap string FileBytes) (w : World) : World :=
  mkWorld (env w) f (ticks w) (drawn w) (fresh_id w) (documents w) (collection w) (oplog w).

Definition set_ticks (n : nat) (w : World) : World :=
  mkWorld (env w) (files w) n (drawn w) (fresh_id w) (documents w) (collection w) (oplog w).

Definition set_drawn (n : nat) (w : World) : World :=
  mkWorld (env w) (files w) (ticks w) n (fresh_id w) (documents w) (collection w) (oplog w).

Definition set_fresh_id (n : nat) (w : World) : World :=
  mkWorld (env w) (files w) (ticks w) (drawn w) n (documents w) (collection w) (oplog w).

Definition set_documents (d : gmap nat PdfOperation) (w : World) : World :=
  mkWorld (env w) (files w) (ticks w) (drawn w) (fresh_id w) d (collection w) (oplog w).

Definition persist (this : nat) (op : PdfOperation) (w : World) : World :=
  mkWorld (env w) (files w) (ticks w) (drawn w) (fresh_id w) (documents w)
          (<[this := op]> (collection w)) (oplog w ++ [op]).

Definition set_status (s : string) (op : PdfOperation) : PdfOperation :=
  mkOperation (operationId op) (operationType op) s (inputFiles op)
              (outputFiles op) (metadata op) (processing op) (clientInfo op).

Definition set_outputFiles (l : list OutputFile.t) (op : PdfOperation) : PdfOperation :=
  mkOperation (operationId op) (operationType op) (status op) (inputFiles op)
              l (metadata op) (processing op) (clientInfo op).

Definition set_processing (p : Processing.t) (op : PdfOperation) : PdfOperation :=
  mkOperation (operationId op) (operationType op) (status op) (inputFiles op)
              (outputFiles op) (metadata op) p (clientInfo op).

(* ===================================================================== *)
(** * Effects: state and exceptions                                       *)
(* ===================================================================== *)

Inductive Outcome (A : Type) : Type :=
  | Return (a : A)
  | Throw (e : JsError).
Arguments Return {A} a.
Arguments Throw {A} e.

(** A computation runs on a world and leaves a world, also when it throws:
    what was written before the exception stays written. *)
Definition Eff (A : Type) : Type := World -> World * Outcome A.

Definition ret {A} (a : A) : Eff A := fun w => (w, Return a).

Definition throw {A} (e : JsError) : Eff A := fun w => (w, Throw e).

Definition bind {A B} (c : Eff A) (k : A -> Eff B) : Eff B :=
  fun w => match c w with
           | (w', Return a) => k a w'
           | (w', Throw e) => (w', Throw e)
           end.

(** [try { c } catch (error) { h error }] *)
Definition tryCatch {A} (c : Eff A) (h : JsError -> Eff A) : Eff A :=
  fun w => match c w with
           | (w', Return a) => (w', Return a)
           | (w', Throw e) => h e w'
           end.

(** A call whose promise nobody awaits: it runs, its result and its
    rejection are dropped. *)
Definition fireAndForget {A} (c : Eff A) : Eff unit :=
  fun w => (fst (c w), Return tt).

Definition lift {A} (o : Outcome A) : Eff A := fun w => (w, o).

Declare Scope eff_scope.
Delimit Scope eff_scope with eff.
Notation "x <- c1 ;; c2" := (bind c1 (fun x => c2))
  (at level 100, c1 at next level, right associativity) : eff_scope.
Notation "c1 ;; c2" := (bind c1 (fun _ => c2))
  (at level 100, right associativity) : eff_scope.
Open Scope eff_scope.

(** A sequential loop over [l] that collects what each round returns; an
    exception ends the loop. *)
Fixpoint forEach {A B} (f : A -> Eff B) (l : list A) : Eff (list B) :=
  match l with
  | [] => ret []
  | x :: l' => y <- f x ;; ys <- forEach f l' ;; ret (y :: ys)
  end.

(** A sequential loop over [l] that updates an accumulator. *)
Fixpoint foldEff {A B} (f : B -> A -> Eff B) (l : list A) (b : B) : Eff B :=
  match l with
  | [] => ret b
  | x :: l' => b' <- f b x ;; foldEff f l' b'
  end.

Definition newError (msg : string) : JsError := mkError Error msg None.

Definition newAppError (msg : string) (code : Z) : JsError := mkError AppError msg (Some code).

(** [Date.now()] and [new Date()]: the next clock reading. *)
Definition Date_now : Eff Z :=
  fun w => (set_ticks (S (ticks w)) w, Return (clock (env w) (ticks w))).

(** [uuidv4()] *)
Definition uuidv4 : Eff string :=
  fun w => (set_drawn (S (drawn w)) w, Return (uuids (env w) (drawn w))).

(** [fs.readFile(path)] *)
Definition fs_readFile (p : string) : Eff FileBytes :=
  fun w => match files w !! p with
           | Some b => (w, Return b)
           | None => (w, Throw (mkError SystemError
                          ("ENOENT: no such file or directory, open '" +:+ p +:+ "'") None))
           end.

(** [fs.writeFile(path, bytes)] *)
Definition fs_writeFile (p : string) (b : FileBytes) : Eff unit :=
  fun w => (set_files (<[p := b]> (files w)) w, Return tt).

Definition fileSize (e : Env) (b : FileBytes) : Z :=
  match b with
  | PdfBytes doc => pdfSize e doc
  | RawBytes s => Z.of_nat (String.length s)
  end.

(** [fs.stat(path)], of which only [size] is read. *)
Definition fs_stat (p : string) : Eff Z :=
  fun w => match files w !! p with
           | Some b => (w, Return (fileSize (env w) b))
           | None => (w, Throw (mkError SystemError
                          ("ENOENT: no such file or directory, stat '" +:+ p +:+ "'") None))
           end.

(** [fs.access(path)] *)
Definition fs_access (p : string) : Eff unit :=
  fun w => match files w !! p with
           | Some _ => (w, Return tt)
           | None => (w, Throw (mkError SystemError
                          ("ENOENT: no such file or directory, access '" +:+ p +:+ "'") None))
           end.

(** [path.join(dir, name)] for a normalized directory and a file name
    without separators; [path.join] itself would also resolve the [..]
    segments of a name that has separators. *)
Definition path_join (dir name : string) : string := dir +:+ "/" +:+ name.

(** [path.basename(p)] for a path that does not end with a separator: what
    follows the last one. *)
Fixpoint path_basename (p : string) : string :=
  match p with
  | EmptyString => EmptyString
  | String c p' => if includes "/" p' then path_basename p'
                   else if Ascii.eqb c "/" then p' else p
  end.

(** [PDFDocument.load(bytes)] *)
Definition PDFDocument_load (b : FileBytes) : Eff PDFDocument :=
  match b with
  | PdfBytes doc => ret doc
  | RawBytes _ => throw (newError "Failed to parse PDF document")
  end.

(** The page [doc.addPage()] adds when it is given none: a page without
    content. *)
Definition blankPage : PDFPage := EmptyString.

(** What [save] serializes: a document without pages gets one blank page
    first ([addDefaultPage], which the code leaves at its default). *)
Definition withDefaultPage (doc : PDFDocument) : PDFDocument :=
  match doc with
  | [] => [blankPage]
  | _ :: _ => doc
  end.

(** [doc.save()] *)
Definition PDFDocument_save (doc : PDFDocument) : FileBytes :=
  PdfBytes (withDefaultPage doc).

Definition getPage (src : PDFDocument) (i : Z) : option PDFPage :=
  if i <? 0 then None else src !! Z.to_nat i.

(** [dst.copyPages(src, indices)]: the pages of [src] at [indices]; an
    index outside the document is an error. *)
Definition copyPages (src : PDFDocument) (indices : list Z) : Eff (list PDFPage) :=
  match mapM (getPage src) indices with
  | Some pages => ret pages
  | None => throw (newError "Invalid page index")
  end.

(** Reading a field of the environment. *)
Definition getEnv : Eff Env := fun w => (w, Return (env w)).

(* ===================================================================== *)
(** * services/pdfService.js                                              *)
(* ===================================================================== *)

(** [a.order || 0] *)
Definition orderOrZero (f : InputFile.t) : Z := default 0 (InputFile.order f).

(** [`merged_${operationId}_${Date.now()}.pdf`] *)
Definition mergedFileName (operationId : string) (now : Z) : string :=
  "merged_" +:+ operationId +:+ "_" +:+ intToString now +:+ ".pdf".

(** [`split_${operationId}_page_${i + 1}_${Date.now()}.pdf`] *)
Definition pageFileName (operationId : string) (i : Z) (now : Z) : string :=
  "split_" +:+ operationId +:+ "_page_" +:+ intToString (i + 1) +:+ "_"
  +:+ intToString now +:+ ".pdf".

(** [`split_${operationId}_range_${startPage}-${endPage}_${Date.now()}.pdf`] *)
Definition rangeFileName (operationId : string) (startPage endPage : Z) (now : Z) : string :=
  "split_" +:+ operationId +:+ "_range_" +:+ intToString startPage +:+ "-"
  +:+ intToString endPage +:+ "_" +:+ intToString now +:+ ".pdf".

(** [`split_${operationId}_part_${fileIndex + 1}_${Date.now()}.pdf`] *)
Definition partFileName (operationId : string) (fileIndex : Z) (now : Z) : string :=
  "split_" +:+ operationId +:+ "_part_" +:+ intToString (fileIndex + 1) +:+ "_"
  +:+ intToString now +:+ ".pdf".

(** One round of the merge loop: load the file and append all its pages. *)
Definition mergeOne (mergedPdf : PDFDocument) (file : InputFile.t) : Eff PDFDocument :=
  pdfBytes <- fs_readFile (InputFile.path file) ;;
  pdf <- PDFDocument_load pdfBytes ;;
  let pageCount := Z.of_nat (length pdf) in
  let pageIndices := loopRange 0 pageCount in
  copiedPages <- copyPages pdf pageIndices ;;
  ret (mergedPdf ++ copiedPages).

Definition mergePdfFiles (inputFiles : list InputFile.t) (operationId : string) : Eff string :=
  tryCatch
    (let sortedFiles := sort (fun a b => orderOrZero a - orderOrZero b) inputFiles in
     mergedPdf <- foldEff mergeOne sortedFiles [] ;;
     let mergedPdfBytes := PDFDocument_save mergedPdf in
     e <- getEnv ;;
     now <- Date_now ;;
     let outputFileName := mergedFileName operationId now in
     let outputPath := path_join (processedDir e) outputFileName in
     fs_writeFile outputPath mergedPdfBytes ;;
     ret outputPath)
    (fun error => throw (newError ("Failed to merge PDFs: " +:+ message error))).

(** [parsePageRange(range, totalPages)]; the pair is
    [{ startPage, endPage }]. *)
Definition parsePageRange (range : string) (totalPages : Z) : Outcome (Z * Z) :=
  let rangeStr := trim range in
  if includes "-" rangeStr then
    let nums := (fun num => parseInt (trim num)) <$> split "-" rangeStr in
    match nums !! 0%nat, nums !! 1%nat with
    | Some (Num start), Some (Num end_) =>
        if (start <? 1) || (end_ >? totalPages) || (start >? end_) then
          Throw (newError ("Invalid page range: " +:+ range +:+
                           ". Pages must be between 1 and " +:+ intToString totalPages))
        else Return (start, end_)
    | _, _ =>
        Throw (newError ("Invalid page range: " +:+ range +:+
                         ". Pages must be between 1 and " +:+ intToString totalPages))
    end
  else
    match parseInt rangeStr with
    | Num pageNum =>
        if (pageNum <? 1) || (pageNum >? totalPages) then
          Throw (newError ("Invalid page number: " +:+ range +:+
                           ". Pages must be between 1 and " +:+ intToString totalPages))
        else Return (pageNum, pageNum)
    | NaN =>
        Throw (newError ("Invalid page number: " +:+ range +:+
                         ". Pages must be between 1 and " +:+ intToString totalPages))
    end.

(** The value of [pageRanges]: an array of strings, or a single string
    (which [pageRanges.length] and [pageRanges[i]] then read character by
    character). *)
Inductive PageRanges : Type :=
  | RangeArray (items : list string)
  | RangeString (s : string).

Fixpoint characters (s : string) : list string :=
  match s with
  | EmptyString => []
  | String c s' => String c EmptyString :: characters s'
  end.

(** [pageRanges[0]], ..., [pageRanges[pageRanges.length - 1]] *)
Definition rangeItems (r : PageRanges) : list string :=
  match r with
  | RangeArray items => items
  | RangeString s => characters s
  end.

(** A value that is a number or a string, as a request field is. *)
Inductive jsval : Type :=
  | VNumber (z : Z)
  | VString (s : string).

(** Whether the real number [y] rounds to the double [x], for a double
    [x = m * 2^e] with [2^52 <= m < 2^53] and [e >= 1]: [y] lies between
    the midpoints to the neighbours of [x], the midpoints included when
    [m] is even. The neighbour below a power of two is half as far. *)
Definition roundsTo (x y : Z) : bool :=
  let e := Z.log2 x - 52 in
  let m := x / 2 ^ e in
  let above := 2 ^ e in
  let below := if m =? 2 ^ 52 then 2 ^ (e - 1) else 2 ^ e in
  if Z.even m then (2 * x - below <=? 2 * y) && (2 * y <=? 2 * x + above)
  else (2 * x - below <? 2 * y) && (2 * y <? 2 * x + above).

(** The digits [s] and the exponent [n] that [Number::toString] prints
    for a double [x] of [D] decimal digits: the fewest digits [k] such
    that [s * 10^(n - k)] rounds to [x], and of two such numbers the one
    nearer to [x]. Seventeen digits always suffice. *)
Fixpoint shortestFrom (fuel : nat) (x D k : Z) : Z * Z :=
  match fuel with
  | O => (x, D)
  | S f =>
      let unit := 10 ^ (D - k) in
      let lower := x / unit in
      let upper := lower + 1 in
      let lowerFits := roundsTo x (lower * unit) in
      let upperFits := roundsTo x (upper * unit) in
      let pick :=
        if lowerFits && upperFits then
          if x - lower * unit <? upper * unit - x then lower
          else if upper * unit - x <? x - lower * unit then upper
          else if Z.even lower then lower else upper
        else if lowerFits then lower else upper in
      if lowerFits || upperFits then
        if pick =? 10 ^ k then (1, D + 1) else (pick, D)
      else shortestFrom f x D (k + 1)
  end.

Definition shortestDigits (x : Z) : Z * Z :=
  shortestFrom 17 x (Z.of_nat (String.length (natToString x))) 1.

(** The exponent notation of [Number::toString]: one digit, the other
    digits behind a point if there are any, and the exponent. *)
Definition exponentForm (sn : Z * Z) : string :=
  match natToString (fst sn) with
  | EmptyString => EmptyString
  | String d EmptyString => String d ("e+" +:+ natToString (snd sn - 1))
  | String d more => String d ("." +:+ more +:+ "e+" +:+ natToString (snd sn - 1))
  end.

(** [String(z)] for a number [z] that is an integer: in plain decimal
    below 10^21 and in exponent notation from there on. (Between 2^53 and
    10^21 JavaScript prints the shortest digits that round to [z],
    filled up with zeros; [parseInt] reads them back as [z], and so it
    does here.) *)
Definition Number_toString (z : Z) : string :=
  if Z.abs z <? 10 ^ 21 then intToString z
  else if z <? 0 then String "-" (exponentForm (shortestDigits (- z)))
  else exponentForm (shortestDigits z).

(** [parseInt(v)]: the argument is first converted to a string. *)
Definition parseIntOf (v : jsval) : jsnum :=
  match v with
  | VNumber z => parseInt (Number_toString z)
  | VString s => parseInt s
  end.

(** [Math.max(1, n)] *)
Definition maxWithOne (n : jsnum) : jsnum :=
  match n with
  | NaN => NaN
  | Num z => Num (Z.max 1 z)
  end.

Module Options.
Record t : Type := mk {
  splitType : option string;
  pageRanges : option PageRanges;
  pagesPerFile : option jsval
}.
End Options.

(** The common tail of the three split loops: serialize the new document,
    name it, write it, and give the path that is pushed on [outputPaths]. *)
Definition writePart (newPdf : PDFDocument) (fileName : Z -> string) : Eff string :=
  let pdfBytes := PDFDocument_save newPdf in
  e <- getEnv ;;
  now <- Date_now ;;
  let outputFileName := fileName now in
  let outputPath := path_join (processedDir e) outputFileName in
  fs_writeFile outputPath pdfBytes ;;
  ret outputPath.

(** Round [i] of the [pages] loop. *)
Definition splitPage (pdf : PDFDocument) (operationId : string) (i : Z) : Eff string :=
  copiedPage <- copyPages pdf [i] ;;
  writePart copiedPage (pageFileName operationId i).

(** Round of the [range] loop for the token [range]. *)
Definition splitRange (pdf : PDFDocument) (operationId : string) (totalPages : Z)
    (range : string) : Eff string :=
  se <- lift (parsePageRange range totalPages) ;;
  let startPage := fst se in
  let endPage := snd se in
  let pageIndices := loopRange (startPage - 1) endPage in
  copiedPages <- copyPages pdf pageIndices ;;
  writePart copiedPages (rangeFileName operationId startPage endPage).

(** Round [fileIndex] of the [size] loop. *)
Definition splitChunk (pdf : PDFDocument) (operationId : string) (totalPages : Z)
    (validPagesPerFile : Z) (fileIndex : Z) : Eff string :=
  let startPage := fileIndex * validPagesPerFile in
  let endPage := Z.min (startPage + validPagesPerFile) totalPages in
  let pageIndices := loopRange startPage endPage in
  copiedPages <- copyPages pdf pageIndices ;;
  writePart copiedPages (partFileName operationId fileIndex).

Definition splitPdfFile (inputPath operationId : string) (options : Options.t)
    : Eff (list string) :=
  tryCatch
    (let splitType := default "pages"%string (Options.splitType options) in
     let pageRanges := default (RangeArray []) (Options.pageRanges options) in
     let pagesPerFile := default (VNumber 1) (Options.pagesPerFile options) in
     pdfBytes <- fs_readFile inputPath ;;
     pdf <- PDFDocument_load pdfBytes ;;
     let totalPages := Z.of_nat (length pdf) in
     if String.eqb splitType "pages" then
       forEach (splitPage pdf operationId) (loopRange 0 totalPages)
     else if String.eqb splitType "range" then
       if (length (rangeItems pageRanges) =? 0)%nat then
         throw (newError "Page ranges must be provided for range splitting")
       else
         forEach (splitRange pdf operationId totalPages) (rangeItems pageRanges)
     else if String.eqb splitType "size" then
       match maxWithOne (parseIntOf pagesPerFile) with
       | Num validPagesPerFile =>
           let numberOfFiles := ceilDiv totalPages validPagesPerFile in
           forEach (splitChunk pdf operationId totalPages validPagesPerFile)
                   (loopRange 0 numberOfFiles)
       | NaN => ret []
       end
     else
       throw (newError ("Unsupported split type: " +:+ splitType)))
    (fun error => throw (newError ("Failed to split PDF: " +:+ message error))).

(* ===================================================================== *)
(** * models/PdfOperation.js                                              *)
(* ===================================================================== *)

Definition operationTypeEnum : list string := ["merge"; "split"]%string.

Definition statusEnum : list string :=
  ["pending"; "processing"; "completed"; "failed"]%string.

Definition splitTypeEnum : list string := ["pages"; "range"; "size"]%string.

Definition inEnum (s : string) (enum : list string) : bool :=
  existsb (String.eqb s) enum.

Definition enumMessage (path value : string) : string :=
  "PdfOperation validation failed: " +:+ path +:+ ": `" +:+ value +:+
  "` is not a valid enum value for path `" +:+ path +:+ "`.".

Definition requiredMessage (path : string) : string :=
  "PdfOperation validation failed: " +:+ path +:+ ": Path `" +:+ path +:+
  "` is required.".

(** Validation of a document against [pdfOperationSchema]: the message of
    the first path that fails, if one does. [required] rejects the empty
    string, [enum] a value outside the list, and a number path does not
    hold [NaN] (the cast fails). *)
Definition validate (op : PdfOperation) : option string :=
  if String.eqb (operationId op) EmptyString then Some (requiredMessage "operationId")
  else if String.eqb (operationType op) EmptyString then Some (requiredMessage "operationType")
  else if negb (inEnum (operationType op) operationTypeEnum) then
    Some (enumMessage "operationType" (operationType op))
  else if String.eqb (status op) EmptyString then Some (requiredMessage "status")
  else if negb (inEnum (status op) statusEnum) then
    Some (enumMessage "status" (status op))
  else
    match Metadata.splitOptions (metadata op) with
    | Some so =>
        if negb (inEnum (SplitOptions.splitType so) splitTypeEnum) then
          Some (enumMessage "metadata.splitOptions.splitType" (SplitOptions.splitType so))
        else
          match Processing.duration (processing op) with
          | Some NaN => Some "PdfOperation validation failed: processing.duration: Cast to Number failed for value `NaN`"%string
          | _ => None
          end
    | None =>
        match Processing.duration (processing op) with
        | Some NaN => Some "PdfOperation validation failed: processing.duration: Cast to Number failed for value `NaN`"%string
        | _ => None
        end
    end.

(** Is there a persisted document, other than [op], with its [operationId]? *)
Definition duplicateKey (op : PdfOperation) (coll : gmap nat PdfOperation) : bool :=
  existsb (fun kv => String.eqb (operationId (snd kv)) (operationId op))
          (map_to_list coll).

Definition missingDocument : JsError :=
  newError "Cannot read properties of undefined".

(** [this.save()]: validate, then insert (the unique index of
    [operationId] is checked) or update. *)
Definition save (this : nat) : Eff unit :=
  fun w =>
    match documents w !! this with
    | None => (w, Throw missingDocument)
    | Some op =>
        match validate op with
        | Some msg => (w, Throw (mkError ValidationError msg None))
        | None =>
            match collection w !! this with
            | Some _ => (persist this op w, Return tt)
            | None =>
                if duplicateKey op (collection w) then
                  (w, Throw (mkError MongoServerError
                      ("E11000 duplicate key error collection: pdfoperations index: operationId_1 dup key: { operationId: " +:+ operationId op +:+ " }")
                      None))
                else (persist this op w, Return tt)
            end
        end
    end.

(** An assignment to fields of the document [this]. *)
Definition assign (this : nat) (f : PdfOperation -> PdfOperation) : Eff unit :=
  fun w =>
    match documents w !! this with
    | None => (w, Throw missingDocument)
    | Some op => (set_documents (<[this := f op]> (documents w)) w, Return tt)
    end.

Definition emptyProcessing : Processing.t := Processing.mk None None None None.

Definition emptyMetadata : Metadata.t := Metadata.mk [] None.

(** [new PdfOperation({...})]; [status] defaults to ['pending']. *)
Definition newPdfOperation (operationId operationType : string) (status : option string)
    (inputFiles : list InputFile.t) (metadata : Metadata.t) (clientInfo : ClientInfo.t)
    : Eff nat :=
  fun w =>
    let id := fresh_id w in
    let op := mkOperation operationId operationType (default "pending"%string status)
                          inputFiles [] metadata emptyProcessing clientInfo in
    (set_fresh_id (S id) (set_documents (<[id := op]> (documents w)) w), Return id).

Definition set_startTime (t : Z) (op : PdfOperation) : PdfOperation :=
  let p := processing op in
  set_processing (Processing.mk (Some t) (Processing.endTime p) (Processing.duration p)
                                (Processing.errorMessage p)) op.

Definition set_endTime (t : Z) (op : PdfOperation) : PdfOperation :=
  let p := processing op in
  set_processing (Processing.mk (Processing.startTime p) (Some t) (Processing.duration p)
                                (Processing.errorMessage p)) op.

(** [this.processing.duration = this.processing.endTime - this.processing.startTime]:
    a date minus [undefined] is [NaN]. *)
Definition set_duration (op : PdfOperation) : PdfOperation :=
  let p := processing op in
  let d := match Processing.endTime p, Processing.startTime p with
           | Some e, Some s => Num (e - s)
           | _, _ => NaN
           end in
  set_processing (Processing.mk (Processing.startTime p) (Processing.endTime p) (Some d)
                                (Processing.errorMessage p)) op.

Definition set_errorMessage (m : string) (op : PdfOperation) : PdfOperation :=
  let p := processing op in
  set_processing (Processing.mk (Processing.startTime p) (Processing.endTime p)
                                (Processing.duration p) (Some m)) op.

Definition markAsProcessing (this : nat) : Eff unit :=
  assign this (set_status "processing") ;;
  now <- Date_now ;;
  assign this (set_startTime now) ;;
  save this.

Definition markAsCompleted (this : nat) (outputFiles : list OutputFile.t) : Eff unit :=
  assign this (set_status "completed") ;;
  now <- Date_now ;;
  assign this (set_endTime now) ;;
  assign this set_duration ;;
  assign this (set_outputFiles outputFiles) ;;
  save this.

Definition markAsFailed (this : nat) (errorMessage : string) : Eff unit :=
  assign this (set_status "failed") ;;
  now <- Date_now ;;
  assign this (set_endTime now) ;;
  assign this (set_errorMessage errorMessage) ;;
  save this.

(** [PdfOperation.findByOperationId(operationId)]: the persisted document
    or [null]. *)
Definition findByOperationId (operationId_ : string) : Eff (option PdfOperation) :=
  fun w =>
    (w, Return (snd <$> List.find (fun kv => String.eqb (operationId (snd kv)) operationId_)
                                  (map_to_list (collection w)))).

(** Reading the document [this]. *)
Definition getDocument (this : nat) : Eff PdfOperation :=
  fun w =>
    match documents w !! this with
    | None => (w, Throw missingDocument)
    | Some op => (w, Return op)
    end.

(* ===================================================================== *)
(** * Requests and responses                                              *)
(* ===================================================================== *)

Module Body.
Record t : Type := mk {
  mergeOrder : option (list Z);
  splitType : option string;
  pageRanges : option PageRanges;
  pagesPerFile : option jsval
}.
End Body.

Module Req.
Record t : Type := mk {
  files : option (list MulterFile.t);
  body : Body.t;
  operationId : string;   (* req.params.operationId *)
  ip : string;
  userAgent : string      (* req.get('User-Agent') *)
}.
End Req.

Inductive ResponseData : Type :=
  | NoData
  | UploadData (operationId : string) (fileNames : list string)
  | StartedData (operationId status statusUrl previewUrl downloadUrl : string).

Inductive Response : Type :=
  | Json (code : Z) (success : bool) (message : string) (error : option string)
         (data : ResponseData)
  | Redirect (url : string)
  | Archive (fileName : string) (entries : list string).

(** What a middleware does: answer, or hand the request on. *)
Inductive Middleware : Type :=
  | Respond (r : Response)
  | NextWith (req : Req.t).

(** What [asyncHandler(fn)] does with a request: the response [fn] sent,
    or [next(error)]. *)
Inductive Handled : Type :=
  | Sent (r : Response)
  | Next (e : JsError).

(** utils/asyncHandler.js *)
Definition asyncHandler (fn : Req.t -> Eff Response) (req : Req.t) : World -> World * Handled :=
  fun w => match fn req w with
           | (w', Return r) => (w', Sent r)
           | (w', Throw e) => (w', Next e)
           end.

(* ===================================================================== *)
(** * Request validation middleware                                       *)
(* ===================================================================== *)

Definition isDigit (c : ascii) : bool :=
  let n := Z.of_N (N_of_ascii c) in (48 <=? n) && (n <=? 57).

Fixpoint allDigits (s : string) : bool :=
  match s with
  | EmptyString => true
  | String c s' => isDigit c && allDigits s'
  end.

(** [\d+] *)
Definition someDigits (s : string) : bool :=
  negb (String.eqb s EmptyString) && allDigits s.

(** [/^\d+(-\d+)?$/] *)
Definition matchesRangePattern (s : string) : bool :=
  match split "-" s with
  | [a] => someDigits a
  | [a; b] => someDigits a && someDigits b
  | _ => false
  end.

(** Joi's conversion of a string to a number, for integer literals.
    Joi also reads numbers written with a fraction or an exponent ([4.0],
    [1e2]); these forms are outside the model, which turns them away. *)
Definition joiNumber (v : jsval) : option Z :=
  match v with
  | VNumber z => Some z
  | VString s =>
      let t := trim s in
      match t with
      | String "-" r => if someDigits r then
                          match parseInt t with Num z => Some z | NaN => None end
                        else None
      | String "+" r => if someDigits r then
                          match parseInt r with Num z => Some z | NaN => None end
                        else None
      | _ => if someDigits t then
               match parseDigits 10 t None with Some z => Some z | None => None end
             else None
      end
  end.

(** [s] between double quotes, as Joi labels a key in its messages. *)
Definition quoted (s : string) : string :=
  String (ascii_of_N 34) s +:+ String (ascii_of_N 34) EmptyString.

Inductive JoiResult : Type :=
  | JoiValue (value : Body.t)
  | JoiError (details : list string).

(** [splitSchema.validate(body, { abortEarly: false, stripUnknown: true })] *)
Definition splitSchema_validate (body : Body.t) : JoiResult :=
  let splitTypeErrors :=
    match Body.splitType body with
    | Some s => if inEnum s splitTypeEnum then []
                else [quoted "splitType" +:+ " must be one of [pages, range, size]"]
    | None => []
    end in
  let pageRangesErrors :=
    match Body.pageRanges body with
    | Some (RangeArray items) =>
        if forallb matchesRangePattern items then []
        else [quoted "pageRanges" +:+ " does not match any of the allowed types"]
    | Some (RangeString s) =>
        if matchesRangePattern s then []
        else [quoted "pageRanges" +:+ " does not match any of the allowed types"]
    | None => []
    end in
  let pagesPerFileErrors :=
    match Body.pagesPerFile body with
    | Some v =>
        match joiNumber v with
        | Some z => if z <? 1 then [quoted "pagesPerFile" +:+ " must be greater than or equal to 1"]
                    else if 100 <? z then [quoted "pagesPerFile" +:+ " must be less than or equal to 100"]
                    else []
        | None => [quoted "pagesPerFile" +:+ " must be a number"]
        end
    | None => []
    end in
  match splitTypeErrors ++ pageRangesErrors ++ pagesPerFileErrors with
  | [] => JoiValue (Body.mk None
                            (Some (default "pages"%string (Body.splitType body)))
                            (Body.pageRanges body)
                            (Some (VNumber (default 1 (Body.pagesPerFile body ≫= joiNumber)))))
  | details => JoiError details
  end.

Definition badRequest (message error : string) : Middleware :=
  Respond (Json 400 false message (Some error) NoData).

(** [ranges.join(', ')] of the Joi messages. *)
Fixpoint joinComma (l : list string) : string :=
  match l with
  | [] => EmptyString
  | [x] => x
  | x :: l' => x +:+ ", " +:+ joinComma l'
  end.

(** The check made on each range of the request inside the loop of
    [validateSplitRequest]: the answer that ends the loop, if any. *)
Definition checkRange (range : string) : option Middleware :=
  if negb (matchesRangePattern range) then
    Some (badRequest ("Invalid page range format: " +:+ range +:+
                      ". Use formats like " +:+ quoted "1" +:+ ", " +:+ quoted "1-5" +:+
                      ", " +:+ quoted "3-7")
                     "INVALID_PAGE_RANGE_FORMAT")
  else if includes "-" range then
    let nums := parseInt <$> split "-" range in
    match nums !! 0%nat, nums !! 1%nat with
    | Some (Num start), Some (Num end_) =>
        if start >=? end_ then
          Some (badRequest ("Invalid page range: " +:+ range +:+
                            ". Start page must be less than end page")
                           "INVALID_PAGE_RANGE_VALUES")
        else None
    | _, _ => None   (* a comparison with NaN is false *)
    end
  else None.

Fixpoint checkRanges (ranges : list string) : option Middleware :=
  match ranges with
  | [] => None
  | range :: rest =>
      match checkRange range with
      | Some answer => Some answer
      | None => checkRanges rest
      end
  end.

Definition validateSplitRequest (req : Req.t) : Middleware :=
  match Req.files req with
  | None =>
      badRequest "Exactly one PDF file is required for splitting" "INVALID_FILE_COUNT"
  | Some files =>
      if negb (length files =? 1)%nat then
        badRequest "Exactly one PDF file is required for splitting" "INVALID_FILE_COUNT"
      else
        match splitSchema_validate (Req.body req) with
        | JoiError details =>
            badRequest ("Validation error: " +:+ joinComma details) "VALIDATION_ERROR"
        | JoiValue value =>
            let next := NextWith (Req.mk (Req.files req) value (Req.operationId req)
                                         (Req.ip req) (Req.userAgent req)) in
            if String.eqb (default "pages"%string (Body.splitType value)) "range" then
              match Body.pageRanges value with
              | None =>
                  badRequest ("Page ranges are required when split type is " +:+ quoted "range")
                             "MISSING_PAGE_RANGES"
              | Some (RangeArray []) =>
                  badRequest ("Page ranges are required when split type is " +:+ quoted "range")
                             "MISSING_PAGE_RANGES"
              | Some (RangeString EmptyString) =>
                  badRequest ("Page ranges are required when split type is " +:+ quoted "range")
                             "MISSING_PAGE_RANGES"
              | Some (RangeArray ranges) =>
                  match checkRanges ranges with
                  | Some answer => answer
                  | None => next
                  end
              | Some (RangeString s) =>
                  match checkRanges [s] with
                  | Some answer => answer
                  | None => next
                  end
              end
            else next
        end
  end.

(* ===================================================================== *)
(** * controllers/pdfController.js                                        *)
(* ===================================================================== *)

Definition toInputFile (order : option Z) (file : MulterFile.t) : InputFile.t :=
  InputFile.mk (MulterFile.originalname file) (MulterFile.filename file)
               (MulterFile.path file) (MulterFile.size file) (MulterFile.mimetype file)
               order.

(** [({ order, ...file }) => file] *)
Definition withoutOrder (f : InputFile.t) : InputFile.t :=
  InputFile.mk (InputFile.originalName f) (InputFile.filename f) (InputFile.path f)
               (InputFile.size f) (InputFile.mimetype f) None.

Definition clientInfoOf (req : Req.t) : ClientInfo.t :=
  ClientInfo.mk (Req.ip req) (Req.userAgent req).

(** [mergeOrder[index] || index]: a missing entry and the entry [0] both
    give [index]. *)
Definition orderFor (mergeOrder : list Z) (index : nat) : Z :=
  match mergeOrder !! index with
  | Some v => if v =? 0 then Z.of_nat index else v
  | None => Z.of_nat index
  end.

(** [inputFiles[index]], [undefined] outside the array. *)
Definition itemAt {A} (l : list A) (index : Z) : option A :=
  if index <? 0 then None else l !! Z.to_nat index.

Definition toOutputFile (outputPath : string) (size : Z) : OutputFile.t :=
  OutputFile.mk (path_basename outputPath) outputPath size
                ("/api/pdf/download/" +:+ path_basename outputPath).

Definition processMergeOperation (operation : nat) (inputFiles : list InputFile.t)
    (mergeOrder : list Z) : Eff unit :=
  tryCatch
    (markAsProcessing operation ;;
     let orderedFiles :=
       if (0 <? length mergeOrder)%nat
       then omap (fun index => itemAt inputFiles index) mergeOrder
       else inputFiles in
     op <- getDocument operation ;;
     outputPath <- mergePdfFiles orderedFiles (operationId op) ;;
     size <- fs_stat outputPath ;;
     let outputFiles := [toOutputFile outputPath size] in
     markAsCompleted operation outputFiles)
    (fun error => markAsFailed operation (message error)).

Definition processSplitOperation (operation : nat) (inputFile : MulterFile.t)
    (options : Options.t) : Eff unit :=
  tryCatch
    (markAsProcessing operation ;;
     op <- getDocument operation ;;
     outputPaths <- splitPdfFile (MulterFile.path inputFile) (operationId op) options ;;
     outputFiles <- forEach (fun outputPath =>
                               size <- fs_stat outputPath ;;
                               ret (toOutputFile outputPath size)) outputPaths ;;
     markAsCompleted operation outputFiles)
    (fun error => markAsFailed operation (message error)).

Definition uploadFiles (req : Req.t) : Eff Response :=
  match Req.files req with
  | None => throw (newAppError "No files uploaded" 400)
  | Some [] => throw (newAppError "No files uploaded" 400)
  | Some files =>
      operationId <- uuidv4 ;;
      let inputFiles := toInputFile None <$> files in
      operation <- newPdfOperation operationId "upload" (Some "completed"%string)
                                   inputFiles emptyMetadata (clientInfoOf req) ;;
      save operation ;;
      ret (Json 200 true "Files uploaded successfully" None
                (UploadData operationId (InputFile.filename <$> inputFiles)))
  end.

Definition startedData (operationId : string) : ResponseData :=
  StartedData operationId "processing"
              ("/api/pdf/status/" +:+ operationId)
              ("/api/pdf/preview-operation/" +:+ operationId)
              ("/api/pdf/download-operation/" +:+ operationId).

Definition mergePdfs (req : Req.t) : Eff Response :=
  match Req.files req with
  | None => throw (newAppError "At least 2 PDF files are required for merging" 400)
  | Some files =>
      if (length files <? 2)%nat then
        throw (newAppError "At least 2 PDF files are required for merging" 400)
      else
        operationId <- uuidv4 ;;
        let mergeOrder := default [] (Body.mergeOrder (Req.body req)) in
        let inputFiles :=
          imap (fun index file => toInputFile (Some (orderFor mergeOrder index)) file) files in
        operation <- newPdfOperation operationId "merge" (Some "pending"%string)
                       (withoutOrder <$> inputFiles)
                       (Metadata.mk (if (0 <? length mergeOrder)%nat then mergeOrder
                                     else imap (fun i _ => Z.of_nat i) inputFiles)
                                    None)
                       (clientInfoOf req) ;;
        save operation ;;
        fireAndForget (processMergeOperation operation inputFiles mergeOrder) ;;
        ret (Json 202 true "Merge operation started" None (startedData operationId))
  end.

(** [Array.isArray(pageRanges) ? pageRanges : [pageRanges].filter(Boolean)] *)
Definition rangesAsArray (r : PageRanges) : list string :=
  match r with
  | RangeArray items => items
  | RangeString EmptyString => []
  | RangeString s => [s]
  end.

(** [parseInt(pagesPerFile) || 1] *)
Definition pagesPerFileOrOne (v : jsval) : Z :=
  match parseIntOf v with
  | Num z => if z =? 0 then 1 else z
  | NaN => 1
  end.

Definition splitPdf (req : Req.t) : Eff Response :=
  match Req.files req with
  | Some [inputFile] =>
      operationId <- uuidv4 ;;
      let splitType := default "pages"%string (Body.splitType (Req.body req)) in
      let pageRanges := default (RangeArray []) (Body.pageRanges (Req.body req)) in
      let pagesPerFile := default (VNumber 1) (Body.pagesPerFile (Req.body req)) in
      let inputFiles := [toInputFile None inputFile] in
      operation <- newPdfOperation operationId "split" (Some "pending"%string) inputFiles
                     (Metadata.mk []
                        (Some (SplitOptions.mk splitType (rangesAsArray pageRanges)
                                               (pagesPerFileOrOne pagesPerFile))))
                     (clientInfoOf req) ;;
      save operation ;;
      fireAndForget (processSplitOperation operation inputFile
                       (Options.mk (Some splitType) (Some pageRanges) (Some pagesPerFile))) ;;
      ret (Json 202 true "Split operation started" None (startedData operationId))
  | _ => throw (newAppError "Exactly one PDF file is required for splitting" 400)
  end.

(** The bindings of the controller module: its imports and its top-level
    declarations. The module is an ES module (it uses [import] and
    [import.meta.url], and rebuilds [__filename] and [__dirname] itself). *)
Definition controllerBindings : list string :=
  ["uuidv4"; "PdfOperation"; "mergePdfFiles"; "splitPdfFile"; "asyncHandler";
   "AppError"; "fs"; "path"; "fileURLToPath"; "debugPdfController";
   "__filename"; "__dirname"; "uploadFiles"; "mergePdfs"; "splitPdf";
   "getOperationStatus"; "downloadFile"; "previewFile"; "downloadOperationResult";
   "previewOperationResult"; "getOperationHistory"; "bulkDownload";
   "processMergeOperation"; "processSplitOperation"]%string.

(** The globals the controller reads. [require], [module] and [exports]
    are parameters of the CommonJS module wrapper, not properties of the
    global object, and an ES module is not wrapped. *)
Definition nodeGlobals : list string :=
  ["globalThis"; "process"; "console"; "Promise"; "Array"; "Math"; "Date";
   "parseInt"; "Boolean"; "Error"; "undefined"]%string.

(** Evaluating a reference to the identifier [x] in a scope. *)
Definition reference (scope : list string) (x : string) : Eff unit :=
  if inEnum x scope then ret tt
  else throw (mkError ReferenceError (x +:+ " is not defined") None).

(** One round of the loop that adds the output files to the archive; a
    file that cannot be accessed is skipped. *)
Definition addToArchive (dir : string) (entries : list string) (outputFile : OutputFile.t)
    : Eff (list string) :=
  let filePath := path_join dir (OutputFile.filename outputFile) in
  tryCatch (fs_access filePath ;; ret (entries ++ [OutputFile.filename outputFile]))
           (fun _ => ret entries).

Definition bulkDownload (req : Req.t) : Eff Response :=
  let operationId := Req.operationId req in
  found <- findByOperationId operationId ;;
  match found with
  | None => throw (newAppError "Operation not found" 404)
  | Some operation =>
      if negb (String.eqb (status operation) "completed") then
        throw (newAppError "Operation not completed yet" 400)
      else
        match outputFiles operation with
        | [] => throw (newAppError "No output files available" 404)
        | [outputFile] =>
            ret (Redirect ("/api/pdf/download/" +:+ OutputFile.filename outputFile))
        | outputFiles_ =>
            let locals := ["req"; "res"; "operationId"; "operation"]%string in
            reference (locals ++ controllerBindings ++ nodeGlobals) "require" ;;
            e <- getEnv ;;
            entries <- foldEff (addToArchive (processedDir e)) outputFiles_ [] ;;
            ret (Archive (operationId +:+ "-files.zip") entries)
        end
  end.

(* ===================================================================== *)
(** * Vocabulary of the properties                                        *)
(* ===================================================================== *)

(** Pages [a, b) of a document, counted from 0. *)
Definition pagesBetween (doc : PDFDocument) (a b : Z) : PDFDocument :=
  take (Z.to_nat (b - a)) (drop (Z.to_nat a) doc).

(** A page range as the specification writes it: a single page [n], or
    [start-end], both counted from 1 and inclusive. *)
Inductive RangeToken : Type :=
  | SinglePage (n : Z)
  | PageSpan (startPage endPage : Z).

Definition renderRange (r : RangeToken) : string :=
  match r with
  | SinglePage n => intToString n
  | PageSpan s e => intToString s +:+ "-" +:+ intToString e
  end.

Definition rangeStart (r : RangeToken) : Z :=
  match r with SinglePage n => n | PageSpan s _ => s end.

Definition rangeEnd (r : RangeToken) : Z :=
  match r with SinglePage n => n | PageSpan _ e => e end.

(** Both ends are at least 1, the end is at most the page count, and the
    start is not after the end. *)
Definition validRange (total : Z) (r : RangeToken) : Prop :=
  1 <= rangeStart r /\ rangeStart r <= rangeEnd r /\ rangeEnd r <= total.

(** A numeric token: digits, or digits, a dash and digits. *)
Definition numericToken (t : string) : Prop :=
  (allDigits t = true /\ t <> EmptyString) \/
  exists a b, allDigits a = true /\ a <> EmptyString /\
              allDigits b = true /\ b <> EmptyString /\
              t = a +:+ "-" +:+ b.

(** [pieces.join(c)] for a one-character separator. *)
Fixpoint joinWith (c : ascii) (pieces : list string) : string :=
  match pieces with
  | [] => EmptyString
  | [x] => x
  | x :: rest => x +:+ String c (joinWith c rest)
  end.

(** The four kinds of output file and what distinguishes two outputs of
    one operation. *)
Inductive Suffix : Type :=
  | MergedOutput
  | PageOutput (i : Z)
  | RangeOutput (startPage endPage : Z)
  | PartOutput (fileIndex : Z).

Definition outputFileName (operationId : string) (suffix : Suffix) (now : Z) : string :=
  match suffix with
  | MergedOutput => mergedFileName operationId now
  | PageOutput i => pageFileName operationId i now
  | RangeOutput s e => rangeFileName operationId s e now
  | PartOutput i => partFileName operationId i now
  end.

(** Every name ends with the clock reading; what precedes it is the head. *)
Definition nameHead (operationId : string) (suffix : Suffix) : string :=
  match suffix with
  | MergedOutput => "merged_" +:+ operationId
  | PageOutput i =>
      (("split_" +:+ operationId) +:+ String "_" "page") +:+ String "_" (intToString (i + 1))
  | RangeOutput s e =>
      (("split_" +:+ operationId) +:+ String "_" "range")
      +:+ String "_" (intToString s +:+ String "-" (intToString e))
  | PartOutput i =>
      (("split_" +:+ operationId) +:+ String "_" "part") +:+ String "_" (intToString (i + 1))
  end.

(** The world after the clock was read up to [t] and the files became [fs]. *)
Definition afterWrites (fs : gmap string FileBytes) (t : nat) (w : World) : World :=
  set_files fs (set_ticks t w).

(** A sequence of file writes, applied in order. *)
Definition runWrites (ws : list (string * FileBytes)) (fs : gmap string FileBytes)
    : gmap string FileBytes :=
  foldl (fun m pc => <[fst pc := snd pc]> m) fs ws.

(** The writes of a loop whose round for [x], started at clock tick [t],
    writes [step x t]; every round reads the clock once. *)
Fixpoint plan {A} (step : A -> nat -> string * FileBytes) (l : list A) (t : nat)
    : list (string * FileBytes) :=
  match l with
  | [] => []
  | x :: l' => step x t :: plan step l' (S t)
  end.

(** What the rounds of the three split loops write. *)
Definition pageStep (e : Env) (pdf : PDFDocument) (operationId : string) (i : Z) (t : nat)
    : string * FileBytes :=
  (path_join (processedDir e) (pageFileName operationId i (clock e t)),
   PdfBytes (pagesBetween pdf i (i + 1))).



(** The options of the three split strategies. *)
Definition pagesOptions : Options.t :=
  Options.mk (Some "pages"%string) None None.

Definition rangeOptions (ranges : list string) : Options.t :=
  Options.mk (Some "range"%string) (Some (RangeArray ranges)) None.

Definition sizeOptions (pagesPerFile : jsval) : Options.t :=
  Options.mk (Some "size"%string) None (Some pagesPerFile).

(** The input descriptors the merge handler builds for [parts] when the
    request has no [mergeOrder]. *)
Definition defaultInputs (parts : list MulterFile.t) : list InputFile.t :=
  imap (fun index file => toInputFile (Some (orderFor [] index)) file) parts.

(** Nothing but files and clock ticks differs between two worlds. *)
Definition sameRecords (w w' : World) : Prop :=
  env w' = env w /\ drawn w' = drawn w /\ fresh_id w' = fresh_id w /\
  documents w' = documents w /\ collection w' = collection w /\ oplog w' = oplog w.

(** A computation that leaves the operation records alone. *)
Definition keepsRecords {A} (c : Eff A) : Prop :=
  forall w, sameRecords w (fst (c w)).

(** What the merge executor does between the two transitions. *)
Definition mergeWork (operation : nat) (orderedFiles : list InputFile.t)
    : Eff (list OutputFile.t) :=
  op <- getDocument operation ;;
  outputPath <- mergePdfFiles orderedFiles (operationId op) ;;
  size <- fs_stat outputPath ;;
  ret [toOutputFile outputPath size].

(** What the split executor does between the two transitions. *)
Definition splitWork (operation : nat) (inputFile : MulterFile.t) (options : Options.t)
    : Eff (list OutputFile.t) :=
  op <- getDocument operation ;;
  outputPaths <- splitPdfFile (MulterFile.path inputFile) (operationId op) options ;;
  forEach (fun outputPath =>
             size <- fs_stat outputPath ;;
             ret (toOutputFile outputPath size)) outputPaths.

(** An executor: the transition to processing, the work, and the
    transition to completed, or to failed when any of them throws. *)
Definition executor (operation : nat) (work : Eff (list OutputFile.t)) : Eff unit :=
  tryCatch (markAsProcessing operation ;;
            outputFiles_ <- work ;;
            markAsCompleted operation outputFiles_)
           (fun error => markAsFailed operation (message error)).

(** The schema checks on every path but [status]. *)
Definition fieldsOk (op : PdfOperation) : bool :=
  negb (String.eqb (operationId op) EmptyString)
  && inEnum (operationType op) operationTypeEnum
  && match Metadata.splitOptions (metadata op) with
     | Some so => inEnum (SplitOptions.splitType so) splitTypeEnum
     | None => true
     end
  && match Processing.duration (processing op) with
     | Some NaN => false
     | _ => true
     end.

(** The document after [markAsProcessing] at clock reading [now]. *)
Definition processingAt (now : Z) (op : PdfOperation) : PdfOperation :=
  set_startTime now (set_status "processing" op).

(** The document after [markAsCompleted(outputFiles)] at clock reading [now]. *)
Definition completedAt (now : Z) (outputFiles_ : list OutputFile.t) (op : PdfOperation)
    : PdfOperation :=
  set_outputFiles outputFiles_ (set_duration (set_endTime now (set_status "completed" op))).

(** The document after [markAsFailed(errorMessage)] at clock reading [now]. *)
Definition failedAt (now : Z) (errorMessage : string) (op : PdfOperation) : PdfOperation :=
  set_errorMessage errorMessage (set_endTime now (set_status "failed" op)).

(** The world after a transition of the document [this] to [op']: one
    clock reading, the document assigned and persisted. *)
Definition transitioned (this : nat) (op' : PdfOperation) (w : World) : World :=
  persist this op' (set_documents (<[this := op']> (documents w)) (set_ticks (S (ticks w)) w)).

(** A persisted state of a record whose output files are what [work]
    returned, run on the files [fs], when it is completed, and none
    otherwise. *)
Definition outputsFrom (fs : gmap string FileBytes) (work : Eff (list OutputFile.t))
    (s : PdfOperation) : Prop :=
  (status s = "completed"%string /\
   exists w1 w2, files w1 = fs /\ work w1 = (w2, Return (outputFiles s))) \/
  (status s <> "completed"%string /\ outputFiles s = []).

(** A path in the output directory under a name made of the operation
    identifier, some suffix and some clock reading. *)
Definition namedFor (e : Env) (operationId : string) (p : string) : Prop :=
  exists suffix now, p = path_join (processedDir e) (outputFileName operationId suffix now).

(** A document passes validation with any status of the schema. *)
Definition storable (op : PdfOperation) : Prop :=
  forall s, inEnum s statusEnum = true -> validate (set_status s op) = None.

(** The data model's invariant on output files, and its two halves. *)
Definition outputsIffCompleted (op : PdfOperation) : Prop :=
  outputFiles op <> [] <-> status op = "completed"%string.

Definition outputsOnlyIfCompleted (op : PdfOperation) : Prop :=
  outputFiles op <> [] -> status op = "completed"%string.

(* ===================================================================== *)
(** * A sample environment                                                *)
(* ===================================================================== *)

Definition sampleEnv : Env :=
  mkEnv (fun n => 1700000000000 + Z.of_nat n)
        (fun n => "7d0c1f6e-52a4-4b1b-9a55-0000000000" +:+ intToString (10 + Z.of_nat n))
        "/srv/app/processed"
        (fun doc => 900 + 350 * Z.of_nat (length doc))
        ["/srv/app/uploads"; "/srv/app/processed"; "/srv/app/temp"]%string.

Definition sampleUpload (stem : string) : MulterFile.t :=
  MulterFile.mk (stem +:+ ".pdf") (stem +:+ "-1700000000000-1.pdf")
                ("/srv/app/uploads/" +:+ stem +:+ "-1700000000000-1.pdf")
                1250 "application/pdf".

Definition tenPages : PDFDocument :=
  ["p1"; "p2"; "p3"; "p4"; "p5"; "p6"; "p7"; "p8"; "p9"; "p10"]%string.

Definition sixPages : PDFDocument := ["d1"; "d2"; "d3"; "d4"; "d5"; "d6"]%string.

Definition sampleFiles : gmap string FileBytes :=
  <[MulterFile.path (sampleUpload "A") := PdfBytes ["a1"%string]]>
  (<[MulterFile.path (sampleUpload "B") := PdfBytes ["b1"%string]]>
  (<[MulterFile.path (sampleUpload "C") := PdfBytes ["c1"%string]]>
  (<[MulterFile.path (sampleUpload "six") := PdfBytes sixPages]>
  (<[MulterFile.path (sampleUpload "ten") := PdfBytes tenPages]> ∅)))).

Definition sampleWorld : World :=
  mkWorld sampleEnv sampleFiles 0 0 0 ∅ ∅ [].

Definition sampleRequest (uploads : list string) (body : Body.t) : Req.t :=
  Req.mk (Some (sampleUpload <$> uploads)) body EmptyString "203.0.113.9" "curl/8.5.0".

(** Three single-page inputs A, B, C with [mergeOrder = [2,0,1]]. *)
Definition mergeRequest201 : Req.t :=
  sampleRequest ["A"; "B"; "C"]%string (Body.mk (Some [2; 0; 1]) None None None).


(** A ten-page input with [pagesPerFile = 3]. *)
Definition splitRequestBySize : Req.t :=
  sampleRequest ["ten"%string]
    (Body.mk None (Some "size"%string) None (Some (VString "3"))).

Definition uploadRequest : Req.t :=
  sampleRequest ["A"%string] (Body.mk None None None None).

Definition pathsOf (o : Outcome (list string)) : list string :=
  match o with Return l => l | Throw _ => [] end.

Definition pathOf (o : Outcome string) : string :=
  match o with Return p => p | Throw _ => EmptyString end.

(** The world after the merge request, and after the split by size. *)
Definition afterMerge201 : World := fst (mergePdfs mergeRequest201 sampleWorld).

Definition afterSplitBySize : World := fst (splitPdf splitRequestBySize sampleWorld).

(** A bulk download of the operation the sample environment creates first. *)
Definition bulkRequest : Req.t :=
  Req.mk None (Body.mk None None None None) (uuids sampleEnv 0) "203.0.113.9" "curl/8.5.0".

(** Two uploads handed to the merge with no order. *)
Definition twoInputs : list InputFile.t :=
  defaultInputs [sampleUpload "A"; sampleUpload "B"].

(** The split request past the end, as the validation hands it on. *)
Definition pastEndValidated : Req.t :=
  sampleRequest ["six"%string]
    (Body.mk None (Some "range"%string) (Some (RangeArray ["1-2"; "9"]%string))
             (Some (VNumber 1))).

(** The identifier of the first operation of the sample environment. *)
Definition firstId : string := "7d0c1f6e-52a4-4b1b-9a55-000000000010".


(** The page counts of the files at [paths]. *)
Definition pageCounts (w : World) (paths : list string) : list nat :=
  (fun p => match files w !! p with
            | Some (PdfBytes doc) => length doc
            | _ => O
            end) <$> paths.

(* ===================================================================== *)
(** * services/pdfService.js: metadata and validation of a file           *)
(* ===================================================================== *)

(** What pdf-lib's getters read from the information dictionary of a
    loaded document; a getter gives [undefined] for a missing entry. *)
Module DocumentInfo.
Record t : Type := mk {
  title : option string;
  author : option string;
  subject : option string;
  creator : option string;
  producer : option string;
  creationDate : option Z;
  modificationDate : option Z
}.
End DocumentInfo.

(** The object [getPdfMetadata] returns. *)
Module PdfMetadata.
Record t : Type := mk {
  pageCount : Z;
  title : string;
  author : string;
  subject : string;
  creator : string;
  producer : string;
  creationDate : option Z;
  modificationDate : option Z
}.
End PdfMetadata.

(** The bindings of the service module: its imports and its top-level
    declarations. Of the loggers of [utils/debugLogger.js] it imports
    [debugPdf] alone. *)
Definition serviceBindings : list string :=
  ["PDFDocument"; "fs"; "path"; "fileURLToPath"; "debugPdf"; "__filename"; "__dirname";
   "mergePdfFiles"; "splitPdfFile"; "parsePageRange"; "getPdfMetadata";
   "validatePdfFile"]%string.

(** [getPdfMetadata(filePath)]; [info] is what the getters of pdf-lib read
    from a loaded document. *)
Definition getPdfMetadata (info : PDFDocument -> DocumentInfo.t) (filePath : string)
    : Eff PdfMetadata.t :=
  tryCatch
    (pdfBytes <- fs_readFile filePath ;;
     pdf <- PDFDocument_load pdfBytes ;;
     let pageCount := Z.of_nat (length pdf) in
     let title := default EmptyString (DocumentInfo.title (info pdf)) in
     let author := default EmptyString (DocumentInfo.author (info pdf)) in
     let subject := default EmptyString (DocumentInfo.subject (info pdf)) in
     let creator := default EmptyString (DocumentInfo.creator (info pdf)) in
     let producer := default EmptyString (DocumentInfo.producer (info pdf)) in
     let creationDate := DocumentInfo.creationDate (info pdf) in
     let modificationDate := DocumentInfo.modificationDate (info pdf) in
     ret (PdfMetadata.mk pageCount title author subject creator producer
                         creationDate modificationDate))
    (fun error =>
       reference (["filePath"; "error"]%string ++ serviceBindings ++ nodeGlobals) "debug" ;;
       throw (newError ("Failed to read PDF metadata: " +:+ message error))).



(** A computation that leaves the environment alone and changes no file
    but those [P] allows. *)
Definition touchesOnly {A} (P : Env -> string -> Prop) (c : Eff A) : Prop :=
  forall w, env (fst (c w)) = env w /\
            forall q, ~ P (env w) q -> files (fst (c w)) !! q = files w !! q.

(** The file at the path of an input descriptor is a PDF. *)
Definition loadable (w : World) (f : InputFile.t) : Prop :=
  exists d, files w !! InputFile.path f = Some (PdfBytes d).


(** The paths the transformers may write for an operation. *)
Definition ownOutput (operationId : string) : Env -> string -> Prop :=
  fun e q => namedFor e operationId q.


(* ===================================================================== *)
(** * models/PdfOperation.js: the duration virtual and the statistics     *)
(* ===================================================================== *)

(** The virtual [processingDuration]: [endTime - startTime] when both are
    set, [null] otherwise. *)
Definition processingDuration (op : PdfOperation) : option Z :=
  match Processing.startTime (processing op), Processing.endTime (processing op) with
  | Some startTime, Some endTime => Some (endTime - startTime)
  | _, _ => None
  end.

(** [$group: { _id: '$status', count: { $sum: 1 } }]: the groups, as a
    map from the status to the count (their order is not specified). *)
Definition countByStatus (ops : list PdfOperation) : gmap string nat :=
  foldr (fun op groups => <[status op := S (default O (groups !! status op))]> groups) ∅ ops.

(** [PdfOperation.getOperationStats()] *)
Definition getOperationStats : Eff (gmap string nat) :=
  fun w => (w, Return (countByStatus (snd <$> map_to_list (collection w)))).

(** No two persisted documents share an [operationId]: what the unique
    index maintains. *)
Definition uniqueIds (coll : gmap nat PdfOperation) : Prop :=
  forall i j a b, coll !! i = Some a -> coll !! j = Some b ->
                  operationId a = operationId b -> i = j.

(** The world when the executor has made its first transition. *)
Definition started (this : nat) (w : World) : World := fst (markAsProcessing this w).

(* ===================================================================== *)
(** * controllers/pdfController.js: status, download and preview          *)
(* ===================================================================== *)

(** A file in a JSON answer: its name ([originalName] for an input,
    [filename] for an output), its size and the two links. *)
Module FileLink.
Record t : Type := mk {
  name : string;
  size : Z;
  previewUrl : string;
  downloadUrl : string
}.
End FileLink.

Definition linkTo (name filename : string) (size : Z) : FileLink.t :=
  FileLink.mk name size ("/api/pdf/preview/" +:+ filename) ("/api/pdf/download/" +:+ filename).

Definition inputLink (file : InputFile.t) : FileLink.t :=
  linkTo (InputFile.originalName file) (InputFile.filename file) (InputFile.size file).

Definition outputLink (file : OutputFile.t) : FileLink.t :=
  linkTo (OutputFile.filename file) (OutputFile.filename file) (OutputFile.size file).

(** What these handlers send: the status object ([outputFiles], [error]
    and [processingTime] are keys that may be absent; [createdAt], which
    the [timestamps] option of the schema maintains, is outside the
    model), a download ([res.download]), a file shown inline
    ([res.sendFile]) with its [Content-Disposition], or the list of the
    output files. *)
Inductive Reply : Type :=
  | StatusReply (operationId operationType status : string)
                (inputFiles : list FileLink.t)
                (outputFiles : option (list FileLink.t))
                (error : option string)
                (processingTime : option string)
  | DownloadReply (filePath filename disposition : string)
  | InlineReply (filePath disposition : string)
  | FileListReply (message operationId : string) (outputFiles : list FileLink.t).

(** [`${operation.processing.duration}ms`] when the duration is truthy:
    set, and neither 0 nor [NaN]. *)
Definition processingTimeOf (p : Processing.t) : option string :=
  match Processing.duration p with
  | Some (Num d) => if d =? 0 then None else Some (intToString d +:+ "ms")
  | _ => None
  end.

Definition getOperationStatus (req : Req.t) : Eff Reply :=
  let operationId_ := Req.operationId req in
  found <- findByOperationId operationId_ ;;
  match found with
  | None => throw (newAppError "Operation not found" 404)
  | Some operation =>
      ret (StatusReply
             (operationId operation) (operationType operation) (status operation)
             (inputLink <$> inputFiles operation)
             (if String.eqb (status operation) "completed"
                 && (0 <? length (outputFiles operation))%nat
              then Some (outputLink <$> outputFiles operation)
              else None)
             (if String.eqb (status operation) "failed"
              then Processing.errorMessage (processing operation)
              else None)
             (processingTimeOf (processing operation)))
  end.

Definition attachment (filename : string) : string :=
  "attachment; filename=" +:+ quoted filename.

Definition inline (filename : string) : string :=
  "inline; filename=" +:+ quoted filename.

(** [downloadFile], for [req.params.filename]. An error of the transfer
    itself, which the callback of [res.download] would see, is outside the
    model. *)
Definition downloadFile (filename : string) : Eff Reply :=
  e <- getEnv ;;
  let filePath := path_join (processedDir e) filename in
  tryCatch
    (fs_access filePath ;;
     ret (DownloadReply filePath filename (attachment filename)))
    (fun _ => throw (newAppError "File not found" 404)).

(** [previewFile], for [req.params.filename]. *)
Definition previewFile (filename : string) : Eff Reply :=
  e <- getEnv ;;
  let filePath := path_join (processedDir e) filename in
  tryCatch
    (fs_access filePath ;;
     ret (InlineReply filePath (inline filename)))
    (fun _ => throw (newAppError "File not found for preview" 404)).

Definition downloadOperationResult (req : Req.t) : Eff Reply :=
  let operationId_ := Req.operationId req in
  found <- findByOperationId operationId_ ;;
  match found with
  | None => throw (newAppError "Operation not found" 404)
  | Some operation =>
      if negb (String.eqb (status operation) "completed") then
        throw (newAppError "Operation not completed yet" 400)
      else
        match outputFiles operation with
        | [] => throw (newAppError "No output files available" 404)
        | [outputFile] =>
            e <- getEnv ;;
            let filePath := path_join (processedDir e) (OutputFile.filename outputFile) in
            tryCatch
              (fs_access filePath ;;
               ret (DownloadReply filePath (OutputFile.filename outputFile)
                                  (attachment (OutputFile.filename outputFile))))
              (fun _ => throw (newAppError "Output file not found" 404))
        | outputFiles_ =>
            ret (FileListReply "Multiple files available for download" operationId_
                               (outputLink <$> outputFiles_))
        end
  end.

(** Reading [outputFile.filename] when [outputFiles[fileIdx]] is
    [undefined]: a [TypeError], which carries no status code. *)
Definition undefinedOutputFile : JsError :=
  newError "Cannot read properties of undefined (reading 'filename')".

(** [previewOperationResult]; [fileIndex] is [req.query.fileIndex], which
    defaults to 0. *)
Definition previewOperationResult (req : Req.t) (fileIndex : option jsval) : Eff Reply :=
  let operationId_ := Req.operationId req in
  let fileIndex := default (VNumber 0) fileIndex in
  found <- findByOperationId operationId_ ;;
  match found with
  | None => throw (newAppError "Operation not found" 404)
  | Some operation =>
      if negb (String.eqb (status operation) "completed") then
        throw (newAppError "Operation not completed yet" 400)
      else if (length (outputFiles operation) =? 0)%nat then
        throw (newAppError "No output files available" 404)
      else
        let fileIdx := parseIntOf fileIndex in
        let outOfRange :=
          match fileIdx with
          | Num i => i >=? Z.of_nat (length (outputFiles operation))
          | NaN => false
          end in
        if outOfRange then throw (newAppError "File index out of range" 400)
        else
          match (match fileIdx with
                 | Num i => itemAt (outputFiles operation) i
                 | NaN => None
                 end) with
          | None => throw undefinedOutputFile
          | Some outputFile =>
              e <- getEnv ;;
              let filePath := path_join (processedDir e) (OutputFile.filename outputFile) in
              tryCatch
                (fs_access filePath ;;
                 ret (InlineReply filePath (inline (OutputFile.filename outputFile))))
                (fun _ => throw (newAppError "Output file not found for preview" 404))
          end
  end.

(** The size [fs.stat] reports for the file at [p]. *)
Definition sizeAt (w : World) (p : string) : Z :=
  match files w !! p with
  | Some b => fileSize (env w) b
  | None => 0
  end.

(** The files the merge executor hands to the transformer. *)
Definition orderedFiles (inputFiles : list InputFile.t) (mergeOrder : list Z)
    : list InputFile.t :=
  if (0 <? length mergeOrder)%nat
  then omap (fun index => itemAt inputFiles index) mergeOrder
  else inputFiles.

(** The sum of the counts of all groups. *)
Definition totalCount (groups : gmap string nat) : nat :=
  map_fold (fun _ count total => (count + total)%nat) O groups.

(** A second document made with the identifier of the first operation,
    after the merge request. *)
Definition withSecondDocument : World :=
  fst (newPdfOperation firstId "split" None [] emptyMetadata
                       (ClientInfo.mk "203.0.113.9" "curl/8.5.0") afterMerge201).

(** A request for an operation by its identifier. *)
Definition operationRequest (operationId : string) : Req.t :=
  Req.mk None (Body.mk None None None None) operationId "203.0.113.9" "curl/8.5.0".

(** The world after a split request for a range past the end of the
    document, whose operation fails. *)
Definition afterFailedSplit : World := fst (splitPdf pastEndValidated sampleWorld).

(** The input descriptors the merge handler builds. *)
Definition mergeInputs (req : Req.t) (files : list MulterFile.t) : list InputFile.t :=
  imap (fun index file =>
          toInputFile (Some (orderFor (default [] (Body.mergeOrder (Req.body req))) index)) file)
       files.

(** The document the merge handler constructs. *)
Definition mergeRecord (req : Req.t) (files : list MulterFile.t) (operationId : string)
    : PdfOperation :=
  let mergeOrder := default [] (Body.mergeOrder (Req.body req)) in
  mkOperation operationId "merge" "pending" (withoutOrder <$> mergeInputs req files) []
              (Metadata.mk (if (0 <? length mergeOrder)%nat then mergeOrder
                            else imap (fun i _ => Z.of_nat i) (mergeInputs req files))
                           None)
              emptyProcessing (clientInfoOf req).

(** The document the split handler constructs. *)
Definition splitRecord (req : Req.t) (inputFile : MulterFile.t) (operationId : string)
    : PdfOperation :=
  mkOperation operationId "split" "pending" [toInputFile None inputFile] []
              (Metadata.mk []
                 (Some (SplitOptions.mk
                          (default "pages"%string (Body.splitType (Req.body req)))
                          (rangesAsArray (default (RangeArray []) (Body.pageRanges (Req.body req))))
                          (pagesPerFileOrOne
                             (default (VNumber 1) (Body.pagesPerFile (Req.body req)))))))
              emptyProcessing (clientInfoOf req).

(** The options the split handler hands to its executor. *)
Definition splitOptionsOf (req : Req.t) : Options.t :=
  Options.mk (Some (default "pages"%string (Body.splitType (Req.body req))))
             (Some (default (RangeArray []) (Body.pageRanges (Req.body req))))
             (Some (default (VNumber 1) (Body.pagesPerFile (Req.body req)))).

(** The world in which a handler starts its executor: an identifier was
    drawn, the document [op] was constructed and saved. *)
Definition created (op : PdfOperation) (w : World) : World :=
  persist (fresh_id w) op
    (set_fresh_id (S (fresh_id w))
       (set_documents (<[fresh_id w := op]> (documents w)) (set_drawn (S (drawn w)) w))).

(** The identifier the next call of [uuidv4] gives. *)
Definition nextId (w : World) : string := uuids (env w) (drawn w).

(** An identifier a new operation can take: not empty, without a path
    separator, and not the identifier of a persisted operation; and the
    identity of the next document is not in use. *)
Definition freshOperation (w : World) : Prop :=
  nextId w <> EmptyString /\
  includes "/" (nextId w) = false /\
  collection w !! fresh_id w = None /\
  forall k op, collection w !! k = Some op -> operationId op <> nextId w.

(** The three single-page uploads A, B, C, their documents, and a merge
    request for them without a merge order. *)
Definition threeUploads : list MulterFile.t := sampleUpload <$> ["A"; "B"; "C"]%string.

Definition threeDocuments : list PDFDocument := [["a1"]; ["b1"]; ["c1"]]%string.

Definition uploadOrderRequest : Req.t :=
  sampleRequest ["A"; "B"; "C"]%string (Body.mk None None None None).

(** The ranges of a request as the split handler stores them. *)
Definition requestedRanges (req : Req.t) : list string :=
  rangesAsArray (default (RangeArray []) (Body.pageRanges (Req.body req))).

(** A split request for the pages 2 to 5 and 1 of the six-page upload,
    with [pagesPerFile] sent as text. *)
Definition splitRequestByRange : Req.t :=
  sampleRequest ["six"%string]
    (Body.mk None (Some "range"%string) (Some (RangeArray ["2-5"; "1"]%string))
             (Some (VString "4"))).

Definition splitRequestByRangeValidated : Req.t :=
  sampleRequest ["six"%string]
    (Body.mk None (Some "range"%string) (Some (RangeArray ["2-5"; "1"]%string))
             (Some (VNumber 4))).

(* ===================================================================== *)
(** * middlewares/validation.js: the merge request                        *)
(* ===================================================================== *)

Definition numberOf (n : jsnum) : option Z :=
  match n with Num z => Some z | NaN => None end.

(** [isNaN(index) || index < 0 || index >= length] *)
Definition outsideUploads (length : nat) (index : jsnum) : bool :=
  match index with
  | NaN => true
  | Num z => (z <? 0) || (z >=? Z.of_nat length)
  end.

(** [validateMergeRequest], for a request whose [mergeOrder] is absent or
    is an array, as a form field sent more than once arrives: each entry
    is then read with [parseInt]. A [mergeOrder] that is one string goes
    through [JSON.parse], whose results are outside the model. *)
Definition validateMergeRequest (req : Req.t) (mergeOrder : option (list jsval)) : Middleware :=
  match Req.files req with
  | None => badRequest "At least 2 PDF files are required for merging" "INSUFFICIENT_FILES"
  | Some files =>
      if (length files <? 2)%nat then
        badRequest "At least 2 PDF files are required for merging" "INSUFFICIENT_FILES"
      else
        match mergeOrder with
        | None => NextWith req
        | Some items =>
            let parsedOrder := parseIntOf <$> items in
            match List.find (outsideUploads (length files)) parsedOrder with
            | Some index =>
                badRequest ("Invalid index " +:+ quoted (numberToString index) +:+
                            " in mergeOrder. Must be between 0 and " +:+
                            intToString (Z.of_nat (length files) - 1))
                           "INVALID_MERGE_ORDER_INDEX"
            | None =>
                let indices := omap numberOf parsedOrder in
                if negb (length (remove_dups indices) =? length parsedOrder)%nat then
                  badRequest "Duplicate indices found in merge order" "DUPLICATE_INDICES"
                else
                  NextWith (Req.mk (Req.files req)
                                   (Body.mk (Some indices)
                                            (Body.splitType (Req.body req))
                                            (Body.pageRanges (Req.body req))
                                            (Body.pagesPerFile (Req.body req)))
                                   (Req.operationId req) (Req.ip req) (Req.userAgent req))
            end
        end
  end.

(* ===================================================================== *)
(** * utils/fileCleanup.js: the files of one operation                    *)
(* ===================================================================== *)

(** What follows [prefix] in [s], when [s] starts with it. *)
Fixpoint stripPrefix (prefix s : string) : option string :=
  match prefix with
  | EmptyString => Some s
  | String c prefix' =>
      match s with
      | EmptyString => None
      | String d s' => if Ascii.eqb c d then stripPrefix prefix' s' else None
      end
  end.

(** [s.includes(needle)] *)
Fixpoint includesString (needle s : string) : bool :=
  match stripPrefix needle s with
  | Some _ => true
  | None =>
      match s with
      | EmptyString => false
      | String _ s' => includesString needle s'
      end
  end.

(** The name of the entry of [directory] that the path [p] is, if it is
    one. *)
Definition entryOf (directory p : string) : option string :=
  match stripPrefix (directory +:+ "/") p with
  | Some name =>
      if String.eqb name EmptyString || includes "/" name then None else Some name
  | None => None
  end.

(** Whether [directory] exists: it is one of the directories of the
    environment, or a file lies below it. (The transformers create the
    output directory before they write into it; it counts as existing
    from the first file on, which is all that the functions that list it
    can tell.) *)
Definition directoryExists (w : World) (directory : string) : bool :=
  inEnum directory (directories (env w))
  || existsb (fun kv => match stripPrefix (directory +:+ "/") (fst kv) with
                        | Some _ => true
                        | None => false
                        end)
             (map_to_list (files w)).

(** [fs.readdir(directory)], for a directory that holds files only; a
    directory that does not exist is an error. *)
Definition fs_readdir (directory : string) : Eff (list string) :=
  fun w =>
    if directoryExists w directory then
      (w, Return (omap (fun kv => entryOf directory (fst kv)) (map_to_list (files w))))
    else
      (w, Throw (mkError SystemError
                   ("ENOENT: no such file or directory, scandir '" +:+ directory +:+ "'")
                   None)).

(** [fs.unlink(path)] *)
Definition fs_unlink (p : string) : Eff unit :=
  fun w => match files w !! p with
           | Some _ => (set_files (delete p (files w)) w, Return tt)
           | None => (w, Throw (mkError SystemError
                          ("ENOENT: no such file or directory, unlink '" +:+ p +:+ "'") None))
           end.

(** One round of the inner loop of [cleanupOperationFiles]. *)
Definition cleanupFile (operationId directory file : string) : Eff unit :=
  if includesString operationId file then
    tryCatch (fs_unlink (path_join directory file)) (fun _ => ret tt)
  else ret tt.

(** [cleanupOperationFiles(operationId)]; [uploadsDir] is
    [path.join(__dirname, '..', 'uploads')]. *)
Definition cleanupOperationFiles (uploadsDir operationId : string) : Eff unit :=
  tryCatch
    (e <- getEnv ;;
     let directories := [uploadsDir; processedDir e] in
     forEach (fun directory =>
                files_ <- fs_readdir directory ;;
                forEach (cleanupFile operationId directory) files_)
             directories ;;
     ret tt)
    (fun _ => ret tt).

(** A merge order sent as a repeated form field. *)
Definition orderAsFields : list jsval := [VString "2"; VString "0"; VString "1"].

(** The world after the split by size and a later merge request. *)
Definition afterSplitAndMerge : World := fst (mergePdfs mergeRequest201 afterSplitBySize).

(** A split request for the six-page upload that names no strategy. *)
Definition splitRequestByPages : Req.t :=
  sampleRequest ["six"%string] (Body.mk None None None None).

(* ===================================================================== *)
(** * utils/fileCleanup.js: the files that are too old                    *)
(* ===================================================================== *)

(** One round of the inner loop of [cleanupFiles]; [mtime] is the
    modification time in milliseconds that [fs.stat] reports for a path. *)
Definition cleanupOldFile (mtime : string -> Z) (now maxAge : Z) (directory file : string)
    : Eff unit :=
  let filePath := path_join directory file in
  tryCatch
    (size <- fs_stat filePath ;;
     if now - mtime filePath >? maxAge then fs_unlink filePath else ret tt)
    (fun _ => ret tt).

(** [cleanupFiles()]; [tempFileLifetime] is [config.tempFileLifetime], in
    hours, and [uploadsDir] and [tempDir] are the directories [uploads]
    and [temp] beside the output directory. The two counters of the
    function feed its log messages only and are left out. *)
Definition cleanupFiles (mtime : string -> Z) (tempFileLifetime : Z)
    (uploadsDir tempDir : string) : Eff unit :=
  let maxAge := tempFileLifetime * 60 * 60 * 1000 in
  now <- Date_now ;;
  e <- getEnv ;;
  let directories := [uploadsDir; processedDir e; tempDir] in
  tryCatch
    (forEach (fun directory =>
                tryCatch
                  (files_ <- fs_readdir directory ;;
                   forEach (cleanupOldFile mtime now maxAge directory) files_ ;;
                   ret tt)
                  (fun _ => ret tt))
             directories ;;
     ret tt)
    (fun _ => ret tt).

(** Modification times for the sample: the first part of the split by
    size is three hours old, everything else is new. *)
Definition sampleTimes (p : string) : Z :=
  if String.eqb p (path_join (processedDir sampleEnv) (partFileName firstId 0 1700000000001))
  then 1700000000000 - 3 * 60 * 60 * 1000
  else 1700000000000.

(** The age test of [cleanupFiles]: [now - stats.mtime.getTime() > maxAge]. *)
Definition tooOld (mtime : string -> Z) (now maxAge : Z) (p : string) : bool :=
  now - mtime p >? maxAge.

(* ===================================================================== *)
(** * Samples at the edges                                                *)
(* ===================================================================== *)

(** The sample world with one more upload, a PDF without pages. *)
Definition withEmptyDocument : World :=
  set_files (<[MulterFile.path (sampleUpload "empty") := PdfBytes []]> (files sampleWorld))
            sampleWorld.

(** A split request for the upload without pages. *)
Definition splitRequestEmpty : Req.t :=
  sampleRequest ["empty"%string] (Body.mk None None None None).

(** A split by size whose [pagesPerFile] is not a number. *)
Definition splitRequestUnreadable : Req.t :=
  sampleRequest ["ten"%string]
    (Body.mk None (Some "size"%string) None (Some (VString "many"))).



(* ===================================================================== *)
(** * Strings and numbers                                                 *)
(* ===================================================================== *)

Lemma isDigit_cases (c : ascii) :
  isDigit c = true ->
  c = "0"%char \/ c = "1"%char \/ c = "2"%char \/ c = "3"%char \/ c = "4"%char \/
  c = "5"%char \/ c = "6"%char \/ c = "7"%char \/ c = "8"%char \/ c = "9"%char.
Proof.
  destruct c as [[] [] [] [] [] [] [] []]; vm_compute; intros H;
    try discriminate H; tauto.
Qed.

(** Case analysis on a character known to be a digit. *)
Ltac digit_cases c H :=
  destruct (isDigit_cases c H) as [->|[->|[->|[->|[->|[->|[->|[->|[->| ->]]]]]]]]].

Section Strings.

Lemma app_cons (c : ascii) (a b : string) : String c a +:+ b = String c (a +:+ b).
Proof. reflexivity. Qed.

Lemma app_nil (b : string) : EmptyString +:+ b = b.
Proof. reflexivity. Qed.

Lemma append_assoc (a b c : string) : (a +:+ b) +:+ c = a +:+ (b +:+ c).
Proof.
  induction a as [|x a IH]; [reflexivity |].
  rewrite !app_cons. f_equal. exact IH.
Qed.

Lemma includes_app (c : ascii) (a b : string) :
  includes c (a +:+ b) = includes c a || includes c b.
Proof.
  induction a as [|x a IH]; [reflexivity |].
  rewrite app_cons. simpl. rewrite IH. now rewrite orb_assoc.
Qed.

Lemma includes_cons_false (c x : ascii) (s : string) :
  includes c (String x s) = false -> x <> c /\ includes c s = false.
Proof.
  simpl. intros H. apply orb_false_iff in H as [H1 H2].
  split; [| exact H2]. intros ->. now rewrite Ascii.eqb_refl in H1.
Qed.

Lemma includes_after_sep (c : ascii) (a b : string) :
  includes c (a +:+ String c b) = true.
Proof. rewrite includes_app. simpl. rewrite Ascii.eqb_refl. apply orb_true_r. Qed.

(** Two strings cut at the last occurrence of [c] agree piece by piece. *)
Lemma cut_at_last (c : ascii) (a b x y : string) :
  includes c x = false -> includes c y = false ->
  a +:+ String c x = b +:+ String c y -> a = b /\ x = y.
Proof.
  intros Hx Hy. revert b.
  induction a as [|a0 a IH]; intros [|b0 b] E; rewrite ?app_cons, ?app_nil in E.
  - injection E as ->. now split.
  - injection E as <- ->. now rewrite includes_after_sep in Hx.
  - injection E as -> <-. now rewrite includes_after_sep in Hy.
  - injection E as -> E. destruct (IH _ E) as [-> ->]. now split.
Qed.

Lemma app_inv_head_string (a x y : string) : a +:+ x = a +:+ y -> x = y.
Proof.
  induction a as [|c a IH]; rewrite ?app_cons, ?app_nil; intros E;
    [exact E | injection E; auto].
Qed.

Lemma isDigit_not_space (c : ascii) : isDigit c = true -> isWhiteSpace c = false.
Proof. intros H. digit_cases c H; reflexivity. Qed.

Lemma isDigit_not_char (c d : ascii) :
  isDigit c = true -> isDigit d = false -> Ascii.eqb c d = false.
Proof.
  intros Hc Hd. destruct (Ascii.eqb c d) eqn:E; [| reflexivity].
  apply Ascii.eqb_eq in E. subst. congruence.
Qed.

Lemma allDigits_includes (c : ascii) (s : string) :
  isDigit c = false -> allDigits s = true -> includes c s = false.
Proof.
  intros Hc. induction s as [|x s IH]; simpl; [reflexivity |].
  intros H. apply andb_true_iff in H as [Hx Hs].
  rewrite (isDigit_not_char x c Hx Hc). simpl. auto.
Qed.

Lemma trimStart_digits (s : string) : allDigits s = true -> trimStart s = s.
Proof.
  destruct s as [|c s]; simpl; [reflexivity |].
  intros H. apply andb_true_iff in H as [Hc _].
  now rewrite (isDigit_not_space c Hc).
Qed.

Lemma trimEnd_digits (s : string) : allDigits s = true -> trimEnd s = s.
Proof.
  induction s as [|c s IH]; simpl; [reflexivity |].
  intros H. apply andb_true_iff in H as [Hc Hs].
  rewrite (IH Hs). destruct s; [| reflexivity].
  now rewrite (isDigit_not_space c Hc).
Qed.

Lemma trimEnd_app (a b : string) :
  b <> EmptyString -> trimEnd b = b -> trimEnd (a +:+ b) = a +:+ b.
Proof.
  intros Hne Hb. induction a as [|c a IH]; [exact Hb |].
  rewrite app_cons. simpl. rewrite IH. destruct (a +:+ b) eqn:E; [| reflexivity].
  destruct a; rewrite ?app_cons, ?app_nil in E; [contradiction | discriminate].
Qed.

Lemma split_no_sep (c : ascii) (s : string) :
  includes c s = false -> split c s = [s].
Proof.
  induction s as [|x s IH]; simpl; [reflexivity |].
  intros H. apply orb_false_iff in H as [Hx Hs].
  rewrite Hx, (IH Hs). reflexivity.
Qed.

Lemma split_at_sep (c : ascii) (a b : string) :
  includes c a = false -> split c (a +:+ String c b) = a :: split c b.
Proof.
  induction a as [|x a IH].
  - intros _. rewrite app_nil. simpl. now rewrite Ascii.eqb_refl.
  - intros H. simpl in H. apply orb_false_iff in H as [Hx Ha].
    rewrite app_cons. simpl. rewrite Hx, (IH Ha). reflexivity.
Qed.

End Strings.

(** Case analysis on a decimal digit value. *)
Ltac value_cases d H :=
  let C := fresh "C" in
  assert (d = 0 \/ d = 1 \/ d = 2 \/ d = 3 \/ d = 4 \/ d = 5 \/ d = 6 \/ d = 7 \/
          d = 8 \/ d = 9) as C by lia;
  destruct C as [->|[->|[->|[->|[->|[->|[->|[->|[->| ->]]]]]]]]].

Section Decimal.

Lemma radixDigit_digitChar (d : Z) :
  0 <= d < 10 -> radixDigit 10 (digitChar d) = Some d.
Proof. intros H. value_cases d H; reflexivity. Qed.

Lemma isDigit_digitChar (d : Z) : 0 <= d < 10 -> isDigit (digitChar d) = true.
Proof. intros H. value_cases d H; reflexivity. Qed.

Lemma decimalDigits_allDigits (fuel : nat) (n : Z) (acc : string) :
  0 <= n -> allDigits acc = true -> allDigits (decimalDigits fuel n acc) = true.
Proof.
  revert n acc. induction fuel as [|f IH]; intros n acc Hn Hacc; simpl; [exact Hacc |].
  assert (allDigits (String (digitChar (n mod 10)) acc) = true) as H.
  { simpl. rewrite isDigit_digitChar, Hacc; [reflexivity |].
    apply Z.mod_pos_bound. lia. }
  destruct (n / 10 =? 0); [exact H |].
  apply IH; [| exact H]. apply Z.div_pos; lia.
Qed.

Lemma decimalDigits_nonempty (fuel : nat) (n : Z) (acc : string) :
  acc <> EmptyString -> decimalDigits fuel n acc <> EmptyString.
Proof.
  revert n acc. induction fuel as [|f IH]; intros n acc H; simpl; [exact H |].
  destruct (n / 10 =? 0); [discriminate |]. apply IH. discriminate.
Qed.

Lemma decimalDigits_S (f : nat) (n : Z) (acc : string) :
  decimalDigits (S f) n acc =
  if n / 10 =? 0 then String (digitChar (n mod 10)) acc
  else decimalDigits f (n / 10) (String (digitChar (n mod 10)) acc).
Proof. reflexivity. Qed.

Lemma parseDigits_digitChar (n : Z) (rest : string) (hi : Z) :
  0 <= n -> 0 <= hi -> hi = n / 10 ->
  parseDigits 10 (String (digitChar (n mod 10)) rest) (Some hi)
  = parseDigits 10 rest (Some n).
Proof.
  intros Hn Hhi ->. cbn [parseDigits].
  rewrite radixDigit_digitChar by (apply Z.mod_pos_bound; lia).
  simpl default. f_equal. f_equal. pose proof (Z.div_mod n 10). lia.
Qed.

(** Reading back the digits that were written. *)
Lemma parseDigits_decimalDigits (f : nat) (n : Z) (rest : string) :
  0 <= n < 2 ^ Z.of_nat (S f) ->
  parseDigits 10 (decimalDigits (S f) n rest) None = parseDigits 10 rest (Some n).
Proof.
  revert n rest. induction f as [|f IH]; intros n rest Hn; rewrite decimalDigits_S.
  - assert (n / 10 = 0) as E by (apply Z.div_small; simpl in Hn; lia).
    rewrite E. simpl Z.eqb. cbv iota.
    cbn [parseDigits]. rewrite radixDigit_digitChar by (apply Z.mod_pos_bound; lia).
    simpl default. f_equal. f_equal. rewrite Z.mod_small; simpl in Hn; lia.
  - destruct (n / 10 =? 0) eqn:E.
    + apply Z.eqb_eq in E.
      cbn [parseDigits]. rewrite radixDigit_digitChar by (apply Z.mod_pos_bound; lia).
      simpl default. f_equal. f_equal.
      pose proof (Z.div_mod n 10). lia.
    + apply Z.eqb_neq in E.
      rewrite IH.
      * apply parseDigits_digitChar; [lia | apply Z.div_pos; lia | reflexivity].
      * split; [apply Z.div_pos; lia |].
        apply Z.div_lt_upper_bound; [lia |].
        rewrite Nat2Z.inj_succ in Hn.
        rewrite Z.pow_succ_r in Hn by lia. lia.
Qed.

Lemma natToString_fuel (n : Z) : 0 <= n -> n < 2 ^ Z.of_nat (S (Z.to_nat (Z.log2 n))).
Proof.
  intros Hn. rewrite Nat2Z.inj_succ, Z2Nat.id by apply Z.log2_nonneg.
  destruct (Z.eq_dec n 0) as [-> | Hz]; [reflexivity |].
  apply Z.log2_spec. lia.
Qed.

Lemma natToString_digits (n : Z) : 0 <= n -> allDigits (natToString n) = true.
Proof. intros H. now apply decimalDigits_allDigits. Qed.

Lemma natToString_nonempty (n : Z) : natToString n <> EmptyString.
Proof.
  unfold natToString. cbn [decimalDigits].
  destruct (n / 10 =? 0); [discriminate |].
  apply decimalDigits_nonempty. discriminate.
Qed.

Lemma parseDigits_natToString (n : Z) (rest : string) :
  0 <= n ->
  parseDigits 10 (decimalDigits (S (Z.to_nat (Z.log2 n))) n rest) None
  = parseDigits 10 rest (Some n).
Proof.
  intros Hn. apply parseDigits_decimalDigits. split; [exact Hn |].
  now apply natToString_fuel.
Qed.

End Decimal.

Section ParseInt.

Lemma readRadix_digits (s : string) : allDigits s = true -> readRadix s = (10, s).
Proof.
  destruct s as [|c s]; [reflexivity |].
  simpl. intros H. apply andb_true_iff in H as [Hc Hs].
  digit_cases c Hc; try reflexivity.
  destruct s as [|d s]; [reflexivity |].
  simpl in Hs. apply andb_true_iff in Hs as [Hd _].
  digit_cases d Hd; reflexivity.
Qed.

Lemma readSign_digits (s : string) : allDigits s = true -> readSign s = (1, s).
Proof.
  destruct s as [|c s]; [reflexivity |].
  simpl. intros H. apply andb_true_iff in H as [Hc Hs].
  digit_cases c Hc; reflexivity.
Qed.

Lemma parseInt_natToString (n : Z) : 0 <= n -> parseInt (natToString n) = Num n.
Proof.
  intros Hn. unfold parseInt.
  rewrite trimStart_digits by now apply natToString_digits.
  rewrite readSign_digits by now apply natToString_digits.
  cbn [fst snd].
  rewrite readRadix_digits by now apply natToString_digits.
  cbn [fst snd]. unfold natToString.
  rewrite parseDigits_natToString by exact Hn.
  cbn [parseDigits]. f_equal. lia.
Qed.

Lemma parseInt_intToString (z : Z) : parseInt (intToString z) = Num z.
Proof.
  unfold intToString. destruct (z <? 0) eqn:E.
  - apply Z.ltb_lt in E. unfold parseInt.
    cbn [trimStart]. change (isWhiteSpace "-") with false. cbv iota.
    change (readSign (String "-" (natToString (- z)))) with (-1, natToString (- z)).
    cbn [fst snd].
    rewrite readRadix_digits by (apply natToString_digits; lia).
    cbn [fst snd]. unfold natToString.
    rewrite parseDigits_natToString by lia.
    cbn [parseDigits]. f_equal. lia.
  - apply Z.ltb_ge in E. now apply parseInt_natToString.
Qed.

Lemma intToString_inj (a b : Z) : intToString a = intToString b -> a = b.
Proof.
  intros E. pose proof (parseInt_intToString a) as Ha.
  rewrite E, parseInt_intToString in Ha. congruence.
Qed.

Lemma intToString_nonneg (z : Z) : 0 <= z -> intToString z = natToString z.
Proof. intros H. unfold intToString. destruct (z <? 0) eqn:E; [lia | reflexivity]. Qed.

Lemma intToString_digits (z : Z) : 0 <= z -> allDigits (intToString z) = true.
Proof. intros H. rewrite intToString_nonneg by exact H. now apply natToString_digits. Qed.

Lemma intToString_nonempty (z : Z) : intToString z <> EmptyString.
Proof.
  unfold intToString. destruct (z <? 0); [discriminate | apply natToString_nonempty].
Qed.

Lemma intToString_no_underscore (z : Z) : includes "_" (intToString z) = false.
Proof.
  unfold intToString. destruct (z <? 0) eqn:E.
  - apply Z.ltb_lt in E. simpl.
    apply allDigits_includes; [reflexivity | apply natToString_digits; lia].
  - apply Z.ltb_ge in E.
    apply allDigits_includes; [reflexivity | now apply natToString_digits].
Qed.

Lemma intToString_no_dash (z : Z) : 0 <= z -> includes "-" (intToString z) = false.
Proof.
  intros H. apply allDigits_includes; [reflexivity | now apply intToString_digits].
Qed.

Lemma intToString_no_dot (z : Z) : includes "." (intToString z) = false.
Proof.
  unfold intToString. destruct (z <? 0) eqn:E.
  - apply Z.ltb_lt in E. simpl.
    apply allDigits_includes; [reflexivity | apply natToString_digits; lia].
  - apply Z.ltb_ge in E.
    apply allDigits_includes; [reflexivity | now apply natToString_digits].
Qed.

Lemma trim_digits (s : string) : allDigits s = true -> trim s = s.
Proof.
  intros H. unfold trim. rewrite trimStart_digits by exact H. now apply trimEnd_digits.
Qed.

End ParseInt.

Section Ranges.

Lemma gtb_false (a b : Z) : a <= b -> (a >? b) = false.
Proof. intros H. rewrite Z.gtb_ltb. apply Z.ltb_ge. lia. Qed.

Lemma ltb_false (a b : Z) : b <= a -> (a <? b) = false.
Proof. intros H. apply Z.ltb_ge. lia. Qed.

Lemma parsePageRange_single (n total : Z) :
  1 <= n <= total -> parsePageRange (intToString n) total = Return (n, n).
Proof.
  intros H. unfold parsePageRange.
  rewrite trim_digits by (apply intToString_digits; lia).
  rewrite intToString_no_dash by lia.
  rewrite parseInt_intToString.
  rewrite (ltb_false n 1) by lia.
  rewrite (gtb_false n total) by lia.
  reflexivity.
Qed.

Lemma trim_span (s e : Z) :
  0 <= s -> 0 <= e ->
  trim (intToString s +:+ "-" +:+ intToString e) = intToString s +:+ "-" +:+ intToString e.
Proof.
  intros Hs He. unfold trim.
  assert (trimStart (intToString s +:+ "-" +:+ intToString e)
          = intToString s +:+ "-" +:+ intToString e) as ->.
  { pose proof (intToString_digits s Hs) as D.
    pose proof (intToString_nonempty s) as N.
    destruct (intToString s) as [|c r]; [contradiction |].
    rewrite app_cons. simpl in D. apply andb_true_iff in D as [Dc _].
    simpl. now rewrite (isDigit_not_space c Dc). }
  apply trimEnd_app.
  - discriminate.
  - change ("-" +:+ intToString e) with (String "-" (intToString e)).
    pose proof (trimEnd_digits _ (intToString_digits e He)) as T.
    pose proof (intToString_nonempty e) as N.
    simpl. rewrite T. destruct (intToString e); [contradiction | reflexivity].
Qed.

Lemma split_span (s e : Z) :
  0 <= s -> 0 <= e ->
  split "-" (intToString s +:+ "-" +:+ intToString e) = [intToString s; intToString e].
Proof.
  intros Hs He.
  change ("-" +:+ intToString e) with (String "-" (intToString e)).
  rewrite split_at_sep by now apply intToString_no_dash.
  rewrite split_no_sep by now apply intToString_no_dash.
  reflexivity.
Qed.

Lemma parsePageRange_span (s e total : Z) :
  1 <= s -> s <= e -> e <= total ->
  parsePageRange (intToString s +:+ "-" +:+ intToString e) total = Return (s, e).
Proof.
  intros H1 H2 H3. unfold parsePageRange.
  rewrite trim_span by lia.
  change ("-" +:+ intToString e) with (String "-" (intToString e)).
  rewrite includes_after_sep.
  change (String "-" (intToString e)) with ("-" +:+ intToString e).
  rewrite split_span by lia.
  cbn [fmap list_fmap lookup list_lookup].
  rewrite !trim_digits by (apply intToString_digits; lia).
  rewrite !parseInt_intToString.
  rewrite (ltb_false s 1) by lia.
  rewrite (gtb_false e total) by lia.
  rewrite (gtb_false s e) by lia.
  reflexivity.
Qed.

Lemma parsePageRange_render (r : RangeToken) (total : Z) :
  validRange total r ->
  parsePageRange (renderRange r) total = Return (rangeStart r, rangeEnd r).
Proof.
  destruct r as [n | s e]; unfold validRange; simpl; intros (H1 & H2 & H3).
  - apply parsePageRange_single. lia.
  - now apply parsePageRange_span.
Qed.


End Ranges.

(* ===================================================================== *)
(** * Output file names                                                   *)
(* ===================================================================== *)

Section FileNames.

Lemma outputFileName_shape (operationId : string) (suffix : Suffix) (now : Z) :
  outputFileName operationId suffix now
  = nameHead operationId suffix +:+ String "_" (intToString now +:+ ".pdf").
Proof.
  destruct suffix; unfold outputFileName, nameHead, mergedFileName, pageFileName,
    rangeFileName, partFileName;
    repeat (rewrite append_assoc || rewrite app_cons); reflexivity.
Qed.

Lemma stamp_no_underscore (now : Z) : includes "_" (intToString now +:+ ".pdf") = false.
Proof. rewrite includes_app, intToString_no_underscore. reflexivity. Qed.

Lemma stamp_inj (a b : Z) : intToString a +:+ ".pdf" = intToString b +:+ ".pdf" -> a = b.
Proof.
  intros E. apply intToString_inj.
  apply (cut_at_last "." _ _ "pdf" "pdf"); [reflexivity | reflexivity | exact E].
Qed.

Lemma outputFileName_cut (op1 op2 : string) (s1 s2 : Suffix) (t1 t2 : Z) :
  outputFileName op1 s1 t1 = outputFileName op2 s2 t2 ->
  nameHead op1 s1 = nameHead op2 s2 /\ t1 = t2.
Proof.
  rewrite !outputFileName_shape. intros E.
  apply cut_at_last in E as [E1 E2]; try apply stamp_no_underscore.
  split; [exact E1 | now apply stamp_inj].
Qed.

Lemma label_no_underscore (s e : Z) :
  includes "_" (intToString s +:+ String "-" (intToString e)) = false.
Proof.
  rewrite includes_app. simpl. now rewrite !intToString_no_underscore.
Qed.

(** The head of a name gives the operation identifier back. *)
Lemma nameHead_operation (op1 op2 : string) (s1 s2 : Suffix) :
  nameHead op1 s1 = nameHead op2 s2 -> op1 = op2.
Proof.
  intros E.
  destruct s1 as [|i1|a1 b1|i1], s2 as [|i2|a2 b2|i2]; unfold nameHead in E;
    try (rewrite ?append_assoc in E; discriminate E);
    try (now apply app_inv_head_string in E);
    apply cut_at_last in E as [E _];
    try apply intToString_no_underscore; try apply label_no_underscore;
    apply cut_at_last in E as [E K]; try reflexivity;
    try discriminate K;
    now apply app_inv_head_string in E.
Qed.

Lemma pageFileName_index (op : string) (i j t u : Z) :
  pageFileName op i t = pageFileName op j u -> i = j.
Proof.
  intros E. apply (outputFileName_cut op op (PageOutput i) (PageOutput j)) in E as [E _].
  unfold nameHead in E.
  apply cut_at_last in E as [_ E]; try apply intToString_no_underscore.
  apply intToString_inj in E. lia.
Qed.



Lemma path_join_inj (dir a b : string) : path_join dir a = path_join dir b -> a = b.
Proof.
  unfold path_join. intros E. apply app_inv_head_string in E.
  now apply app_inv_head_string in E.
Qed.

End FileNames.

(* ===================================================================== *)
(** * Running effects                                                     *)
(* ===================================================================== *)

Section Effects.

Context {A B : Type}.

Lemma bind_return (c : Eff A) (k : A -> Eff B) (w w' : World) (a : A) :
  c w = (w', Return a) -> bind c k w = k a w'.
Proof. intros E. unfold bind. now rewrite E. Qed.

Lemma bind_throw (c : Eff A) (k : A -> Eff B) (w w' : World) (e : JsError) :
  c w = (w', Throw e) -> bind c k w = (w', Throw e).
Proof. intros E. unfold bind. now rewrite E. Qed.

Lemma tryCatch_return (c : Eff A) (h : JsError -> Eff A) (w w' : World) (a : A) :
  c w = (w', Return a) -> tryCatch c h w = (w', Return a).
Proof. intros E. unfold tryCatch. now rewrite E. Qed.

Lemma tryCatch_throw (c : Eff A) (h : JsError -> Eff A) (w w' : World) (e : JsError) :
  c w = (w', Throw e) -> tryCatch c h w = h e w'.
Proof. intros E. unfold tryCatch. now rewrite E. Qed.

End Effects.

Section Loops.

Lemma afterWrites_again (fs fs' : gmap string FileBytes) (t t' : nat) (w : World) :
  afterWrites fs' t' (afterWrites fs t w) = afterWrites fs' t' w.
Proof. reflexivity. Qed.

Lemma PDFDocument_save_pages (doc : PDFDocument) :
  doc <> [] -> PDFDocument_save doc = PdfBytes doc.
Proof. destruct doc; [contradiction | reflexivity]. Qed.

Lemma writePart_save (newPdf : PDFDocument) (fileName : Z -> string) (w : World) :
  writePart newPdf fileName w =
  (afterWrites (<[path_join (processedDir (env w)) (fileName (clock (env w) (ticks w)))
                  := PDFDocument_save newPdf]> (files w)) (S (ticks w)) w,
   Return (path_join (processedDir (env w)) (fileName (clock (env w) (ticks w))))).
Proof. reflexivity. Qed.

Lemma writePart_run (newPdf : PDFDocument) (fileName : Z -> string) (w : World) :
  newPdf <> [] ->
  writePart newPdf fileName w =
  (afterWrites (<[path_join (processedDir (env w)) (fileName (clock (env w) (ticks w)))
                  := PdfBytes newPdf]> (files w)) (S (ticks w)) w,
   Return (path_join (processedDir (env w)) (fileName (clock (env w) (ticks w))))).
Proof. destruct newPdf; [contradiction | reflexivity]. Qed.

(** A loop whose rounds each write one file and read the clock once. *)
Lemma forEach_plan {A} (f : A -> Eff string) (step : Env -> A -> nat -> string * FileBytes)
    (l : list A) :
  (forall x w, x ∈ l ->
     f x w = (afterWrites (<[fst (step (env w) x (ticks w)) := snd (step (env w) x (ticks w))]>
                             (files w)) (S (ticks w)) w,
              Return (fst (step (env w) x (ticks w))))) ->
  forall w,
    forEach f l w =
    (afterWrites (runWrites (plan (step (env w)) l (ticks w)) (files w))
                 (ticks w + length l)%nat w,
     Return (fst <$> plan (step (env w)) l (ticks w))).
Proof.
  induction l as [|x l IH]; intros H w.
  - cbn. unfold ret, afterWrites. rewrite Nat.add_0_r.
    destruct w; reflexivity.
  - cbn [forEach]. rewrite (bind_return _ _ _ _ _ (H x w ltac:(left))).
    rewrite (bind_return _ _ _ _ _ (IH (fun y w' Hy => H y w' ltac:(now right)) _)).
    unfold ret. cbn [plan fmap list_fmap runWrites foldl length].
    rewrite afterWrites_again. f_equal.
    change (ticks (afterWrites ?a ?b ?c)) with b.
    change (files (afterWrites ?a ?b ?c)) with a.
    change (env (afterWrites ?a ?b ?c)) with (env c).
    f_equal. lia.
Qed.


Lemma plan_lookup {A} (step : A -> nat -> string * FileBytes) (l : list A) (t j : nat) :
  plan step l t !! j = (fun x => step x (t + j)%nat) <$> l !! j.
Proof.
  revert t j. induction l as [|x l IH]; intros t j; [reflexivity |].
  destruct j as [|j]; cbn.
  - now rewrite Nat.add_0_r.
  - rewrite IH. now rewrite Nat.add_succ_r.
Qed.

Lemma plan_length {A} (step : A -> nat -> string * FileBytes) (l : list A) (t : nat) :
  length (plan step l t) = length l.
Proof. revert t. induction l as [|x l IH]; intros t; cbn; [reflexivity | now rewrite IH]. Qed.

Lemma plan_app {A} (step : A -> nat -> string * FileBytes) (l1 l2 : list A) (t : nat) :
  plan step (l1 ++ l2) t = plan step l1 t ++ plan step l2 (t + length l1)%nat.
Proof.
  revert t. induction l1 as [|x l1 IH]; intros t; cbn.
  - now rewrite Nat.add_0_r.
  - rewrite IH. now rewrite Nat.add_succ_r.
Qed.

Lemma runWrites_snoc (ws : list (string * FileBytes)) (p : string) (c : FileBytes)
    (fs : gmap string FileBytes) :
  runWrites (ws ++ [(p, c)]) fs = <[p := c]> (runWrites ws fs).
Proof. unfold runWrites. now rewrite foldl_app. Qed.

(** Reading a file back after a sequence of writes: the content written
    for the path, when every write to that path wrote the same content. *)
Lemma runWrites_lookup (ws : list (string * FileBytes)) (fs : gmap string FileBytes)
    (i : nat) (p : string) (c : FileBytes) :
  ws !! i = Some (p, c) ->
  (forall j c', ws !! j = Some (p, c') -> c' = c) ->
  runWrites ws fs !! p = Some c.
Proof.
  revert i. induction ws as [|[q d] ws IH] using rev_ind; intros i Hi Hsame.
  - discriminate.
  - rewrite runWrites_snoc.
    destruct (decide (q = p)) as [-> | Hne].
    + rewrite lookup_insert_eq. f_equal.
      apply (Hsame (length ws)). now rewrite list_lookup_middle.
    + rewrite lookup_insert_ne by exact Hne.
      assert (i < length ws)%nat as Hlt.
      { pose proof (lookup_lt_Some _ _ _ Hi) as Hl. rewrite length_app in Hl. cbn in Hl.
        destruct (decide (i = length ws)) as [-> | ?]; [| lia].
        rewrite list_lookup_middle in Hi by reflexivity. congruence. }
      rewrite lookup_app_l in Hi by exact Hlt.
      apply (IH i Hi). intros j c' Hj. apply (Hsame j).
      rewrite lookup_app_l; [exact Hj |]. now apply lookup_lt_Some in Hj.
Qed.

(** A path no write touches keeps its content. *)
Lemma runWrites_other (ws : list (string * FileBytes)) (fs : gmap string FileBytes)
    (p : string) :
  (forall j q c, ws !! j = Some (q, c) -> q <> p) ->
  runWrites ws fs !! p = fs !! p.
Proof.
  induction ws as [|[q d] ws IH] using rev_ind; intros H; [reflexivity |].
  rewrite runWrites_snoc. rewrite lookup_insert_ne.
  - apply IH. intros j q' c Hj. apply (H j q' c).
    rewrite lookup_app_l; [exact Hj |]. now apply lookup_lt_Some in Hj.
  - apply (H (length ws) q d). now rewrite list_lookup_middle.
Qed.

Lemma countFrom_lookup (a : Z) (n j : nat) :
  (j < n)%nat -> countFrom a n !! j = Some (a + Z.of_nat j).
Proof.
  revert a j. induction n as [|n IH]; intros a j H; [lia |].
  destruct j as [|j]; cbn.
  - f_equal. lia.
  - rewrite IH by lia. f_equal. lia.
Qed.

Lemma countFrom_length (a : Z) (n : nat) : length (countFrom a n) = n.
Proof. revert a. induction n as [|n IH]; intros a; cbn; [reflexivity | now rewrite IH]. Qed.

Lemma elem_of_countFrom (a x : Z) (n : nat) :
  x ∈ countFrom a n -> a <= x < a + Z.of_nat n.
Proof.
  revert a. induction n as [|n IH]; intros a H; cbn in H.
  - now apply elem_of_nil in H.
  - apply elem_of_cons in H as [-> | H]; [lia |]. apply IH in H. lia.
Qed.

End Loops.

Section Pages.

Lemma mapM_getPage (pdf : PDFDocument) (n : nat) (a : Z) :
  0 <= a -> (Z.to_nat a + n <= length pdf)%nat ->
  mapM (getPage pdf) (countFrom a n) = Some (take n (drop (Z.to_nat a) pdf)).
Proof.
  revert a. induction n as [|n IH]; intros a Ha Hlen; [reflexivity |].
  destruct (lookup_lt_is_Some_2 pdf (Z.to_nat a) ltac:(lia)) as [x Hx].
  assert (getPage pdf a = Some x) as Hg.
  { unfold getPage. now rewrite (ltb_false a 0) by lia. }
  cbn [countFrom mapM]. rewrite Hg. cbn [mbind option_bind].
  rewrite IH by lia. cbn [mbind option_bind mret option_ret].
  rewrite (drop_S _ _ _ Hx). cbn [take]. repeat f_equal.
  rewrite Z2Nat.inj_add by lia. simpl. lia.
Qed.

Lemma copyPages_range (pdf : PDFDocument) (a b : Z) (w : World) :
  0 <= a -> a <= b -> b <= Z.of_nat (length pdf) ->
  copyPages pdf (loopRange a b) w = (w, Return (pagesBetween pdf a b)).
Proof.
  intros Ha Hab Hb. unfold copyPages, loopRange, pagesBetween.
  rewrite mapM_getPage by lia. reflexivity.
Qed.

Lemma copyPages_one (pdf : PDFDocument) (i : Z) (w : World) :
  0 <= i < Z.of_nat (length pdf) ->
  copyPages pdf [i] w = (w, Return (pagesBetween pdf i (i + 1))).
Proof.
  intros H. unfold copyPages, pagesBetween.
  change [i] with (countFrom i 1).
  rewrite mapM_getPage by lia.
  replace (Z.to_nat (i + 1 - i)) with 1%nat by lia. reflexivity.
Qed.

Lemma pagesBetween_all (pdf : PDFDocument) :
  pagesBetween pdf 0 (Z.of_nat (length pdf)) = pdf.
Proof.
  unfold pagesBetween. rewrite Z.sub_0_r, Nat2Z.id. cbn [Z.to_nat drop].
  apply firstn_all.
Qed.

Lemma pagesBetween_length (pdf : PDFDocument) (a b : Z) :
  0 <= a -> a <= b -> b <= Z.of_nat (length pdf) ->
  Z.of_nat (length (pagesBetween pdf a b)) = b - a.
Proof.
  intros Ha Hab Hb. unfold pagesBetween.
  rewrite length_take, length_drop. lia.
Qed.

Lemma pagesBetween_nonempty (pdf : PDFDocument) (a b : Z) :
  0 <= a -> a < b -> b <= Z.of_nat (length pdf) -> pagesBetween pdf a b <> [].
Proof.
  intros Ha Hab Hb E.
  pose proof (pagesBetween_length pdf a b Ha ltac:(lia) Hb) as L.
  rewrite E in L. cbn in L. lia.
Qed.

Lemma pagesBetween_one (pdf : PDFDocument) (i : nat) (x : PDFPage) :
  pdf !! i = Some x -> pagesBetween pdf (Z.of_nat i) (Z.of_nat i + 1) = [x].
Proof.
  intros H. unfold pagesBetween.
  replace (Z.to_nat (Z.of_nat i + 1 - Z.of_nat i)) with 1%nat by lia.
  rewrite Nat2Z.id, (drop_S _ _ _ H). reflexivity.
Qed.

End Pages.

(* ===================================================================== *)
(** * Runs of the transformer                                             *)
(* ===================================================================== *)

Section Split.

Variables (w : World) (inputPath operationId : string) (pdf : PDFDocument).
Hypothesis input_is_pdf : files w !! inputPath = Some (PdfBytes pdf).

Lemma read_input : fs_readFile inputPath w = (w, Return (PdfBytes pdf)).
Proof. unfold fs_readFile. now rewrite input_is_pdf. Qed.

Lemma splitPage_run (i : Z) (w' : World) :
  0 <= i < Z.of_nat (length pdf) ->
  splitPage pdf operationId i w' =
  (afterWrites (<[fst (pageStep (env w') pdf operationId i (ticks w'))
                  := snd (pageStep (env w') pdf operationId i (ticks w'))]> (files w'))
               (S (ticks w')) w',
   Return (fst (pageStep (env w') pdf operationId i (ticks w')))).
Proof.
  intros H. unfold splitPage.
  rewrite (bind_return _ _ _ _ _ (copyPages_one pdf i w' H)).
  now rewrite writePart_run by (apply pagesBetween_nonempty; lia).
Qed.

Lemma split_pages_run :
  splitPdfFile inputPath operationId pagesOptions w =
  (afterWrites
     (runWrites (plan (pageStep (env w) pdf operationId) (countFrom 0 (length pdf)) (ticks w))
                (files w))
     (ticks w + length pdf)%nat w,
   Return (fst <$> plan (pageStep (env w) pdf operationId) (countFrom 0 (length pdf))
                        (ticks w))).
Proof.
  unfold splitPdfFile. apply tryCatch_return.
  rewrite (bind_return _ _ _ _ _ read_input).
  cbn [PDFDocument_load]. rewrite (bind_return _ _ w w pdf) by reflexivity.
  cbn [pagesOptions Options.splitType default from_option id].
  change (String.eqb "pages" "pages") with true. cbv iota.
  unfold loopRange. rewrite Z.sub_0_r, Nat2Z.id.
  rewrite (forEach_plan _ (fun e i t => pageStep e pdf operationId i t)).
  - now rewrite countFrom_length.
  - intros i w' Hi. apply elem_of_countFrom in Hi. apply splitPage_run. lia.
Qed.






Lemma ceilDiv_spec (a b : Z) : 0 < b -> (ceilDiv a b - 1) * b < a <= ceilDiv a b * b.
Proof.
  intros Hb. unfold ceilDiv.
  pose proof (Z.div_mod (- a) b ltac:(lia)) as E.
  pose proof (Z.mod_pos_bound (- a) b Hb) as M. nia.
Qed.



End Split.

Section Merge.

Lemma sort_sorted {A} (cmp : A -> A -> Z) (l : list A) :
  (forall (i j : nat) x y, l !! i = Some x -> l !! j = Some y -> (i < j)%nat -> cmp x y <= 0) ->
  sort cmp l = l.
Proof.
  induction l as [|x l IH]; intros H; [reflexivity |].
  unfold sort in *. cbn [foldr]. rewrite IH.
  - destruct l as [|y l]; [reflexivity |]. cbn [sortInsert].
    pose proof (H 0%nat 1%nat x y eq_refl eq_refl ltac:(lia)) as C.
    destruct (cmp x y <=? 0) eqn:E; [reflexivity |].
    apply Z.leb_gt in E. lia.
  - intros i j a b Ha Hb Hij. apply (H (S i) (S j)); [exact Ha | exact Hb | lia].
Qed.

Lemma mergeOne_run (w : World) (mergedPdf d : PDFDocument) (file : InputFile.t) :
  files w !! InputFile.path file = Some (PdfBytes d) ->
  mergeOne mergedPdf file w = (w, Return (mergedPdf ++ d)).
Proof.
  intros H. unfold mergeOne.
  rewrite (bind_return _ _ w w (PdfBytes d)) by (unfold fs_readFile; now rewrite H).
  cbn [PDFDocument_load]. rewrite (bind_return _ _ w w d) by reflexivity.
  rewrite (bind_return _ _ _ _ _
             (copyPages_range d 0 (Z.of_nat (length d)) w ltac:(lia) ltac:(lia) ltac:(lia))).
  now rewrite pagesBetween_all.
Qed.

Lemma foldEff_merge (w : World) (l : list InputFile.t) (docs : list PDFDocument)
    (mergedPdf : PDFDocument) :
  Forall2 (fun f d => files w !! InputFile.path f = Some (PdfBytes d)) l docs ->
  foldEff mergeOne l mergedPdf w = (w, Return (mergedPdf ++ concat docs)).
Proof.
  intros H. revert mergedPdf. induction H as [|f d l docs Hf _ IH]; intros mergedPdf.
  - cbn. unfold ret. now rewrite app_nil_r.
  - cbn [foldEff concat]. rewrite (bind_return _ _ _ _ _ (mergeOne_run w mergedPdf d f Hf)).
    rewrite IH. now rewrite <- app_assoc.
Qed.

(** A merge of files that all load writes their pages, in sorted order,
    under the merged name. *)
Lemma merge_run (w : World) (inputs : list InputFile.t) (operationId : string)
    (docs : list PDFDocument) :
  Forall2 (fun f d => files w !! InputFile.path f = Some (PdfBytes d))
          (sort (fun a b => orderOrZero a - orderOrZero b) inputs) docs ->
  mergePdfFiles inputs operationId w =
  (afterWrites (<[path_join (processedDir (env w))
                            (mergedFileName operationId (clock (env w) (ticks w)))
                  := PDFDocument_save (concat docs)]> (files w)) (S (ticks w)) w,
   Return (path_join (processedDir (env w))
                     (mergedFileName operationId (clock (env w) (ticks w))))).
Proof.
  intros H. unfold mergePdfFiles. apply tryCatch_return.
  rewrite (bind_return _ _ _ _ _ (foldEff_merge w _ docs [] H)).
  reflexivity.
Qed.

Lemma defaultInputs_sorted (parts : list MulterFile.t) :
  sort (fun a b => orderOrZero a - orderOrZero b) (defaultInputs parts) = defaultInputs parts.
Proof.
  apply sort_sorted. intros i j x y Hx Hy Hij.
  unfold defaultInputs in Hx, Hy. rewrite list_lookup_imap in Hx, Hy.
  destruct (parts !! i) as [a|]; [| discriminate].
  destruct (parts !! j) as [b|]; [| discriminate].
  cbn in Hx, Hy. injection Hx as <-. injection Hy as <-.
  unfold orderOrZero, toInputFile, orderFor. cbn. rewrite !lookup_nil. lia.
Qed.


(** With no merge order, the pages of the inputs follow each other in
    upload order. *)
Lemma merge_in_upload_order (w : World) (parts : list MulterFile.t) (operationId : string)
    (docs : list PDFDocument) :
  Forall2 (fun f d => files w !! MulterFile.path f = Some (PdfBytes d)) parts docs ->
  exists out,
    snd (mergePdfFiles (defaultInputs parts) operationId w) = Return out /\
    files (fst (mergePdfFiles (defaultInputs parts) operationId w)) !! out
    = Some (PDFDocument_save (concat docs)).
Proof.
  intros H.
  assert (Forall2 (fun f d => files w !! InputFile.path f = Some (PdfBytes d))
                  (sort (fun a b => orderOrZero a - orderOrZero b) (defaultInputs parts))
                  docs) as Hall.
  { rewrite defaultInputs_sorted. apply Forall2_same_length_lookup_2.
    - unfold defaultInputs. rewrite length_imap. now apply Forall2_length in H.
    - intros i f d Hf Hd. unfold defaultInputs in Hf. rewrite list_lookup_imap in Hf.
      destruct (parts !! i) as [part|] eqn:Hp; [| discriminate].
      cbn in Hf. injection Hf as <-.
      exact (Forall2_lookup_lr _ _ _ _ _ _ H Hp Hd). }
  rewrite (merge_run w _ operationId docs Hall). cbn [fst snd].
  eexists. split; [reflexivity |].
  change (files (afterWrites ?a ?b ?c)) with a. apply lookup_insert_eq.
Qed.

End Merge.

(* ===================================================================== *)
(** * Page selection and transformation                                   *)
(* ===================================================================== *)


Lemma countFrom_lookup_inv (a x : Z) (n j : nat) :
  countFrom a n !! j = Some x -> x = a + Z.of_nat j /\ (j < n)%nat.
Proof.
  intros H. pose proof (lookup_lt_Some _ _ _ H) as L. rewrite countFrom_length in L.
  rewrite countFrom_lookup in H by exact L. split; [congruence | exact L].
Qed.








(* ===================================================================== *)
(** * Invalid page ranges                                                 *)
(* ===================================================================== *)

Section Rejection.

Lemma someDigits_allDigits (s : string) : someDigits s = true -> allDigits s = true.
Proof. unfold someDigits. intros H. now apply andb_true_iff in H as [_ H]. Qed.

Lemma someDigits_intToString (z : Z) : 0 <= z -> someDigits (intToString z) = true.
Proof.
  intros H. unfold someDigits. rewrite intToString_digits by exact H.
  pose proof (intToString_nonempty z) as N.
  destruct (intToString z); [contradiction | reflexivity].
Qed.

Lemma split_nonempty (c : ascii) (s : string) : split c s <> [].
Proof.
  induction s as [|x s IH]; cbn; [discriminate |].
  destruct (Ascii.eqb x c); [discriminate |].
  destruct (split c s); [contradiction | discriminate].
Qed.

Lemma joinWith_split (c : ascii) (s : string) : joinWith c (split c s) = s.
Proof.
  induction s as [|x s IH]; [reflexivity |].
  cbn [split]. pose proof (split_nonempty c s) as N.
  destruct (Ascii.eqb x c) eqn:E.
  - apply Ascii.eqb_eq in E. subst x.
    destruct (split c s) as [|h t]; [contradiction |].
    change (joinWith c (EmptyString :: h :: t)) with (String c (joinWith c (h :: t))).
    now rewrite IH.
  - destruct (split c s) as [|h t]; [contradiction |].
    destruct t as [|h' t].
    + cbn [joinWith] in *. now rewrite IH.
    + change (joinWith c (String x h :: h' :: t)) with (String x (joinWith c (h :: h' :: t))).
      now rewrite IH.
Qed.

Lemma someDigits_nonempty (s : string) : someDigits s = true -> s <> EmptyString.
Proof. unfold someDigits. intros H ->. discriminate. Qed.

(** What the pattern accepts is a numeric token. *)
Lemma pattern_numeric (s : string) : matchesRangePattern s = true -> numericToken s.
Proof.
  unfold matchesRangePattern. intros M. pose proof (joinWith_split "-" s) as J.
  destruct (split "-" s) as [|a [|b [|c l]]]; try discriminate.
  - cbn [joinWith] in J. subst a. left.
    split; [now apply someDigits_allDigits | now apply someDigits_nonempty].
  - apply andb_true_iff in M as [Ma Mb]. cbn [joinWith] in J. right. exists a, b.
    repeat split; try (now apply someDigits_allDigits); try (now apply someDigits_nonempty).
    now rewrite <- J.
Qed.


Lemma checkRange_backwards (s e : Z) :
  0 <= e -> e <= s -> checkRange (renderRange (PageSpan s e)) <> None.
Proof.
  intros He Hs. unfold checkRange, renderRange.
  assert (matchesRangePattern (intToString s +:+ "-" +:+ intToString e) = true) as ->.
  { unfold matchesRangePattern. rewrite split_span by lia.
    now rewrite !someDigits_intToString by lia. }
  cbn [negb].
  change ("-" +:+ intToString e) with (String "-" (intToString e)).
  rewrite includes_after_sep.
  change (String "-" (intToString e)) with ("-" +:+ intToString e).
  rewrite split_span by lia. cbn [fmap list_fmap lookup list_lookup].
  rewrite !parseInt_intToString.
  replace (s >=? e) with true by (symmetry; apply Z.geb_le; lia).
  discriminate.
Qed.


Lemma checkRange_answer (t : string) (a : Middleware) :
  checkRange t = Some a -> exists message error, a = badRequest message error.
Proof.
  unfold checkRange. destruct (negb (matchesRangePattern t)).
  - intros [= <-]. eauto.
  - destruct (includes "-" t); [| discriminate].
    destruct (_ !! 0%nat) as [[|x]|]; try discriminate.
    destruct (_ !! 1%nat) as [[|y]|]; try discriminate.
    destruct (x >=? y); [| discriminate].
    intros [= <-]. eauto.
Qed.

Lemma checkRanges_answer (l : list string) (a : Middleware) :
  checkRanges l = Some a -> exists message error, a = badRequest message error.
Proof.
  induction l as [|x l IH]; cbn [checkRanges]; [discriminate |].
  destruct (checkRange x) eqn:E.
  - intros [= <-]. now apply (checkRange_answer x).
  - exact IH.
Qed.




End Rejection.


(* ===================================================================== *)
(** * Operation records                                                   *)
(* ===================================================================== *)

Section Validation.

Lemma inEnum_not_empty (enum : list string) (s : string) :
  inEnum EmptyString enum = false -> inEnum s enum = true ->
  String.eqb s EmptyString = false.
Proof.
  intros H1 H2. destruct (String.eqb s EmptyString) eqn:E; [| reflexivity].
  apply String.eqb_eq in E. subst. congruence.
Qed.

Lemma validate_None (op : PdfOperation) :
  validate op = None <-> fieldsOk op = true /\ inEnum (status op) statusEnum = true.
Proof.
  unfold validate, fieldsOk.
  destruct (String.eqb (operationId op) EmptyString); cbn [negb andb].
  { split; [discriminate | intros [? _]; discriminate]. }
  destruct (inEnum (operationType op) operationTypeEnum) eqn:Et; cbn [negb andb].
  2: { destruct (String.eqb (operationType op) EmptyString);
       (split; [discriminate | intros [? _]; discriminate]). }
  rewrite (inEnum_not_empty operationTypeEnum _ eq_refl Et).
  destruct (inEnum (status op) statusEnum) eqn:Es; cbn [negb].
  2: { destruct (String.eqb (status op) EmptyString);
       (split; [discriminate | intros [_ ?]; discriminate]). }
  rewrite (inEnum_not_empty statusEnum _ eq_refl Es).
  destruct (Metadata.splitOptions (metadata op)) as [so|].
  - destruct (inEnum (SplitOptions.splitType so) splitTypeEnum); cbn [negb andb].
    + destruct (Processing.duration (processing op)) as [[|d]|];
        (split; [try discriminate; auto | intros [? _]; try discriminate; auto]).
    + split; [discriminate | intros [? _]; discriminate].
  - destruct (Processing.duration (processing op)) as [[|d]|];
      (split; [try discriminate; auto | intros [? _]; try discriminate; auto]).
Qed.

Lemma storable_fieldsOk (op : PdfOperation) : storable op <-> fieldsOk op = true.
Proof.
  split.
  - intros H. specialize (H "pending" eq_refl). now apply validate_None in H as [H _].
  - intros H s Hs. apply validate_None. split; [exact H | exact Hs].
Qed.

Lemma validate_storable (op : PdfOperation) : validate op = None -> storable op.
Proof. intros H. apply storable_fieldsOk. now apply validate_None in H as [H _]. Qed.

Lemma storable_processingAt (now : Z) (op : PdfOperation) :
  storable op -> validate (processingAt now op) = None.
Proof. intros H. apply validate_None. apply storable_fieldsOk in H. now split. Qed.

Lemma storable_failedAt (now : Z) (m : string) (op : PdfOperation) :
  storable op -> validate (failedAt now m op) = None.
Proof. intros H. apply validate_None. apply storable_fieldsOk in H. now split. Qed.

Lemma storable_completedAt (now : Z) (outs : list OutputFile.t) (op : PdfOperation) :
  storable op -> Processing.startTime (processing op) <> None ->
  validate (completedAt now outs op) = None.
Proof.
  intros H Hs. apply validate_None. apply storable_fieldsOk in H. split; [| reflexivity].
  unfold fieldsOk in *. apply andb_true_iff in H as [H _].
  apply andb_true_iff. split; [exact H |]. cbn.
  destruct (Processing.startTime (processing op)); [reflexivity | contradiction].
Qed.

End Validation.

Section Transitions.

Variables (w : World) (this : nat) (op : PdfOperation).
Hypothesis in_memory : documents w !! this = Some op.
Hypothesis persisted : is_Some (collection w !! this).

Lemma assign_run (f : PdfOperation -> PdfOperation) (w' : World) (op' : PdfOperation) :
  documents w' !! this = Some op' ->
  assign this f w' = (set_documents (<[this := f op']> (documents w')) w', Return tt).
Proof. intros H. unfold assign. now rewrite H. Qed.

Lemma save_run (w' : World) (op' : PdfOperation) :
  documents w' !! this = Some op' -> is_Some (collection w' !! this) ->
  validate op' = None ->
  save this w' = (persist this op' w', Return tt).
Proof. intros H [c Hc] Hv. unfold save. now rewrite H, Hv, Hc. Qed.

(** A transition: the assignments [f] (a status, then fields computed
    from one clock reading), then [save]. *)
Lemma transition_run (s : string) (f : Z -> PdfOperation -> PdfOperation) :
  validate (f (clock (env w) (ticks w)) (set_status s op)) = None ->
  (assign this (set_status s) ;;
   now <- Date_now ;;
   assign this (f now) ;;
   save this) w
  = (transitioned this (f (clock (env w) (ticks w)) (set_status s op)) w, Return tt).
Proof.
  intros Hv.
  rewrite (bind_return _ _ _ _ _ (assign_run _ w op in_memory)).
  rewrite (bind_return _ _ _ (set_ticks (S (ticks w))
             (set_documents (<[this := set_status s op]> (documents w)) w))
             (clock (env w) (ticks w))) by reflexivity.
  erewrite (bind_return _ _ _ _ _ (assign_run _ _ _ _)).
  - erewrite save_run; [| | exact persisted | exact Hv].
    + unfold transitioned, persist, set_documents, set_ticks. cbn.
      now rewrite insert_insert_eq.
    + cbn. now rewrite lookup_insert_eq.
  Unshelve. cbn. apply lookup_insert_eq.
Qed.

Lemma markAsProcessing_run :
  storable op ->
  markAsProcessing this w
  = (transitioned this (processingAt (clock (env w) (ticks w)) op) w, Return tt).
Proof.
  intros H. unfold markAsProcessing.
  apply (transition_run "processing" set_startTime).
  now apply storable_processingAt.
Qed.

Lemma markAsFailed_run (errorMessage : string) :
  storable op ->
  markAsFailed this errorMessage w
  = (transitioned this (failedAt (clock (env w) (ticks w)) errorMessage op) w, Return tt).
Proof.
  intros H. unfold markAsFailed.
  pose proof (transition_run "failed"
                (fun now o => set_errorMessage errorMessage (set_endTime now o))
                (storable_failedAt _ errorMessage op H)) as T.
  unfold failedAt. rewrite <- T. clear T.
  unfold bind. destruct (assign this (set_status "failed") w) as [w1 [[]|e]]; [| reflexivity].
  destruct (Date_now w1) as [w2 [now|e]]; [| reflexivity].
  unfold assign. destruct (documents w2 !! this) as [o|]; [| reflexivity].
  cbn. rewrite lookup_insert_eq. cbn. now rewrite insert_insert_eq.
Qed.

Lemma markAsCompleted_run (outputFiles_ : list OutputFile.t) :
  storable op -> Processing.startTime (processing op) <> None ->
  markAsCompleted this outputFiles_ w
  = (transitioned this (completedAt (clock (env w) (ticks w)) outputFiles_ op) w, Return tt).
Proof.
  intros H Hs. unfold markAsCompleted.
  pose proof (transition_run "completed"
                (fun now o => set_outputFiles outputFiles_ (set_duration (set_endTime now o)))
                (storable_completedAt _ outputFiles_ op H Hs)) as T.
  unfold completedAt. rewrite <- T. clear T.
  unfold bind. destruct (assign this (set_status "completed") w) as [w1 [[]|e]]; [| reflexivity].
  destruct (Date_now w1) as [w2 [now|e]]; [| reflexivity].
  unfold assign. destruct (documents w2 !! this) as [o|]; [| reflexivity].
  cbn. repeat (rewrite lookup_insert_eq; cbn).
  unfold set_documents. cbn. now rewrite !insert_insert_eq.
Qed.

End Transitions.

Section Frame.

Lemma sameRecords_refl (w : World) : sameRecords w w.
Proof. now repeat split. Qed.

Lemma sameRecords_trans (w1 w2 w3 : World) :
  sameRecords w1 w2 -> sameRecords w2 w3 -> sameRecords w1 w3.
Proof.
  intros (A1 & A2 & A3 & A4 & A5 & A6) (B1 & B2 & B3 & B4 & B5 & B6).
  repeat split; congruence.
Qed.

Context {A B : Type}.

Lemma keeps_ret (a : A) : keepsRecords (ret a).
Proof. intros w. apply sameRecords_refl. Qed.

Lemma keeps_throw (e : JsError) : keepsRecords (@throw A e).
Proof. intros w. apply sameRecords_refl. Qed.

Lemma keeps_lift (o : Outcome A) : keepsRecords (lift o).
Proof. intros w. apply sameRecords_refl. Qed.

Lemma keeps_bind (c : Eff A) (k : A -> Eff B) :
  keepsRecords c -> (forall a, keepsRecords (k a)) -> keepsRecords (bind c k).
Proof.
  intros Hc Hk w. unfold bind. specialize (Hc w).
  destruct (c w) as [w1 [a|e]]; cbn in *; [| exact Hc].
  eapply sameRecords_trans; [exact Hc | apply Hk].
Qed.

Lemma keeps_tryCatch (c : Eff A) (h : JsError -> Eff A) :
  keepsRecords c -> (forall e, keepsRecords (h e)) -> keepsRecords (tryCatch c h).
Proof.
  intros Hc Hh w. unfold tryCatch. specialize (Hc w).
  destruct (c w) as [w1 [a|e]]; cbn in *; [exact Hc |].
  eapply sameRecords_trans; [exact Hc | apply Hh].
Qed.

End Frame.

Lemma keeps_forEach {A B} (f : A -> Eff B) (l : list A) :
  (forall x, keepsRecords (f x)) -> keepsRecords (forEach f l).
Proof.
  intros Hf. induction l as [|x l IH]; cbn [forEach]; [apply keeps_ret |].
  apply keeps_bind; [apply Hf |]. intros y.
  apply keeps_bind; [exact IH |]. intros ys. intros w. apply sameRecords_refl.
Qed.

Lemma keeps_foldEff {A B} (f : B -> A -> Eff B) (l : list A) (b : B) :
  (forall b x, keepsRecords (f b x)) -> keepsRecords (foldEff f l b).
Proof.
  intros Hf. revert b. induction l as [|x l IH]; intros b; cbn [foldEff].
  - intros w. apply sameRecords_refl.
  - apply keeps_bind; [apply Hf | exact IH].
Qed.

Section FramePrimitives.

Lemma keeps_fs_readFile (p : string) : keepsRecords (fs_readFile p).
Proof. intros w. unfold fs_readFile. destruct (files w !! p); apply sameRecords_refl. Qed.

Lemma keeps_fs_stat (p : string) : keepsRecords (fs_stat p).
Proof. intros w. unfold fs_stat. destruct (files w !! p); apply sameRecords_refl. Qed.

Lemma keeps_fs_writeFile (p : string) (b : FileBytes) : keepsRecords (fs_writeFile p b).
Proof. intros w. now repeat split. Qed.

Lemma keeps_Date_now : keepsRecords Date_now.
Proof. intros w. now repeat split. Qed.

Lemma keeps_getEnv : keepsRecords getEnv.
Proof. intros w. apply sameRecords_refl. Qed.

Lemma keeps_getDocument (this : nat) : keepsRecords (getDocument this).
Proof. intros w. unfold getDocument. destruct (documents w !! this); apply sameRecords_refl. Qed.

Lemma keeps_PDFDocument_load (b : FileBytes) : keepsRecords (PDFDocument_load b).
Proof. destruct b; [apply keeps_ret | apply keeps_throw]. Qed.

Lemma keeps_copyPages (src : PDFDocument) (indices : list Z) :
  keepsRecords (copyPages src indices).
Proof. unfold copyPages. destruct (mapM _ _); [apply keeps_ret | apply keeps_throw]. Qed.

Lemma keeps_writePart (newPdf : PDFDocument) (fileName : Z -> string) :
  keepsRecords (writePart newPdf fileName).
Proof. intros w. now repeat split. Qed.

Create HintDb keeps discriminated.

#[local] Hint Resolve keeps_ret keeps_throw keeps_lift keeps_fs_readFile keeps_fs_stat
  keeps_fs_writeFile keeps_Date_now keeps_getEnv keeps_getDocument keeps_PDFDocument_load
  keeps_copyPages keeps_writePart : keeps.

(** Going through binds, handlers and loops down to the primitives. *)
Ltac keeps_step :=
  first [ apply keeps_bind; [| intros ?]
        | apply keeps_tryCatch; [| intros ?]
        | apply keeps_forEach; intros ?
        | apply keeps_foldEff; intros ? ? ].

Ltac keeps := repeat first [ solve [auto with keeps] | keeps_step ].

Lemma keeps_mergeOne (mergedPdf : PDFDocument) (file : InputFile.t) :
  keepsRecords (mergeOne mergedPdf file).
Proof. unfold mergeOne. keeps. Qed.

Lemma keeps_splitPage (pdf : PDFDocument) (operationId : string) (i : Z) :
  keepsRecords (splitPage pdf operationId i).
Proof. unfold splitPage. keeps. Qed.

Lemma keeps_splitRange (pdf : PDFDocument) (operationId : string) (totalPages : Z)
    (range : string) :
  keepsRecords (splitRange pdf operationId totalPages range).
Proof. unfold splitRange. keeps. Qed.

Lemma keeps_splitChunk (pdf : PDFDocument) (operationId : string) (totalPages k i : Z) :
  keepsRecords (splitChunk pdf operationId totalPages k i).
Proof. unfold splitChunk. keeps. Qed.

#[local] Hint Resolve keeps_mergeOne keeps_splitPage keeps_splitRange keeps_splitChunk : keeps.

Lemma keeps_mergePdfFiles (inputFiles : list InputFile.t) (operationId : string) :
  keepsRecords (mergePdfFiles inputFiles operationId).
Proof. unfold mergePdfFiles. keeps. Qed.

Lemma keeps_splitPdfFile (inputPath operationId : string) (options : Options.t) :
  keepsRecords (splitPdfFile inputPath operationId options).
Proof.
  unfold splitPdfFile. keeps.
  destruct (String.eqb _ "pages"); [keeps |].
  destruct (String.eqb _ "range"); [destruct (length _ =? 0)%nat; keeps |].
  destruct (String.eqb _ "size"); [| keeps].
  destruct (maxWithOne _); keeps.
Qed.

#[local] Hint Resolve keeps_mergePdfFiles keeps_splitPdfFile : keeps.

Lemma keeps_mergeWork (operation : nat) (orderedFiles : list InputFile.t) :
  keepsRecords (mergeWork operation orderedFiles).
Proof. unfold mergeWork. keeps. Qed.

Lemma keeps_splitWork (operation : nat) (inputFile : MulterFile.t) (options : Options.t) :
  keepsRecords (splitWork operation inputFile options).
Proof. unfold splitWork. keeps. Qed.

End FramePrimitives.

Section Executors.

Lemma processMergeOperation_executor (operation : nat) (inputFiles : list InputFile.t)
    (mergeOrder : list Z) (w : World) :
  processMergeOperation operation inputFiles mergeOrder w
  = executor operation
      (mergeWork operation
         (if (0 <? length mergeOrder)%nat
          then omap (fun index => itemAt inputFiles index) mergeOrder
          else inputFiles)) w.
Proof.
  unfold processMergeOperation, executor, mergeWork, tryCatch, bind.
  destruct (markAsProcessing operation w) as [w1 [[]|e]]; [| reflexivity].
  destruct (getDocument operation w1) as [w2 [op|e]]; [| reflexivity].
  destruct (mergePdfFiles _ _ w2) as [w3 [p|e]]; [| reflexivity].
  destruct (fs_stat p w3) as [w4 [size|e]]; reflexivity.
Qed.

Lemma processSplitOperation_executor (operation : nat) (inputFile : MulterFile.t)
    (options : Options.t) (w : World) :
  processSplitOperation operation inputFile options w
  = executor operation (splitWork operation inputFile options) w.
Proof.
  unfold processSplitOperation, executor, splitWork, tryCatch, bind.
  destruct (markAsProcessing operation w) as [w1 [[]|e]]; [| reflexivity].
  destruct (getDocument operation w1) as [w2 [op|e]]; [| reflexivity].
  destruct (splitPdfFile _ _ _ w2) as [w3 [paths|e]]; [| reflexivity].
  destruct (forEach _ paths w3) as [w4 [outs|e]]; reflexivity.
Qed.

(** A run of an executor on a stored document: two writes, the first to
    [processing], the second to [completed] with what the work returned,
    or to [failed] with the output files untouched. *)
Lemma executor_run (this : nat) (work : Eff (list OutputFile.t)) (w : World)
    (op : PdfOperation) :
  keepsRecords work ->
  documents w !! this = Some op ->
  is_Some (collection w !! this) ->
  storable op ->
  exists w' s1 s2,
    executor this work w = (w', Return tt) /\
    oplog w' = oplog w ++ [s1; s2] /\
    collection w' !! this = Some s2 /\
    status s1 = "processing" /\ outputFiles s1 = outputFiles op /\
    ((status s2 = "completed" /\
      exists w1 w2, files w1 = files w /\ work w1 = (w2, Return (outputFiles s2))) \/
     (status s2 = "failed" /\ outputFiles s2 = outputFiles op)).
Proof.
  intros Hwork Hdoc Hcoll Hst. unfold executor.
  set (op1 := processingAt (clock (env w) (ticks w)) op).
  set (w1 := transitioned this op1 w).
  assert (documents w1 !! this = Some op1) as Hdoc1 by (cbn; apply lookup_insert_eq).
  assert (is_Some (collection w1 !! this)) as Hcoll1
    by (exists op1; cbn; apply lookup_insert_eq).
  assert (storable op1) as Hst1 by (apply storable_fieldsOk; now apply storable_fieldsOk in Hst).
  destruct (work w1) as [w2 r] eqn:Ework.
  pose proof (Hwork w1) as Hsame. rewrite Ework in Hsame. cbn in Hsame.
  destruct Hsame as (_ & _ & _ & Hd & Hc & Ho).
  assert (documents w2 !! this = Some op1) as Hdoc2 by (now rewrite Hd).
  assert (is_Some (collection w2 !! this)) as Hcoll2 by (now rewrite Hc).
  destruct r as [outs | e].
  - set (op2 := completedAt (clock (env w2) (ticks w2)) outs op1).
    exists (transitioned this op2 w2), op1, op2. split; [| split; [| split; [| split; [| split]]]].
    + apply tryCatch_return.
      rewrite (bind_return _ _ _ _ _ (markAsProcessing_run w this op Hdoc Hcoll Hst)).
      fold op1 w1. rewrite (bind_return _ _ _ _ _ Ework).
      apply (markAsCompleted_run w2 this op1 Hdoc2 Hcoll2 outs Hst1). discriminate.
    + cbn. rewrite Ho. cbn. now rewrite <- app_assoc.
    + cbn. apply lookup_insert_eq.
    + reflexivity.
    + reflexivity.
    + left. split; [reflexivity |]. exists w1, w2. split; [reflexivity | exact Ework].
  - set (op2 := failedAt (clock (env w2) (ticks w2)) (message e) op1).
    exists (transitioned this op2 w2), op1, op2. split; [| split; [| split; [| split; [| split]]]].
    + erewrite tryCatch_throw.
      * apply (markAsFailed_run w2 this op1 Hdoc2 Hcoll2 (message e) Hst1).
      * rewrite (bind_return _ _ _ _ _ (markAsProcessing_run w this op Hdoc Hcoll Hst)).
        fold op1 w1. now rewrite (bind_throw _ _ _ _ _ Ework).
    + cbn. rewrite Ho. cbn. now rewrite <- app_assoc.
    + cbn. apply lookup_insert_eq.
    + reflexivity.
    + reflexivity.
    + right. split; reflexivity.
Qed.

Lemma mergeWork_one_output (operation : nat) (orderedFiles : list InputFile.t)
    (w w' : World) (outs : list OutputFile.t) :
  mergeWork operation orderedFiles w = (w', Return outs) -> exists x, outs = [x].
Proof.
  unfold mergeWork, bind.
  destruct (getDocument operation w) as [w1 [op|e]]; [| discriminate].
  destruct (mergePdfFiles _ _ w1) as [w2 [p|e]]; [| discriminate].
  destruct (fs_stat p w2) as [w3 [size|e]]; [| discriminate].
  unfold ret. intros [= _ <-]. eauto.
Qed.

End Executors.

Section Handlers.

(** A handler from the construction of its document on: the document is
    saved, the executor is started and not awaited, the response is sent. *)
Lemma created_run (w : World) (this : nat) (op0 : PdfOperation)
    (work : Eff (list OutputFile.t)) (run : Eff unit) (response : Response) :
  (forall w', run w' = executor this work w') ->
  keepsRecords work ->
  documents w !! this = Some op0 ->
  status op0 <> "completed" -> outputFiles op0 = [] ->
  exists l,
    oplog (fst ((save this ;; fireAndForget run ;; ret response) w)) = oplog w ++ l /\
    Forall (outputsFrom (files w) work) l.
Proof.
  intros Hrun Hwork Hdoc Hstatus Houts.
  assert (forall w2, w2 = persist this op0 w -> validate op0 = None ->
            exists l, oplog (fst ((fireAndForget run ;; ret response) w2)) = oplog w ++ l /\
                      Forall (outputsFrom (files w) work) l) as Hafter.
  { intros w2 -> Hv.
    destruct (executor_run this work (persist this op0 w) op0 Hwork) as
      (w3 & s1 & s2 & Hex & Hlog & _ & Hs1 & Ho1 & Hs2).
    - exact Hdoc.
    - exists op0. cbn. apply lookup_insert_eq.
    - now apply validate_storable.
    - exists [op0; s1; s2]. split.
      + unfold bind, fireAndForget, ret. rewrite Hrun, Hex. cbn [fst].
        rewrite Hlog. cbn. now rewrite <- app_assoc.
      + unfold outputsFrom.
        constructor; [| constructor; [| constructor; [| constructor]]].
        * right. now split.
        * right. split; [rewrite Hs1; discriminate | congruence].
        * destruct Hs2 as [[Hc Hw] | [Hf Ho]].
          -- left. now split.
          -- right. split; [rewrite Hf; discriminate | congruence]. }
  unfold bind at 1. unfold save. rewrite Hdoc.
  destruct (validate op0) as [msg|] eqn:Hv.
  { exists []. cbn. now rewrite app_nil_r. }
  destruct (collection w !! this) as [c|].
  { now apply Hafter. }
  destruct (duplicateKey op0 (collection w)).
  { exists []. cbn. now rewrite app_nil_r. }
  now apply Hafter.
Qed.

Lemma outputsFrom_merge (fs : gmap string FileBytes) (operation : nat)
    (files_ : list InputFile.t) (s : PdfOperation) :
  outputsFrom fs (mergeWork operation files_) s -> outputsIffCompleted s.
Proof.
  intros [[Hc (w1 & w2 & _ & Hw)] | [Hn Ho]]; unfold outputsIffCompleted.
  - destruct (mergeWork_one_output _ _ _ _ _ Hw) as [x Hx]. rewrite Hx.
    split; [intros _; exact Hc | discriminate].
  - rewrite Ho. split; [contradiction | intros Hc; contradiction].
Qed.

Lemma outputsFrom_any (fs : gmap string FileBytes) (work : Eff (list OutputFile.t))
    (s : PdfOperation) :
  outputsFrom fs work s -> outputsOnlyIfCompleted s.
Proof.
  intros [[Hc _] | [Hn Ho]]; unfold outputsOnlyIfCompleted.
  - intros _. exact Hc.
  - rewrite Ho. contradiction.
Qed.

Lemma mergePdfs_oplog (req : Req.t) (w : World) :
  exists l, oplog (fst (mergePdfs req w)) = oplog w ++ l /\ Forall outputsIffCompleted l.
Proof.
  unfold mergePdfs.
  destruct (Req.files req) as [fs|]; [| exists []; cbn; now rewrite app_nil_r].
  destruct (length fs <? 2)%nat; [exists []; cbn; now rewrite app_nil_r |].
  unfold bind at 1. cbn [uuidv4]. unfold bind at 1. cbn [newPdfOperation].
  match goal with
  | |- context [bind (save ?id) (fun _ => bind (fireAndForget ?run) (fun _ => ret ?r))
                     (set_fresh_id ?n (set_documents (<[_ := ?op0]> ?d) ?w0))] =>
      destruct (created_run (set_fresh_id n (set_documents (<[id := op0]> d) w0)) id op0
                  _ run r
                  (processMergeOperation_executor _ _ _)
                  (keeps_mergeWork _ _)) as (l & Hl & Hall)
  end.
  - cbn. apply lookup_insert_eq.
  - discriminate.
  - reflexivity.
  - exists l. split; [exact Hl |].
    eapply Forall_impl; [exact Hall |]. intros s. apply outputsFrom_merge.
Qed.

Lemma forEach_length {A B} (f : A -> Eff B) (l : list A) (w w' : World) (ys : list B) :
  forEach f l w = (w', Return ys) -> length ys = length l.
Proof.
  revert w w' ys. induction l as [| x l IH]; intros w w' ys; cbn [forEach].
  - unfold ret. now intros [= _ <-].
  - unfold bind. destruct (f x w) as [w1 [y | e]]; [| discriminate].
    destruct (forEach f l w1) as [w2 [zs | e]] eqn:E; [| discriminate].
    unfold ret. intros [= _ <-]. cbn. f_equal. exact (IH _ _ _ E).
Qed.

(** A split of a document that has a page lists at least one output,
    unless it is a split by size whose [pagesPerFile] is not a number. *)
Lemma splitPdfFile_some_output (inputPath operationId : string) (options : Options.t)
    (w w' : World) (paths : list string) :
  files w !! inputPath <> Some (PdfBytes []) ->
  (default "pages"%string (Options.splitType options) = "size"%string ->
   parseIntOf (default (VNumber 1) (Options.pagesPerFile options)) <> NaN) ->
  splitPdfFile inputPath operationId options w = (w', Return paths) ->
  paths <> [].
Proof.
  intros Hpages Hread. unfold splitPdfFile, tryCatch. unfold bind at 1, fs_readFile.
  destruct (files w !! inputPath) as [[pdf | raw] |] eqn:Hin; try discriminate.
  cbn [PDFDocument_load]. unfold bind at 1, ret at 1.
  assert (1 <= Z.of_nat (length pdf)) as Hlen.
  { destruct pdf; [contradiction | cbn; lia]. }
  assert (forall {A} (f : A -> Eff string) (l : list A) w0,
            l <> [] ->
            match forEach f l w0 with
            | (w1, Return a) => (w1, Return a)
            | (w1, Throw e) => (w1, Throw (newError ("Failed to split PDF: " +:+ message e)))
            end = (w', Return paths) -> paths <> []) as Hloop.
  { intros A f l w0 Hl. destruct (forEach f l w0) as [w1 [ys | e]] eqn:E; [| discriminate].
    intros [= _ <-]. apply forEach_length in E. destruct ys; [| discriminate].
    destruct l; [contradiction | discriminate]. }
  destruct (String.eqb _ "pages") eqn:E1.
  { apply Hloop. unfold loopRange. destruct (Z.to_nat _) eqn:N; [lia | discriminate]. }
  destruct (String.eqb _ "range") eqn:E2.
  { destruct (length _ =? 0)%nat eqn:E0; [discriminate |].
    apply Hloop. intros N. rewrite N in E0. discriminate. }
  destruct (String.eqb _ "size") eqn:E3; [| discriminate].
  apply String.eqb_eq in E3. specialize (Hread E3).
  destruct (parseIntOf _) as [| k]; [contradiction |]. cbn [maxWithOne].
  apply Hloop. unfold loopRange.
  pose proof (ceilDiv_spec (Z.of_nat (length pdf)) (Z.max 1 k) ltac:(lia)) as C.
  destruct (Z.to_nat _) eqn:N; [nia | discriminate].
Qed.

Lemma outputsFrom_split (fs : gmap string FileBytes) (operation : nat)
    (inputFile : MulterFile.t) (options : Options.t) (s : PdfOperation) :
  fs !! MulterFile.path inputFile <> Some (PdfBytes []) ->
  (default "pages"%string (Options.splitType options) = "size"%string ->
   parseIntOf (default (VNumber 1) (Options.pagesPerFile options)) <> NaN) ->
  outputsFrom fs (splitWork operation inputFile options) s -> outputsIffCompleted s.
Proof.
  intros Hpages Hread [[Hc (w1 & w2 & Hfs & Hw)] | [Hn Ho]]; unfold outputsIffCompleted.
  - split; [intros _; exact Hc |]. intros _ Hnone.
    unfold splitWork, bind, getDocument in Hw.
    destruct (documents w1 !! operation) as [op |]; [| discriminate].
    destruct (splitPdfFile _ _ _ w1) as [w3 [paths | e]] eqn:E; [| discriminate].
    apply forEach_length in Hw. rewrite Hnone in Hw.
    apply (splitPdfFile_some_output _ _ _ _ _ _ ltac:(rewrite Hfs; exact Hpages) Hread E).
    destruct paths; [reflexivity | discriminate].
  - rewrite Ho. split; [contradiction | intros Hc; contradiction].
Qed.

Lemma splitPdf_oplog (req : Req.t) (w : World) :
  exists l,
    oplog (fst (splitPdf req w)) = oplog w ++ l /\ Forall outputsOnlyIfCompleted l /\
    ((forall inputFile, Req.files req = Some [inputFile] ->
        files w !! MulterFile.path inputFile <> Some (PdfBytes [])) ->
     (Body.splitType (Req.body req) = Some "size"%string ->
      exists k, parseIntOf (default (VNumber 1) (Body.pagesPerFile (Req.body req))) = Num k /\
                k < 2 ^ 53) ->
     Forall outputsIffCompleted l).
Proof.
  unfold splitPdf.
  destruct (Req.files req) as [[|f [|g fs]]|];
    try (exists []; cbn; rewrite app_nil_r; repeat split; constructor).
  unfold bind at 1. cbn [uuidv4]. unfold bind at 1. cbn [newPdfOperation].
  match goal with
  | |- context [bind (save ?id) (fun _ => bind (fireAndForget ?run) (fun _ => ret ?r))
                     (set_fresh_id ?n (set_documents (<[_ := ?op0]> ?d) ?w0))] =>
      destruct (created_run (set_fresh_id n (set_documents (<[id := op0]> d) w0)) id op0
                  _ run r
                  (processSplitOperation_executor _ _ _)
                  (keeps_splitWork _ _ _)) as (l & Hl & Hall)
  end.
  - cbn. apply lookup_insert_eq.
  - discriminate.
  - reflexivity.
  - exists l. split; [exact Hl |]. split.
    + eapply Forall_impl; [exact Hall |]. intros s. apply outputsFrom_any.
    + intros Hpages Hread. eapply Forall_impl; [exact Hall |]. intros s.
      apply outputsFrom_split.
      * exact (Hpages f eq_refl).
      * cbn [Options.splitType Options.pagesPerFile default from_option id].
        intros Hsize.
        assert (Body.splitType (Req.body req) = Some "size"%string) as Ht.
        { destruct (Body.splitType (Req.body req)) as [t |]; cbn in Hsize;
            [now rewrite Hsize | discriminate]. }
        destruct (Hread Ht) as (k & -> & _). discriminate.
Qed.

Lemma uploadFiles_record (req : Req.t) (w : World) (file : MulterFile.t)
    (files_ : list MulterFile.t) :
  Req.files req = Some (file :: files_) ->
  exists op,
    documents (fst (uploadFiles req w)) !! fresh_id w = Some op /\
    operationType op = "upload" /\ status op = "completed" /\ outputFiles op = [].
Proof.
  intros Hf. unfold uploadFiles. rewrite Hf.
  unfold bind at 1. cbn [uuidv4]. unfold bind at 1. cbn [newPdfOperation].
  eexists. split.
  - unfold bind, save. cbn. rewrite lookup_insert_eq.
    destruct (validate _); [cbn; apply lookup_insert_eq |].
    destruct (collection w !! fresh_id w); [cbn; apply lookup_insert_eq |].
    destruct (duplicateKey _ _); cbn; apply lookup_insert_eq.
  - repeat split.
Qed.

End Handlers.

(* ===================================================================== *)
(** * Names of the generated files                                        *)
(* ===================================================================== *)

Section GeneratedNames.

Lemma forEach_Forall {A B} (f : A -> Eff B) (Q : B -> Prop) (E : Env) (l : list A) :
  (forall x w w' y, env w = E -> f x w = (w', Return y) -> Q y) ->
  (forall x, keepsRecords (f x)) ->
  forall w w' ys, env w = E -> forEach f l w = (w', Return ys) -> Forall Q ys.
Proof.
  intros HQ Hkeep. induction l as [|x l IH]; intros w w' ys HE H.
  - cbn in H. injection H as _ <-. constructor.
  - cbn [forEach] in H. unfold bind in H.
    destruct (f x w) as [w1 [y|e]] eqn:E1; [| discriminate].
    destruct (forEach f l w1) as [w2 [zs|e]] eqn:E2; [| discriminate].
    injection H as _ <-.
    pose proof (Hkeep x w) as K. rewrite E1 in K. destruct K as (K & _).
    constructor.
    + exact (HQ x w w1 y HE E1).
    + apply (IH w1 w2 zs); [cbn in K; congruence | exact E2].
Qed.

Lemma copyPages_world (src : PDFDocument) (indices : list Z) (w w' : World)
    (o : Outcome (list PDFPage)) :
  copyPages src indices w = (w', o) -> w' = w.
Proof. unfold copyPages. destruct (mapM _ _); now intros [= <- _]. Qed.

Lemma writePart_named (newPdf : PDFDocument) (operationId : string) (suffix : Suffix)
    (w w' : World) (p : string) :
  writePart newPdf (outputFileName operationId suffix) w = (w', Return p) ->
  namedFor (env w) operationId p.
Proof. rewrite writePart_save. intros [= _ <-]. now exists suffix, (clock (env w) (ticks w)). Qed.

Lemma splitPdfFile_named (inputPath operationId : string) (options : Options.t)
    (w w' : World) (paths : list string) :
  splitPdfFile inputPath operationId options w = (w', Return paths) ->
  Forall (namedFor (env w) operationId) paths.
Proof.
  unfold splitPdfFile, tryCatch. unfold bind at 1.
  destruct (fs_readFile inputPath w) as [w1 [bytes|e]] eqn:E1; [| discriminate].
  assert (w1 = w) as -> by (unfold fs_readFile in E1; destruct (files w !! inputPath);
                            now injection E1).
  unfold bind at 1. destruct bytes as [pdf | raw]; [| discriminate].
  cbn [PDFDocument_load]. unfold ret at 1.
  destruct (String.eqb _ "pages").
  { destruct (forEach _ _ w) as [w2 [ys|e]] eqn:E; [| discriminate]. intros [= _ <-].
    eapply (forEach_Forall _ _ (env w)); [| | reflexivity | exact E].
    - intros i w0 w0' y HE. unfold splitPage, bind.
      destruct (copyPages pdf [i] w0) as [w3 [c|e]] eqn:Ec; [| discriminate].
      apply copyPages_world in Ec as ->. rewrite <- HE.
      apply (writePart_named c operationId (PageOutput i)).
    - apply keeps_splitPage. }
  destruct (String.eqb _ "range").
  { destruct (length _ =? 0)%nat; [discriminate |].
    destruct (forEach _ _ w) as [w2 [ys|e]] eqn:E; [| discriminate]. intros [= _ <-].
    eapply (forEach_Forall _ _ (env w)); [| | reflexivity | exact E].
    - intros r w0 w0' y HE. unfold splitRange, bind, lift.
      destruct (parsePageRange r _) as [[s e]|err]; [| discriminate]. cbn [fst snd].
      destruct (copyPages pdf _ w0) as [w3 [c|e']] eqn:Ec; [| discriminate].
      apply copyPages_world in Ec as ->. rewrite <- HE.
      apply (writePart_named c operationId (RangeOutput s e)).
    - apply keeps_splitRange. }
  destruct (String.eqb _ "size"); [| discriminate].
  destruct (maxWithOne _) as [|k].
  { intros [= _ <-]. constructor. }
  destruct (forEach _ _ w) as [w2 [ys|e]] eqn:E; [| discriminate]. intros [= _ <-].
  eapply (forEach_Forall _ _ (env w)); [| | reflexivity | exact E].
  - intros i w0 w0' y HE. unfold splitChunk, bind.
    destruct (copyPages pdf _ w0) as [w3 [c|e]] eqn:Ec; [| discriminate].
    apply copyPages_world in Ec as ->. rewrite <- HE.
    apply (writePart_named c operationId (PartOutput i)).
  - apply keeps_splitChunk.
Qed.

Lemma mergePdfFiles_named (inputFiles : list InputFile.t) (operationId : string)
    (w w' : World) (p : string) :
  mergePdfFiles inputFiles operationId w = (w', Return p) ->
  namedFor (env w) operationId p.
Proof.
  unfold mergePdfFiles, tryCatch. unfold bind at 1.
  pose proof (keeps_foldEff mergeOne
                (sort (fun a b => orderOrZero a - orderOrZero b) inputFiles) []) as K.
  specialize (K keeps_mergeOne w).
  destruct (foldEff mergeOne _ [] w) as [w1 [merged|e]]; [| discriminate].
  destruct K as (K & _). cbn in K.
  cbn. intros [= _ <-]. rewrite K.
  now exists MergedOutput, (clock (env w) (ticks w1)).
Qed.

End GeneratedNames.

(** C9, as the code has it. Every name the transformer generates is made
    of the operation identifier, a suffix and the clock reading taken when
    the file is written. With the identifier and the suffix fixed, two
    names are equal exactly when the two clock readings are. The name
    contains the identifier, and two operations with different
    identifiers never produce the same name, whatever the suffixes and
    the clock readings. *)
Theorem output_names_by_operation :
  (forall inputFiles operationId w w' p,
      mergePdfFiles inputFiles operationId w = (w', Return p) ->
      namedFor (env w) operationId p) /\
  (forall inputPath operationId options w w' paths,
      splitPdfFile inputPath operationId options w = (w', Return paths) ->
      Forall (namedFor (env w) operationId) paths) /\
  (forall operationId suffix t1 t2,
      outputFileName operationId suffix t1 = outputFileName operationId suffix t2 <-> t1 = t2) /\
  (forall operationId suffix now,
      exists before after, outputFileName operationId suffix now
                           = before +:+ operationId +:+ after) /\
  (forall op1 op2 s1 s2 t1 t2,
      op1 <> op2 -> outputFileName op1 s1 t1 <> outputFileName op2 s2 t2).
Proof.
  split; [exact mergePdfFiles_named |].
  split; [exact splitPdfFile_named |].
  split; [| split].
  - intros operationId suffix t1 t2. split; [| now intros ->].
    intros E. now apply outputFileName_cut in E as [_ E].
  - intros operationId suffix now. destruct suffix; cbn [outputFileName].
    + exists "merged_". eexists. unfold mergedFileName. reflexivity.
    + exists "split_". eexists. unfold pageFileName. reflexivity.
    + exists "split_". eexists. unfold rangeFileName. reflexivity.
    + exists "split_". eexists. unfold partFileName. reflexivity.
  - intros op1 op2 s1 s2 t1 t2 Hne E. apply Hne.
    apply outputFileName_cut in E as [E _]. now apply nameHead_operation in E.
Qed.

(* ===================================================================== *)
(** * The life of an operation record                                     *)
(* ===================================================================== *)

(** C2, as the code has it. The three transitions do not look at the
    current status: on a stored document that passes validation,
    [markAsProcessing] and [markAsFailed] succeed and set their status
    whatever the status was, and so does [markAsCompleted] once a start
    time is set. The order pending, processing, then completed or failed
    comes from the executors: each makes exactly two writes, the first to
    [processing], the second to [completed] or [failed]. *)
Theorem transitions_are_unguarded (w : World) (this : nat) (op : PdfOperation) :
  documents w !! this = Some op ->
  is_Some (collection w !! this) ->
  storable op ->
  (exists w' op',
      markAsProcessing this w = (w', Return tt) /\
      collection w' !! this = Some op' /\ status op' = "processing") /\
  (forall errorMessage, exists w' op',
      markAsFailed this errorMessage w = (w', Return tt) /\
      collection w' !! this = Some op' /\ status op' = "failed") /\
  (forall outputFiles_,
      Processing.startTime (processing op) <> None ->
      exists w' op',
        markAsCompleted this outputFiles_ w = (w', Return tt) /\
        collection w' !! this = Some op' /\ status op' = "completed" /\
        outputFiles op' = outputFiles_) /\
  (forall inputFiles mergeOrder, exists w' s1 s2,
      processMergeOperation this inputFiles mergeOrder w = (w', Return tt) /\
      oplog w' = oplog w ++ [s1; s2] /\
      status s1 = "processing" /\ (status s2 = "completed" \/ status s2 = "failed")) /\
  (forall inputFile options, exists w' s1 s2,
      processSplitOperation this inputFile options w = (w', Return tt) /\
      oplog w' = oplog w ++ [s1; s2] /\
      status s1 = "processing" /\ (status s2 = "completed" \/ status s2 = "failed")).
Proof.
  intros Hdoc Hcoll Hst. split; [| split; [| split; [| split]]].
  - eexists _, _. split; [exact (markAsProcessing_run w this op Hdoc Hcoll Hst) |].
    split; [cbn; apply lookup_insert_eq | reflexivity].
  - intros m. eexists _, _. split; [exact (markAsFailed_run w this op Hdoc Hcoll m Hst) |].
    split; [cbn; apply lookup_insert_eq | reflexivity].
  - intros outs Hs. eexists _, _. split; [exact (markAsCompleted_run w this op Hdoc Hcoll outs Hst Hs) |].
    split; [cbn; apply lookup_insert_eq | split; reflexivity].
  - intros inputFiles mergeOrder. rewrite processMergeOperation_executor.
    match goal with
    | |- context [executor this ?work w] =>
        destruct (executor_run this work w op (keeps_mergeWork _ _) Hdoc Hcoll Hst)
          as (w' & s1 & s2 & Hex & Hlog & _ & Hs1 & _ & Hs2)
    end.
    exists w', s1, s2. repeat split; try assumption.
    destruct Hs2 as [[? _] | [? _]]; [now left | now right].
  - intros inputFile options. rewrite processSplitOperation_executor.
    match goal with
    | |- context [executor this ?work w] =>
        destruct (executor_run this work w op (keeps_splitWork _ _ _) Hdoc Hcoll Hst)
          as (w' & s1 & s2 & Hex & Hlog & _ & Hs1 & _ & Hs2)
    end.
    exists w', s1, s2. repeat split; try assumption.
    destruct Hs2 as [[? _] | [? _]]; [now left | now right].
Qed.

(** C3, as the code has it. In every state that the merge handler and its
    executor persist, the output files are non-empty exactly when the
    status is [completed]. The same holds in every state that the split
    handler and its executor persist, as long as the uploaded document is
    not a PDF without pages and, for a split by size, [parseInt] reads
    [pagesPerFile] as a number (below 2^53, where it is exact); without
    these two conditions, output files are still non-empty only when the
    status is [completed]. The document the upload handler creates has the
    status [completed] and no output files. *)
Theorem outputs_only_when_completed :
  (forall req w, exists l,
      oplog (fst (mergePdfs req w)) = oplog w ++ l /\ Forall outputsIffCompleted l) /\
  (forall req w, exists l,
      oplog (fst (splitPdf req w)) = oplog w ++ l /\ Forall outputsOnlyIfCompleted l /\
      ((forall inputFile, Req.files req = Some [inputFile] ->
          files w !! MulterFile.path inputFile <> Some (PdfBytes [])) ->
       (Body.splitType (Req.body req) = Some "size"%string ->
        exists k, parseIntOf (default (VNumber 1) (Body.pagesPerFile (Req.body req))) = Num k /\
                  k < 2 ^ 53) ->
       Forall outputsIffCompleted l)) /\
  (forall req w file files_,
      Req.files req = Some (file :: files_) ->
      exists op,
        documents (fst (uploadFiles req w)) !! fresh_id w = Some op /\
        status op = "completed" /\ outputFiles op = []).
Proof.
  split; [exact mergePdfs_oplog |]. split; [exact splitPdf_oplog |].
  intros req w file files_ Hf.
  destruct (uploadFiles_record req w file files_ Hf) as (op & H1 & _ & H2 & H3).
  now exists op.
Qed.

(** C10. When the operation found for the request is completed and has
    two or more output files, the bulk download throws a [ReferenceError]
    for [require], before anything of the archive is made, and
    [asyncHandler] hands that error to [next]. *)
Theorem bulk_download_throws (req : Req.t) (w : World) (operation : PdfOperation) :
  findByOperationId (Req.operationId req) w = (w, Return (Some operation)) ->
  status operation = "completed" ->
  (2 <= length (outputFiles operation))%nat ->
  bulkDownload req w = (w, Throw (mkError ReferenceError "require is not defined" None)) /\
  asyncHandler bulkDownload req w
  = (w, Next (mkError ReferenceError "require is not defined" None)).
Proof.
  intros Hfind Hstatus Hlen.
  assert (bulkDownload req w
          = (w, Throw (mkError ReferenceError "require is not defined" None))) as H.
  { unfold bulkDownload. rewrite (bind_return _ _ _ _ _ Hfind). rewrite Hstatus.
    change (String.eqb "completed" "completed") with true. cbn [negb].
    destruct (outputFiles operation) as [|a [|b l]]; cbn in Hlen; try lia.
    reflexivity. }
  split; [exact H |]. unfold asyncHandler. now rewrite H.
Qed.

(** The bulk download never answers with an archive. *)
Lemma bulk_download_no_archive (req : Req.t) (w w' : World) (r : Response) :
  bulkDownload req w = (w', Return r) -> exists url, r = Redirect url.
Proof.
  unfold bulkDownload, bind.
  destruct (findByOperationId _ w) as [w1 [[operation|]|e]]; try discriminate.
  destruct (negb _); [discriminate |].
  destruct (outputFiles operation) as [|a [|b l]]; try discriminate.
  unfold ret. intros [= _ <-]. eauto.
Qed.

(* ===================================================================== *)
(** * The sample environment                                              *)
(* ===================================================================== *)

(** C1 on the code. Three single-page inputs A, B, C merged with the
    order [2,0,1]: the operation completes and its output holds the pages
    of C, B, A, in that order, not those of C, A, B. *)
Theorem merge_order_201_output :
  (status <$> last (oplog afterMerge201)) = Some "completed" /\
  ((fun op => OutputFile.path <$> outputFiles op) <$> last (oplog afterMerge201))
  = Some ["/srv/app/processed/merged_7d0c1f6e-52a4-4b1b-9a55-000000000010_1700000000001.pdf"] /\
  files afterMerge201
    !! "/srv/app/processed/merged_7d0c1f6e-52a4-4b1b-9a55-000000000010_1700000000001.pdf"
  = Some (PdfBytes ["c1"; "b1"; "a1"]) /\
  files afterMerge201
    !! "/srv/app/processed/merged_7d0c1f6e-52a4-4b1b-9a55-000000000010_1700000000001.pdf"
  <> Some (PdfBytes ["c1"; "a1"; "b1"]).
Proof. vm_compute. repeat split. discriminate. Qed.

(** The order [1,0] on two inputs does give B, then A. *)
Example merge_order_10_output :
  files (fst (mergePdfs (sampleRequest ["A"; "B"] (Body.mk (Some [1; 0]) None None None))
                        sampleWorld))
    !! "/srv/app/processed/merged_7d0c1f6e-52a4-4b1b-9a55-000000000010_1700000000001.pdf"
  = Some (PdfBytes ["b1"; "a1"]).
Proof. vm_compute. reflexivity. Qed.

(** C5 on the code. ['upload'] is not in the enumeration of
    [operationType], so the document the upload handler creates fails
    validation in [save]: the handler throws and nothing is persisted. *)
Theorem upload_record_not_saved :
  operationTypeEnum = ["merge"; "split"] /\
  snd (uploadFiles uploadRequest sampleWorld)
  = Throw (mkError ValidationError (enumMessage "operationType" "upload") None) /\
  collection (fst (uploadFiles uploadRequest sampleWorld)) = ∅ /\
  oplog (fst (uploadFiles uploadRequest sampleWorld)) = [].
Proof. vm_compute. repeat split. Qed.

(** The same for every upload request with a file. *)
Lemma uploadFiles_rejected (req : Req.t) (w : World) (file : MulterFile.t)
    (files_ : list MulterFile.t) :
  Req.files req = Some (file :: files_) ->
  exists w' e,
    uploadFiles req w = (w', Throw e) /\ name e = ValidationError /\
    collection w' = collection w /\ oplog w' = oplog w.
Proof.
  intros Hf. unfold uploadFiles. rewrite Hf.
  unfold bind at 1. cbn [uuidv4]. unfold bind at 1. cbn [newPdfOperation].
  unfold bind, save. cbn. rewrite lookup_insert_eq.
  unfold validate. cbn.
  destruct (String.eqb (uuids (env w) (drawn w)) EmptyString);
    eexists _, _; repeat split.
Qed.

(** Against C2 as stated: a completed record is marked processing again. *)
Lemma completed_record_marked_processing :
  (status <$> collection afterMerge201 !! 0%nat) = Some "completed" /\
  snd (markAsProcessing 0 afterMerge201) = Return tt /\
  (status <$> collection (fst (markAsProcessing 0 afterMerge201)) !! 0%nat)
  = Some "processing".
Proof. vm_compute. repeat split. Qed.

(** Against C3 as stated: the document of the upload handler, the split
    of a document without pages, and the split by size with a
    [pagesPerFile] that is not a number. All three are [completed] and
    have no output files. *)
Lemma completed_without_outputs :
  (exists op,
     documents (fst (uploadFiles uploadRequest sampleWorld)) !! 0%nat = Some op /\
     status op = "completed"%string /\ outputFiles op = [] /\
     ~ outputsIffCompleted op) /\
  (files withEmptyDocument !! MulterFile.path (sampleUpload "empty") = Some (PdfBytes []) /\
   exists op,
     last (oplog (fst (splitPdf splitRequestEmpty withEmptyDocument))) = Some op /\
     operationType op = "split"%string /\
     status op = "completed"%string /\ outputFiles op = [] /\
     ~ outputsIffCompleted op) /\
  (parseIntOf (VString "many") = NaN /\
   exists op,
     last (oplog (fst (splitPdf splitRequestUnreadable sampleWorld))) = Some op /\
     operationType op = "split"%string /\
     status op = "completed"%string /\ outputFiles op = [] /\
     ~ outputsIffCompleted op).
Proof.
  split; [| split].
  - eexists. split; [vm_compute; reflexivity |]. split; [reflexivity |].
    split; [reflexivity |]. intros [_ H]. now apply H.
  - split; [vm_compute; reflexivity |].
    eexists. split; [vm_compute; reflexivity |]. split; [reflexivity |].
    split; [reflexivity |]. split; [reflexivity |]. intros [_ H]. now apply H.
  - split; [vm_compute; reflexivity |].
    eexists. split; [vm_compute; reflexivity |]. split; [reflexivity |].
    split; [reflexivity |]. split; [reflexivity |]. intros [_ H]. now apply H.
Qed.





(** Against C9 as stated: the same merge run twice for one operation
    gives two names. *)
Lemma same_operation_two_names :
  snd (mergePdfFiles twoInputs firstId sampleWorld)
  = Return "/srv/app/processed/merged_7d0c1f6e-52a4-4b1b-9a55-000000000010_1700000000000.pdf" /\
  snd (mergePdfFiles twoInputs firstId (fst (mergePdfFiles twoInputs firstId sampleWorld)))
  = Return "/srv/app/processed/merged_7d0c1f6e-52a4-4b1b-9a55-000000000010_1700000000001.pdf" /\
  snd (mergePdfFiles twoInputs firstId sampleWorld)
  <> snd (mergePdfFiles twoInputs firstId (fst (mergePdfFiles twoInputs firstId sampleWorld))).
Proof. vm_compute. repeat split. discriminate. Qed.

(** The scenarios of the specification. *)
Example ten_pages_by_three :
  pageCounts (fst (splitPdfFile (MulterFile.path (sampleUpload "ten")) firstId
                                (sizeOptions (VNumber 3)) sampleWorld))
             (pathsOf (snd (splitPdfFile (MulterFile.path (sampleUpload "ten")) firstId
                                         (sizeOptions (VNumber 3)) sampleWorld)))
  = [3; 3; 3; 1]%nat.
Proof. vm_compute. reflexivity. Qed.

Example ranges_on_six_pages :
  pageCounts (fst (splitPdfFile (MulterFile.path (sampleUpload "six")) firstId
                                (rangeOptions ["1-2"; "5"]) sampleWorld))
             (pathsOf (snd (splitPdfFile (MulterFile.path (sampleUpload "six")) firstId
                                         (rangeOptions ["1-2"; "5"]) sampleWorld)))
  = [2; 1]%nat.
Proof. vm_compute. reflexivity. Qed.

Example parseInt_examples :
  parseInt "12" = Num 12 /\ parseInt " 7abc" = Num 7 /\ parseInt EmptyString = NaN /\
  parseInt "-3" = Num (-3) /\ parseInt "0x1F" = Num 31 /\ parseInt "x" = NaN.
Proof. repeat split. Qed.

Example string_examples :
  intToString 0 = "0" /\ intToString 1700000000123 = "1700000000123" /\
  intToString (-42) = "-42" /\ split "-" "1-5" = ["1"; "5"] /\
  split "-" EmptyString = [EmptyString] /\ trim "  1-5 " = "1-5" /\
  matchesRangePattern "3-7" = true /\ matchesRangePattern "3-" = false /\
  path_basename "/srv/app/processed/x.pdf" = "x.pdf".
Proof. repeat split. Qed.

(** A single string as [pageRanges] is read character by character. *)
Example range_string_by_character :
  rangeItems (RangeString "1-3") = ["1"; "-"; "3"] /\
  exists e, snd (splitPdfFile (MulterFile.path (sampleUpload "six")) firstId
                   (Options.mk (Some "range") (Some (RangeString "1-3")) None) sampleWorld)
            = Throw e.
Proof. split; [reflexivity |]. eexists. vm_compute. reflexivity. Qed.

(* ===================================================================== *)
(** * The theorems at the sample environment                              *)
(* ===================================================================== *)





Lemma output_names_by_operation_sample :
  firstId <> "7d0c1f6e-52a4-4b1b-9a55-000000000011" /\
  outputFileName firstId (PageOutput 0) 1700000000000
  <> outputFileName "7d0c1f6e-52a4-4b1b-9a55-000000000011" (PageOutput 0) 1700000000000.
Proof.
  assert (firstId <> "7d0c1f6e-52a4-4b1b-9a55-000000000011") as N by discriminate.
  split; [exact N |].
  apply (proj2 (proj2 (proj2 (proj2 output_names_by_operation)))). exact N.
Defined.

Lemma transitions_are_unguarded_sample :
  exists op,
    documents afterMerge201 !! 0%nat = Some op /\
    is_Some (collection afterMerge201 !! 0%nat) /\
    storable op /\
    status op = "completed" /\
    exists w' op',
      markAsProcessing 0 afterMerge201 = (w', Return tt) /\
      collection w' !! 0%nat = Some op' /\ status op' = "processing".
Proof.
  eexists. split; [vm_compute; reflexivity |].
  assert (is_Some (collection afterMerge201 !! 0%nat)) as C
    by (eexists; vm_compute; reflexivity).
  split; [exact C |].
  match goal with
  | |- storable ?op /\ _ =>
      assert (storable op) as S by (apply storable_fieldsOk; vm_compute; reflexivity)
  end.
  split; [exact S |]. split; [reflexivity |].
  refine (proj1 (transitions_are_unguarded afterMerge201 0 _ _ C S)).
  vm_compute. reflexivity.
Defined.

Lemma outputs_only_when_completed_sample :
  (Req.files uploadRequest = Some [sampleUpload "A"] /\
   exists op,
     documents (fst (uploadFiles uploadRequest sampleWorld)) !! fresh_id sampleWorld = Some op /\
     status op = "completed" /\ outputFiles op = []) /\
  ((forall inputFile, Req.files splitRequestBySize = Some [inputFile] ->
      files sampleWorld !! MulterFile.path inputFile <> Some (PdfBytes [])) /\
   (Body.splitType (Req.body splitRequestBySize) = Some "size"%string ->
    exists k,
      parseIntOf (default (VNumber 1) (Body.pagesPerFile (Req.body splitRequestBySize)))
      = Num k /\ k < 2 ^ 53) /\
   exists l,
     oplog (fst (splitPdf splitRequestBySize sampleWorld)) = oplog sampleWorld ++ l /\
     length l = 3%nat /\
     Forall outputsIffCompleted l).
Proof.
  split.
  { split; [reflexivity |].
    exact (proj2 (proj2 outputs_only_when_completed) uploadRequest sampleWorld
             (sampleUpload "A") [] eq_refl). }
  assert (forall inputFile, Req.files splitRequestBySize = Some [inputFile] ->
            files sampleWorld !! MulterFile.path inputFile <> Some (PdfBytes [])) as Hpages.
  { intros inputFile [= <-]. vm_compute. discriminate. }
  assert (Body.splitType (Req.body splitRequestBySize) = Some "size"%string ->
          exists k,
            parseIntOf (default (VNumber 1) (Body.pagesPerFile (Req.body splitRequestBySize)))
            = Num k /\ k < 2 ^ 53) as Hread.
  { intros _. exists 3. split; [vm_compute; reflexivity | lia]. }
  split; [exact Hpages |]. split; [exact Hread |].
  destruct (proj1 (proj2 outputs_only_when_completed) splitRequestBySize sampleWorld)
    as (l & Hl & _ & Hiff).
  exists l. split; [exact Hl |]. split; [| exact (Hiff Hpages Hread)].
  assert (length (oplog (fst (splitPdf splitRequestBySize sampleWorld))) = 3%nat) as L
    by (vm_compute; reflexivity).
  rewrite Hl, length_app in L. cbn in L. exact L.
Defined.

Lemma bulk_download_throws_sample :
  exists operation,
    findByOperationId (Req.operationId bulkRequest) afterSplitBySize
    = (afterSplitBySize, Return (Some operation)) /\
    status operation = "completed" /\
    (2 <= length (outputFiles operation))%nat /\
    bulkDownload bulkRequest afterSplitBySize
    = (afterSplitBySize, Throw (mkError ReferenceError "require is not defined" None)) /\
    asyncHandler bulkDownload bulkRequest afterSplitBySize
    = (afterSplitBySize, Next (mkError ReferenceError "require is not defined" None)).
Proof.
  eexists.
  assert (forall A B (x : A) (y y' : B), y = y' -> (x, y) = (x, y')) as P by (intros; congruence).
  split; [apply P; vm_compute; reflexivity |].
  split; [reflexivity |]. split; [cbn; lia |].
  eapply bulk_download_throws; [apply P; vm_compute; reflexivity | reflexivity | cbn; lia].
Defined.

(* ===================================================================== *)
(** * The service layer beyond the specification                          *)
(* ===================================================================== *)

Section CanonicalRanges.

Lemma parsePageRange_single_eq (n total : Z) :
  0 <= n ->
  parsePageRange (intToString n) total
  = if (n <? 1) || (n >? total)
    then Throw (newError ("Invalid page number: " +:+ intToString n +:+
                          ". Pages must be between 1 and " +:+ intToString total))
    else Return (n, n).
Proof.
  intros H. unfold parsePageRange.
  rewrite trim_digits by (apply intToString_digits; lia).
  rewrite intToString_no_dash by lia.
  rewrite parseInt_intToString. reflexivity.
Qed.

Lemma parsePageRange_span_eq (s e total : Z) :
  0 <= s -> 0 <= e ->
  parsePageRange (intToString s +:+ "-" +:+ intToString e) total
  = if (s <? 1) || (e >? total) || (s >? e)
    then Throw (newError ("Invalid page range: " +:+ (intToString s +:+ "-" +:+ intToString e)
                          +:+ ". Pages must be between 1 and " +:+ intToString total))
    else Return (s, e).
Proof.
  intros Hs He. unfold parsePageRange.
  rewrite trim_span by lia.
  change ("-" +:+ intToString e) with (String "-" (intToString e)).
  rewrite includes_after_sep.
  change (String "-" (intToString e)) with ("-" +:+ intToString e).
  rewrite split_span by lia.
  cbn [fmap list_fmap lookup list_lookup].
  rewrite !trim_digits by (apply intToString_digits; lia).
  rewrite !parseInt_intToString. reflexivity.
Qed.

End CanonicalRanges.

(** X1. Whatever [parsePageRange] returns lies within the document: the
    start page is at least 1, not after the end page, and the end page is
    at most the page count. *)
Theorem parsePageRange_in_bounds (range : string) (totalPages startPage endPage : Z) :
  parsePageRange range totalPages = Return (startPage, endPage) ->
  1 <= startPage /\ startPage <= endPage /\ endPage <= totalPages.
Proof.
  unfold parsePageRange. destruct (includes "-" (trim range)).
  - destruct (_ !! 0%nat) as [[| a] |]; try discriminate.
    destruct (_ !! 1%nat) as [[| b] |]; try discriminate.
    destruct (a <? 1) eqn:E1; [discriminate |].
    destruct (b >? totalPages) eqn:E2; [discriminate |].
    destruct (a >? b) eqn:E3; [discriminate |].
    cbn [orb]. intros [= <- <-].
    apply Z.ltb_ge in E1. rewrite Z.gtb_ltb in E2, E3.
    apply Z.ltb_ge in E2. apply Z.ltb_ge in E3. lia.
  - destruct (parseInt (trim range)) as [| n]; [discriminate |].
    destruct (n <? 1) eqn:E1; [discriminate |].
    destruct (n >? totalPages) eqn:E2; [discriminate |].
    cbn [orb]. intros [= <- <-].
    apply Z.ltb_ge in E1. rewrite Z.gtb_ltb in E2. apply Z.ltb_ge in E2. lia.
Qed.

Lemma parsePageRange_in_bounds_sample :
  parsePageRange " 2 - 5 " 6 = Return (2, 5) /\ 1 <= 2 /\ 2 <= 5 /\ 5 <= 6.
Proof.
  split; [vm_compute; reflexivity |].
  apply (parsePageRange_in_bounds " 2 - 5 " 6 2 5). vm_compute. reflexivity.
Defined.

(** X2. On a token written in the canonical way ([n] or [start-end] in
    decimal, with numbers below 2^53, which [parseInt] reads exactly),
    [parsePageRange] returns the range itself when it is valid for the
    document and throws otherwise: a start below 1, an end past the last
    page and a start after the end are all rejected, while [start = end]
    is accepted. *)
Theorem parsePageRange_canonical (r : RangeToken) (totalPages : Z) :
  0 <= rangeStart r < 2 ^ 53 -> 0 <= rangeEnd r < 2 ^ 53 ->
  (validRange totalPages r ->
   parsePageRange (renderRange r) totalPages = Return (rangeStart r, rangeEnd r)) /\
  (~ validRange totalPages r ->
   exists m, parsePageRange (renderRange r) totalPages = Throw (newError m)).
Proof.
  intros Hs He. split; [apply parsePageRange_render |].
  unfold validRange. destruct r as [n | s e]; cbn [rangeStart rangeEnd renderRange] in *; intros Hn.
  - rewrite parsePageRange_single_eq by lia.
    destruct (n <? 1) eqn:E1; [cbn; eauto |].
    destruct (n >? totalPages) eqn:E2; [cbn; eauto |].
    apply Z.ltb_ge in E1. rewrite Z.gtb_ltb in E2. apply Z.ltb_ge in E2. lia.
  - rewrite parsePageRange_span_eq by lia.
    destruct (s <? 1) eqn:E1; [cbn; eauto |].
    destruct (e >? totalPages) eqn:E2; [cbn; eauto |].
    destruct (s >? e) eqn:E3; [cbn; eauto |].
    apply Z.ltb_ge in E1. rewrite Z.gtb_ltb in E2, E3.
    apply Z.ltb_ge in E2. apply Z.ltb_ge in E3. lia.
Qed.

Lemma parsePageRange_canonical_sample :
  0 <= rangeStart (PageSpan 4 2) < 2 ^ 53 /\ 0 <= rangeEnd (PageSpan 4 2) < 2 ^ 53 /\
  ~ validRange 6 (PageSpan 4 2) /\
  exists m, parsePageRange (renderRange (PageSpan 4 2)) 6 = Throw (newError m).
Proof.
  assert (0 <= rangeStart (PageSpan 4 2) < 2 ^ 53) as Hs by (cbn; lia).
  assert (0 <= rangeEnd (PageSpan 4 2) < 2 ^ 53) as He by (cbn; lia).
  assert (~ validRange 6 (PageSpan 4 2)) as Hn by (unfold validRange; cbn; lia).
  split; [exact Hs |]. split; [exact He |]. split; [exact Hn |].
  exact (proj2 (parsePageRange_canonical (PageSpan 4 2) 6 Hs He) Hn).
Defined.

(* ===================================================================== *)
(** ** Splitting into single pages                                        *)
(* ===================================================================== *)

Section PagesSplit.

Lemma splitPdfFile_default (inputPath operationId : string) (options : Options.t)
    (w : World) :
  Options.splitType options = None \/ Options.splitType options = Some "pages"%string ->
  splitPdfFile inputPath operationId options w
  = splitPdfFile inputPath operationId pagesOptions w.
Proof.
  intros [H | H]; unfold splitPdfFile, pagesOptions; rewrite H; reflexivity.
Qed.



End PagesSplit.

(** Output [i] of a split into pages: its path and what it holds. *)
Lemma split_pages_page (w : World) (inputPath operationId : string) (pdf : PDFDocument)
    (options : Options.t) (i : nat) (page : PDFPage) :
  files w !! inputPath = Some (PdfBytes pdf) ->
  Options.splitType options = None \/ Options.splitType options = Some "pages"%string ->
  pdf !! i = Some page ->
  pathsOf (snd (splitPdfFile inputPath operationId options w)) !! i
  = Some (path_join (processedDir (env w))
            (pageFileName operationId (Z.of_nat i) (clock (env w) (ticks w + i)))) /\
  files (fst (splitPdfFile inputPath operationId options w))
    !! path_join (processedDir (env w))
         (pageFileName operationId (Z.of_nat i) (clock (env w) (ticks w + i)))
  = Some (PdfBytes [page]).
Proof.
  intros Hin Hopt Hi.
  rewrite (splitPdfFile_default _ _ _ _ Hopt).
  rewrite (split_pages_run w inputPath operationId pdf Hin).
  cbn [fst snd pathsOf].
  pose proof (lookup_lt_Some _ _ _ Hi) as Li.
  split.
  - rewrite list_lookup_fmap, plan_lookup, countFrom_lookup by lia.
    cbn. rewrite Z.add_0_l. reflexivity.
  - change (files (afterWrites ?a ?b ?c)) with a.
    apply (runWrites_lookup _ _ i).
    + rewrite plan_lookup, countFrom_lookup by lia. cbn. unfold pageStep.
      rewrite !Z.add_0_l. rewrite (pagesBetween_one pdf i page Hi). reflexivity.
    + intros j c' Hj. rewrite plan_lookup in Hj.
      destruct (countFrom 0 _ !! j) as [x|] eqn:Ej; [| discriminate].
      apply countFrom_lookup_inv in Ej as [-> _].
      cbn in Hj. injection Hj as Hp <-.
      apply path_join_inj, pageFileName_index in Hp.
      assert (j = i) as -> by lia.
      rewrite !Z.add_0_l. rewrite (pagesBetween_one pdf i page Hi). reflexivity.
Qed.





(** X5. A split that cannot start fails before it writes anything: when
    the input is missing or is not a PDF, when the split type is none of
    [pages], [range] and [size], or when a range split has no ranges, the
    call throws an error whose message starts with [Failed to split PDF: ]
    and leaves the files, the clock and the operation records as they
    were. *)
Theorem split_rejected_before_writing (w : World) (inputPath operationId : string)
    (options : Options.t) :
  (forall pdf, files w !! inputPath <> Some (PdfBytes pdf)) \/
  inEnum (default "pages"%string (Options.splitType options)) splitTypeEnum = false \/
  (Options.splitType options = Some "range"%string /\
   rangeItems (default (RangeArray []) (Options.pageRanges options)) = []) ->
  exists m,
    splitPdfFile inputPath operationId options w
    = (w, Throw (newError ("Failed to split PDF: " +:+ m))).
Proof.
  intros H. unfold splitPdfFile, tryCatch, bind, fs_readFile.
  destruct (files w !! inputPath) as [[pdf | raw] |] eqn:Hin.
  2: { cbn. eauto. }
  2: { cbn. eauto. }
  cbn [PDFDocument_load ret].
  destruct H as [H | [H | [H1 H2]]].
  - exfalso. exact (H pdf eq_refl).
  - unfold inEnum, splitTypeEnum in H. cbn [existsb] in H.
    apply orb_false_iff in H as [Ha H]. apply orb_false_iff in H as [Hb H].
    apply orb_false_iff in H as [Hc _].
    rewrite Ha, Hb, Hc. cbn. eauto.
  - rewrite H1. cbn [default from_option id].
    change (String.eqb "range" "pages") with false.
    change (String.eqb "range" "range") with true.
    cbn iota. rewrite H2. cbn. eauto.
Qed.

Lemma split_rejected_before_writing_sample :
  inEnum (default "pages"%string
            (Options.splitType (Options.mk (Some "chapters"%string) None None)))
         splitTypeEnum = false /\
  exists m,
    splitPdfFile (MulterFile.path (sampleUpload "six")) firstId
                 (Options.mk (Some "chapters"%string) None None) sampleWorld
    = (sampleWorld, Throw (newError ("Failed to split PDF: " +:+ m))).
Proof.
  assert (inEnum (default "pages"%string
                    (Options.splitType (Options.mk (Some "chapters"%string) None None)))
                 splitTypeEnum = false) as H by (vm_compute; reflexivity).
  split; [exact H |].
  exact (split_rejected_before_writing sampleWorld (MulterFile.path (sampleUpload "six"))
           firstId (Options.mk (Some "chapters"%string) None None) (or_intror (or_introl H))).
Defined.

(* ===================================================================== *)
(** ** Which files the transformers touch                                 *)
(* ===================================================================== *)

Section Touch.

Variable P : Env -> string -> Prop.

Lemma touches_ret {A} (a : A) : touchesOnly P (ret a).
Proof. intros w. split; [reflexivity | intros; reflexivity]. Qed.

Lemma touches_throw {A} (e : JsError) : touchesOnly P (@throw A e).
Proof. intros w. split; [reflexivity | intros; reflexivity]. Qed.

Lemma touches_lift {A} (o : Outcome A) : touchesOnly P (lift o).
Proof. intros w. split; [reflexivity | intros; reflexivity]. Qed.

Lemma touches_bind {A B} (c : Eff A) (k : A -> Eff B) :
  touchesOnly P c -> (forall a, touchesOnly P (k a)) -> touchesOnly P (bind c k).
Proof.
  intros Hc Hk w. unfold bind. destruct (Hc w) as [He Hf].
  destruct (c w) as [w1 [a | e]]; cbn [fst] in *.
  - destruct (Hk a w1) as [He' Hf']. split; [congruence |].
    intros q Hq. rewrite Hf' by (rewrite He; exact Hq). now apply Hf.
  - split; assumption.
Qed.

Lemma touches_tryCatch {A} (c : Eff A) (h : JsError -> Eff A) :
  touchesOnly P c -> (forall e, touchesOnly P (h e)) -> touchesOnly P (tryCatch c h).
Proof.
  intros Hc Hh w. unfold tryCatch. destruct (Hc w) as [He Hf].
  destruct (c w) as [w1 [a | e]]; cbn [fst] in *.
  - split; assumption.
  - destruct (Hh e w1) as [He' Hf']. split; [congruence |].
    intros q Hq. rewrite Hf' by (rewrite He; exact Hq). now apply Hf.
Qed.

Lemma touches_forEach {A B} (f : A -> Eff B) (l : list A) :
  (forall x, touchesOnly P (f x)) -> touchesOnly P (forEach f l).
Proof.
  intros Hf. induction l as [| x l IH]; cbn [forEach].
  - apply touches_ret.
  - apply touches_bind; [apply Hf |]. intros y.
    apply touches_bind; [exact IH |]. intros ys. apply touches_ret.
Qed.

Lemma touches_foldEff {A B} (f : B -> A -> Eff B) (l : list A) (b : B) :
  (forall b x, touchesOnly P (f b x)) -> touchesOnly P (foldEff f l b).
Proof.
  intros Hf. revert b. induction l as [| x l IH]; intros b; cbn [foldEff].
  - apply touches_ret.
  - apply touches_bind; [apply Hf |]. intros b'. apply IH.
Qed.

Lemma touches_fs_readFile (p : string) : touchesOnly P (fs_readFile p).
Proof.
  intros w. unfold fs_readFile. destruct (files w !! p); split; intros; reflexivity.
Qed.

Lemma touches_getEnv : touchesOnly P getEnv.
Proof. intros w. split; intros; reflexivity. Qed.

Lemma touches_Date_now : touchesOnly P Date_now.
Proof. intros w. split; intros; reflexivity. Qed.

Lemma touches_PDFDocument_load (b : FileBytes) : touchesOnly P (PDFDocument_load b).
Proof. destruct b; [apply touches_ret | apply touches_throw]. Qed.

Lemma touches_copyPages (src : PDFDocument) (indices : list Z) :
  touchesOnly P (copyPages src indices).
Proof.
  unfold copyPages. destruct (mapM _ _); [apply touches_ret | apply touches_throw].
Qed.

Lemma touches_writePart (newPdf : PDFDocument) (fileName : Z -> string) :
  (forall e now, P e (path_join (processedDir e) (fileName now))) ->
  touchesOnly P (writePart newPdf fileName).
Proof.
  intros HP w. rewrite writePart_save. cbn [fst]. split; [reflexivity |].
  intros q Hq. change (files (afterWrites ?a ?b ?c)) with a.
  apply lookup_insert_ne. intros <-. apply Hq, HP.
Qed.

End Touch.

Section TouchTransformers.

Variable operationId : string.

Lemma ours_named (suffix : Suffix) (e : Env) (now : Z) :
  ownOutput operationId e (path_join (processedDir e) (outputFileName operationId suffix now)).
Proof. exists suffix, now. reflexivity. Qed.

Lemma touches_mergePdfFiles (inputFiles : list InputFile.t) :
  touchesOnly (ownOutput operationId) (mergePdfFiles inputFiles operationId).
Proof.
  unfold mergePdfFiles.
  apply touches_tryCatch; [| intros e; apply touches_throw].
  apply touches_bind.
  { apply touches_foldEff. intros b x. unfold mergeOne.
    apply touches_bind; [apply touches_fs_readFile |]. intros bytes.
    apply touches_bind; [apply touches_PDFDocument_load |]. intros pdf.
    apply touches_bind; [apply touches_copyPages |]. intros pages. apply touches_ret. }
  intros mergedPdf.
  exact (touches_writePart (ownOutput operationId) mergedPdf (mergedFileName operationId)
           (ours_named MergedOutput)).
Qed.

Lemma touches_splitPdfFile (inputPath : string) (options : Options.t) :
  touchesOnly (ownOutput operationId) (splitPdfFile inputPath operationId options).
Proof.
  unfold splitPdfFile.
  apply touches_tryCatch; [| intros e; apply touches_throw].
  apply touches_bind; [apply touches_fs_readFile |]. intros bytes.
  apply touches_bind; [apply touches_PDFDocument_load |]. intros pdf.
  destruct (String.eqb _ "pages").
  { apply touches_forEach. intros i. unfold splitPage.
    apply touches_bind; [apply touches_copyPages |]. intros pages.
    exact (touches_writePart (ownOutput operationId) pages (pageFileName operationId i)
             (ours_named (PageOutput i))). }
  destruct (String.eqb _ "range").
  { destruct (_ =? _)%nat; [apply touches_throw |].
    apply touches_forEach. intros range. unfold splitRange.
    apply touches_bind; [apply touches_lift |]. intros se.
    apply touches_bind; [apply touches_copyPages |]. intros pages.
    exact (touches_writePart (ownOutput operationId) pages (rangeFileName operationId (fst se) (snd se))
             (ours_named (RangeOutput (fst se) (snd se)))). }
  destruct (String.eqb _ "size"); [| apply touches_throw].
  destruct (maxWithOne _) as [| k]; [apply touches_ret |].
  apply touches_forEach. intros i. unfold splitChunk.
  apply touches_bind; [apply touches_copyPages |]. intros pages.
  exact (touches_writePart (ownOutput operationId) pages (partFileName operationId i)
           (ours_named (PartOutput i))).
Qed.

End TouchTransformers.

(** X6. Neither transformer touches a file that is not one of its own
    outputs: for an operation identifier without a path separator (so
    that the generated name is one file name for [path.join]), whatever
    the inputs and options, and also when the call fails half way, every
    path that is not in the output directory under a name made for this
    operation holds after the call what it held before. Uploaded inputs
    and the outputs of other operations are never overwritten or
    removed. *)
Theorem transformers_touch_only_outputs (w : World) (operationId q : string) :
  includes "/" operationId = false ->
  ~ namedFor (env w) operationId q ->
  (forall inputFiles,
      files (fst (mergePdfFiles inputFiles operationId w)) !! q = files w !! q) /\
  (forall inputPath options,
      files (fst (splitPdfFile inputPath operationId options w)) !! q = files w !! q).
Proof.
  intros _ Hq. split.
  - intros inputFiles.
    exact (proj2 (touches_mergePdfFiles operationId inputFiles w) q Hq).
  - intros inputPath options.
    exact (proj2 (touches_splitPdfFile operationId inputPath options w) q Hq).
Qed.

Lemma not_an_output (operationId name : string) :
  ~ namedFor sampleEnv operationId ("/srv/app/uploads/" +:+ name).
Proof.
  intros (suffix & now & H). unfold path_join in H. cbn [processedDir sampleEnv] in H.
  repeat rewrite app_cons in H. discriminate H.
Qed.

Lemma transformers_touch_only_outputs_sample :
  includes "/" firstId = false /\
  ~ namedFor (env sampleWorld) firstId (MulterFile.path (sampleUpload "six")) /\
  files (fst (splitPdfFile (MulterFile.path (sampleUpload "six")) firstId
                           (rangeOptions ["1-2"; "9"]%string) sampleWorld))
    !! MulterFile.path (sampleUpload "six")
  = files sampleWorld !! MulterFile.path (sampleUpload "six").
Proof.
  assert (~ namedFor (env sampleWorld) firstId (MulterFile.path (sampleUpload "six"))) as H
    by apply not_an_output.
  assert (includes "/" firstId = false) as S by (vm_compute; reflexivity).
  split; [exact S |]. split; [exact H |].
  exact (proj2 (transformers_touch_only_outputs sampleWorld firstId
                  (MulterFile.path (sampleUpload "six")) S H)
               (MulterFile.path (sampleUpload "six")) (rangeOptions ["1-2"; "9"]%string)).
Defined.

(* ===================================================================== *)
(** ** Merging: all inputs or nothing                                     *)
(* ===================================================================== *)

Section MergeOutcome.

Lemma sortInsert_Permutation {A} (cmp : A -> A -> Z) (x : A) (l : list A) :
  Permutation (sortInsert cmp x l) (x :: l).
Proof.
  induction l as [| y l IH]; cbn [sortInsert]; [reflexivity |].
  destruct (cmp x y <=? 0); [reflexivity |].
  rewrite IH. apply perm_swap.
Qed.

Lemma sort_Permutation {A} (cmp : A -> A -> Z) (l : list A) : Permutation (sort cmp l) l.
Proof.
  unfold sort. induction l as [| x l IH]; cbn [foldr]; [reflexivity |].
  rewrite sortInsert_Permutation. now constructor.
Qed.

Lemma concat_Permutation {A} (l l' : list (list A)) :
  Permutation l l' -> Permutation (concat l) (concat l').
Proof.
  induction 1 as [| x l l' _ IH | x y l | l l' l'' _ IH1 _ IH2]; cbn [concat].
  - reflexivity.
  - now apply Permutation_app_head.
  - rewrite !app_assoc. apply Permutation_app_tail, Permutation_app_comm.
  - now transitivity (concat l').
Qed.


Lemma loadable_dec (w : World) (f : InputFile.t) : loadable w f \/ ~ loadable w f.
Proof.
  unfold loadable. destruct (files w !! InputFile.path f) as [[d | s] |].
  - left. now exists d.
  - right. intros (d & H). discriminate.
  - right. intros (d & H). discriminate.
Qed.

Lemma mergeOne_unreadable (w : World) (mergedPdf : PDFDocument) (file : InputFile.t) :
  ~ loadable w file -> exists e, mergeOne mergedPdf file w = (w, Throw e).
Proof.
  intros H. unfold mergeOne, bind, fs_readFile, loadable in *.
  destruct (files w !! InputFile.path file) as [[d | s] |].
  - exfalso. apply H. now exists d.
  - cbn. eauto.
  - eauto.
Qed.

(** The merge loop never changes the world; it throws exactly when one of
    the files cannot be loaded. *)
Lemma foldEff_merge_outcome (w : World) (l : list InputFile.t) (mergedPdf : PDFDocument) :
  (Forall (loadable w) l /\ exists doc, foldEff mergeOne l mergedPdf w = (w, Return doc)) \/
  (Exists (fun f => ~ loadable w f) l /\
   exists e, foldEff mergeOne l mergedPdf w = (w, Throw e)).
Proof.
  revert mergedPdf. induction l as [| f l IH]; intros mergedPdf; cbn [foldEff].
  - left. split; [constructor | now exists mergedPdf].
  - destruct (loadable_dec w f) as [(d & Hd) | Hf].
    + rewrite !(bind_return _ _ _ _ _ (mergeOne_run w mergedPdf d f Hd)).
      destruct (IH (mergedPdf ++ d)) as [[Hall Hr] | [Hex Ht]].
      * left. split; [constructor; [now exists d | exact Hall] | exact Hr].
      * right. split; [now apply Exists_cons_tl | exact Ht].
    + right. split; [now apply Exists_cons_hd |].
      destruct (mergeOne_unreadable w mergedPdf f Hf) as (e & He).
      exists e. unfold bind. now rewrite He.
Qed.



(** A merge that throws leaves the world as it was. *)
Lemma merge_all_or_nothing_world (w : World) (inputFiles : list InputFile.t)
    (operationId : string) (e : JsError) :
  snd (mergePdfFiles inputFiles operationId w) = Throw e ->
  fst (mergePdfFiles inputFiles operationId w) = w.
Proof.
  unfold mergePdfFiles, tryCatch, bind.
  destruct (foldEff_merge_outcome w
              (sort (fun a b => orderOrZero a - orderOrZero b) inputFiles) [])
    as [[_ (doc & ->)] | [_ (e0 & ->)]].
  - cbn. discriminate.
  - reflexivity.
Qed.

End MergeOutcome.




(* ===================================================================== *)
(** ** Validation and metadata of a file                                  *)
(* ===================================================================== *)


(** X10. [getPdfMetadata] never throws the error it means to throw. For
    a PDF it returns the metadata, with the page count of the document;
    for a file that is missing or is not a PDF its [catch] block calls
    [debug], which the module does not define (it imports [debugPdf]), so
    the call fails with [ReferenceError: debug is not defined] and the
    message [Failed to read PDF metadata: ...] is never produced. *)
Theorem getPdfMetadata_outcome (info : PDFDocument -> DocumentInfo.t) (w : World)
    (filePath : string) :
  (exists pdf metadata_,
      files w !! filePath = Some (PdfBytes pdf) /\
      getPdfMetadata info filePath w = (w, Return metadata_) /\
      PdfMetadata.pageCount metadata_ = Z.of_nat (length pdf)) \/
  ((forall pdf, files w !! filePath <> Some (PdfBytes pdf)) /\
   getPdfMetadata info filePath w
   = (w, Throw (mkError ReferenceError "debug is not defined" None))).
Proof.
  unfold getPdfMetadata, tryCatch, bind, fs_readFile.
  destruct (files w !! filePath) as [[pdf | raw] |] eqn:Hin; cbn [PDFDocument_load ret throw].
  - left. exists pdf. eexists. split; [reflexivity |]. split; reflexivity.
  - right. split; [intros pdf; discriminate | reflexivity].
  - right. split; [intros pdf; discriminate | reflexivity].
Qed.

(* ===================================================================== *)
(** * Operation records: lookup, uniqueness and the executors             *)
(* ===================================================================== *)

Section Lookup.

Lemma duplicateKey_false (op : PdfOperation) (coll : gmap nat PdfOperation) :
  duplicateKey op coll = false <->
  forall k op', coll !! k = Some op' -> operationId op' <> operationId op.
Proof.
  unfold duplicateKey. rewrite <- not_true_iff_false, existsb_exists. split.
  - intros H k op' Hk Heq. apply H. exists (k, op'). split.
    + apply list_elem_of_In, elem_of_map_to_list. exact Hk.
    + cbn. now apply String.eqb_eq.
  - intros H ((k & op') & Hin & Heq).
    apply list_elem_of_In, elem_of_map_to_list in Hin.
    cbn in Heq. apply String.eqb_eq in Heq. exact (H k op' Hin Heq).
Qed.

Lemma findByOperationId_found (operationId_ : string) (w : World) (op : PdfOperation) :
  snd (findByOperationId operationId_ w) = Return (Some op) ->
  operationId op = operationId_ /\ exists k, collection w !! k = Some op.
Proof.
  unfold findByOperationId. cbn [snd]. intros [= H].
  destruct (List.find _ _) as [[k op'] |] eqn:E; [| discriminate].
  cbn in H. injection H as ->.
  apply find_some in E as [Hin Heq]. cbn in Heq. apply String.eqb_eq in Heq.
  split; [exact Heq |]. exists k. now apply elem_of_map_to_list, list_elem_of_In.
Qed.

Lemma findByOperationId_none (operationId_ : string) (w : World) :
  snd (findByOperationId operationId_ w) = Return None <->
  forall k op, collection w !! k = Some op -> operationId op <> operationId_.
Proof.
  unfold findByOperationId. cbn [snd]. split.
  - intros [= H] k op Hk Heq.
    destruct (List.find _ _) as [[k' op'] |] eqn:E; [discriminate |].
    pose proof (find_none _ _ E (k, op)) as N. cbn in N.
    rewrite (proj2 (String.eqb_eq _ _) Heq) in N.
    discriminate N. now apply list_elem_of_In, elem_of_map_to_list.
  - intros H. destruct (List.find _ _) as [[k op] |] eqn:E; [| reflexivity].
    apply find_some in E as [Hin Heq]. cbn in Heq. apply String.eqb_eq in Heq.
    apply list_elem_of_In, elem_of_map_to_list in Hin. now destruct (H k op Hin).
Qed.

(** The document stored under [k] is the one found by its identifier when
    no other stored document has that identifier. *)
Lemma findByOperationId_only (w : World) (k : nat) (op : PdfOperation) :
  collection w !! k = Some op ->
  (forall k' op', collection w !! k' = Some op' -> operationId op' = operationId op ->
                  k' = k) ->
  findByOperationId (operationId op) w = (w, Return (Some op)).
Proof.
  intros Hk Honly. unfold findByOperationId. do 2 f_equal.
  destruct (List.find _ _) as [[k' op'] |] eqn:E.
  - apply find_some in E as [Hin Heq]. cbn in Heq. apply String.eqb_eq in Heq.
    apply list_elem_of_In, elem_of_map_to_list in Hin.
    pose proof (Honly k' op' Hin Heq) as ->. cbn. congruence.
  - pose proof (find_none _ _ E (k, op)) as N. cbn in N.
    rewrite String.eqb_refl in N. discriminate N.
    now apply list_elem_of_In, elem_of_map_to_list.
Qed.

Lemma uniqueIds_singleton (k : nat) (op : PdfOperation) : uniqueIds {[k := op]}.
Proof.
  intros i j a b Hi Hj _.
  apply lookup_singleton_Some in Hi as [<- _]. apply lookup_singleton_Some in Hj as [<- _].
  reflexivity.
Qed.

End Lookup.

(** X11. [findByOperationId] never throws and changes nothing. What it
    finds is a persisted document with the identifier asked for; it finds
    nothing exactly when no persisted document has that identifier; and
    when identifiers are unique it finds the very document that has it. *)
Theorem findByOperationId_lookup (w : World) (operationId_ : string) :
  exists found,
    findByOperationId operationId_ w = (w, Return found) /\
    (forall op, found = Some op ->
       operationId op = operationId_ /\ exists k, collection w !! k = Some op) /\
    (found = None <->
     forall k op, collection w !! k = Some op -> operationId op <> operationId_) /\
    (uniqueIds (collection w) ->
     forall k op, collection w !! k = Some op -> operationId op = operationId_ ->
                  found = Some op).
Proof.
  destruct (findByOperationId operationId_ w) as [w' o] eqn:E.
  assert (w' = w) as -> by (unfold findByOperationId in E; congruence).
  assert (exists found, o = Return found) as (found & ->)
    by (unfold findByOperationId in E; injection E as <-; eauto).
  exists found. split; [reflexivity |]. split; [| split].
  - intros op ->. apply (findByOperationId_found operationId_ w). now rewrite E.
  - rewrite <- (findByOperationId_none operationId_ w), E. cbn [snd].
    split; [now intros -> | now intros [= ->]].
  - intros Hu k op Hk Hid. subst operationId_.
    rewrite (findByOperationId_only w k op Hk) in E; [congruence |].
    intros k' op' Hk' Heq. exact (Hu k' k op' op Hk' Hk Heq).
Qed.

Section Saving.

Lemma save_insert_run (w : World) (this : nat) (op : PdfOperation) :
  documents w !! this = Some op ->
  validate op = None ->
  collection w !! this = None ->
  (forall k op', collection w !! k = Some op' -> operationId op' <> operationId op) ->
  save this w = (persist this op w, Return tt).
Proof.
  intros Hdoc Hv Hnew Hfree. unfold save. rewrite Hdoc, Hv, Hnew.
  now rewrite (proj2 (duplicateKey_false op (collection w)) Hfree).
Qed.

Lemma save_collection (w : World) (this : nat) (op : PdfOperation) :
  documents w !! this = Some op ->
  collection (fst (save this w)) = collection w \/
  (collection (fst (save this w)) = <[this := op]> (collection w) /\
   (collection w !! this = None -> duplicateKey op (collection w) = false)).
Proof.
  intros Hdoc. unfold save. rewrite Hdoc.
  destruct (validate op); [now left |].
  destruct (collection w !! this) eqn:Hc.
  - right. split; [reflexivity | discriminate].
  - destruct (duplicateKey op (collection w)) eqn:Hd; [now left |].
    right. split; [reflexivity | reflexivity].
Qed.

End Saving.

(** X12. The identifiers of the persisted operations stay unique. Saving
    a document whose identifier is already persisted under another
    identity is refused with a duplicate key error and writes nothing;
    and any [save] of a document that did not change its identifier
    leaves a collection without duplicate identifiers as such. *)
Theorem operation_ids_stay_unique (w : World) (this : nat) (op : PdfOperation) :
  documents w !! this = Some op ->
  uniqueIds (collection w) ->
  (forall old, collection w !! this = Some old -> operationId old = operationId op) ->
  uniqueIds (collection (fst (save this w))) /\
  (validate op = None -> collection w !! this = None ->
   (exists other stored, collection w !! other = Some stored /\
                         operationId stored = operationId op) ->
   exists e, save this w = (w, Throw e) /\ name e = MongoServerError).
Proof.
  intros Hdoc Hu Hsame. split.
  - destruct (save_collection w this op Hdoc) as [-> | [-> Hfresh]]; [exact Hu |].
    intros i j a b Hi Hj Heq.
    destruct (decide (i = this)) as [-> | Ni], (decide (j = this)) as [-> | Nj];
      [reflexivity | | |].
    + rewrite lookup_insert_eq in Hi. injection Hi as <-.
      rewrite lookup_insert_ne in Hj by congruence.
      destruct (collection w !! this) as [old |] eqn:Hold.
      * apply (Hu this j old b Hold Hj). rewrite (Hsame old eq_refl). exact Heq.
      * pose proof (proj1 (duplicateKey_false op (collection w)) (Hfresh eq_refl) j b Hj).
        congruence.
    + rewrite lookup_insert_eq in Hj. injection Hj as <-.
      rewrite lookup_insert_ne in Hi by congruence.
      destruct (collection w !! this) as [old |] eqn:Hold.
      * apply (Hu i this a old Hi Hold). rewrite (Hsame old eq_refl). exact Heq.
      * pose proof (proj1 (duplicateKey_false op (collection w)) (Hfresh eq_refl) i a Hi).
        congruence.
    + rewrite lookup_insert_ne in Hi, Hj by congruence. exact (Hu i j a b Hi Hj Heq).
  - intros Hv Hnew (other & stored & Hother & Hid).
    unfold save. rewrite Hdoc, Hv, Hnew.
    destruct (duplicateKey op (collection w)) eqn:Hd.
    + eexists. split; reflexivity.
    + exfalso. exact (proj1 (duplicateKey_false op (collection w)) Hd other stored Hother Hid).
Qed.

Lemma operation_ids_stay_unique_sample :
  exists op,
    documents withSecondDocument !! 1%nat = Some op /\
    uniqueIds (collection withSecondDocument) /\
    (forall old, collection withSecondDocument !! 1%nat = Some old ->
                 operationId old = operationId op) /\
    validate op = None /\
    collection withSecondDocument !! 1%nat = None /\
    (exists other stored, collection withSecondDocument !! other = Some stored /\
                          operationId stored = operationId op) /\
    exists e, save 1 withSecondDocument = (withSecondDocument, Throw e) /\
              name e = MongoServerError.
Proof.
  eexists.
  split; [vm_compute; reflexivity |].
  assert (exists stored, collection withSecondDocument = {[0%nat := stored]}) as (stored & C)
    by (eexists; vm_compute; reflexivity).
  assert (uniqueIds (collection withSecondDocument)) as U
    by (rewrite C; apply uniqueIds_singleton).
  assert (collection withSecondDocument !! 1%nat = None) as N by (vm_compute; reflexivity).
  split; [exact U |].
  match goal with
  | |- (forall old, _ -> operationId old = operationId ?op) /\ _ =>
      assert (forall old, collection withSecondDocument !! 1%nat = Some old ->
                          operationId old = operationId op) as S
        by (intros old H; rewrite N in H; discriminate H);
      assert (validate op = None) as V by (vm_compute; reflexivity);
      assert (exists other stored, collection withSecondDocument !! other = Some stored /\
                                   operationId stored = operationId op) as D
        by (exists 0%nat; eexists; split; vm_compute; reflexivity);
      split; [exact S |]; split; [exact V |]; split; [exact N |]; split; [exact D |];
      refine (proj2 (operation_ids_stay_unique withSecondDocument 1 op _ U S) V N D);
      vm_compute; reflexivity
  end.
Defined.

(* ===================================================================== *)
(** ** What the executors record                                          *)
(* ===================================================================== *)

Section ExecutorOutcome.

Lemma started_eq (w : World) (this : nat) (op : PdfOperation) :
  documents w !! this = Some op -> is_Some (collection w !! this) -> storable op ->
  started this w = transitioned this (processingAt (clock (env w) (ticks w)) op) w.
Proof.
  intros Hdoc Hcoll Hst. unfold started.
  now rewrite (markAsProcessing_run w this op Hdoc Hcoll Hst).
Qed.

Lemma executor_outcome (this : nat) (work : Eff (list OutputFile.t)) (w : World)
    (op : PdfOperation) :
  keepsRecords work ->
  documents w !! this = Some op ->
  is_Some (collection w !! this) ->
  storable op ->
  executor this work w
  = (transitioned this
       (match snd (work (started this w)) with
        | Return outs =>
            completedAt (clock (env (fst (work (started this w))))
                               (ticks (fst (work (started this w)))))
                        outs (processingAt (clock (env w) (ticks w)) op)
        | Throw e =>
            failedAt (clock (env (fst (work (started this w))))
                            (ticks (fst (work (started this w)))))
                     (message e) (processingAt (clock (env w) (ticks w)) op)
        end)
       (fst (work (started this w))),
     Return tt).
Proof.
  intros Hwork Hdoc Hcoll Hst. unfold executor.
  rewrite (started_eq w this op Hdoc Hcoll Hst).
  set (op1 := processingAt (clock (env w) (ticks w)) op).
  set (w1 := transitioned this op1 w).
  assert (documents w1 !! this = Some op1) as Hdoc1 by (cbn; apply lookup_insert_eq).
  assert (is_Some (collection w1 !! this)) as Hcoll1
    by (exists op1; cbn; apply lookup_insert_eq).
  assert (storable op1) as Hst1 by (apply storable_fieldsOk; now apply storable_fieldsOk in Hst).
  destruct (work w1) as [w2 r] eqn:Ework.
  pose proof (Hwork w1) as Hsame. rewrite Ework in Hsame. cbn in Hsame.
  destruct Hsame as (_ & _ & _ & Hd & Hc & Ho).
  assert (documents w2 !! this = Some op1) as Hdoc2 by (now rewrite Hd).
  assert (is_Some (collection w2 !! this)) as Hcoll2 by (now rewrite Hc).
  cbn [fst snd]. destruct r as [outs | e].
  - apply tryCatch_return.
    rewrite (bind_return _ _ _ _ _ (markAsProcessing_run w this op Hdoc Hcoll Hst)).
    fold op1 w1. rewrite (bind_return _ _ _ _ _ Ework).
    apply (markAsCompleted_run w2 this op1 Hdoc2 Hcoll2 outs Hst1). discriminate.
  - erewrite tryCatch_throw.
    + apply (markAsFailed_run w2 this op1 Hdoc2 Hcoll2 (message e) Hst1).
    + rewrite (bind_return _ _ _ _ _ (markAsProcessing_run w this op Hdoc Hcoll Hst)).
      fold op1 w1. now rewrite (bind_throw _ _ _ _ _ Ework).
Qed.

Lemma started_document (w : World) (this : nat) (op : PdfOperation) :
  documents w !! this = Some op -> is_Some (collection w !! this) -> storable op ->
  getDocument this (started this w)
  = (started this w, Return (processingAt (clock (env w) (ticks w)) op)).
Proof.
  intros Hdoc Hcoll Hst. rewrite (started_eq w this op Hdoc Hcoll Hst).
  unfold getDocument. cbn. now rewrite lookup_insert_eq.
Qed.

End ExecutorOutcome.

Section Written.

Lemma writePart_written (newPdf : PDFDocument) (fileName : Z -> string) (w w' : World)
    (y : string) :
  writePart newPdf fileName w = (w', Return y) -> is_Some (files w' !! y).
Proof.
  rewrite writePart_save. intros [= <- <-]. eexists.
  change (files (afterWrites ?a ?b ?c)) with a. apply lookup_insert_eq.
Qed.

Lemma writePart_mono (newPdf : PDFDocument) (fileName : Z -> string) (w : World) (q : string) :
  is_Some (files w !! q) -> is_Some (files (fst (writePart newPdf fileName w)) !! q).
Proof.
  intros H. rewrite writePart_save. cbn [fst].
  change (files (afterWrites ?a ?b ?c)) with a.
  apply lookup_insert_is_Some'. now right.
Qed.

Lemma written_bind {R} (c : Eff R) (k : R -> Eff string) :
  (forall w w' o, c w = (w', o) -> w' = w) ->
  (forall r w w' y, k r w = (w', Return y) -> is_Some (files w' !! y)) ->
  forall w w' y, bind c k w = (w', Return y) -> is_Some (files w' !! y).
Proof.
  intros Hc Hk w w' y. unfold bind. destruct (c w) as [w1 [r | e]] eqn:E; [| discriminate].
  apply Hk.
Qed.

Lemma mono_bind {R} (c : Eff R) (k : R -> Eff string) :
  (forall w w' o, c w = (w', o) -> w' = w) ->
  (forall r w q, is_Some (files w !! q) -> is_Some (files (fst (k r w)) !! q)) ->
  forall w q, is_Some (files w !! q) -> is_Some (files (fst (bind c k w)) !! q).
Proof.
  intros Hc Hk w q Hq. unfold bind. destruct (c w) as [w1 [r | e]] eqn:E.
  - apply Hk. now rewrite (Hc _ _ _ E).
  - cbn. now rewrite (Hc _ _ _ E).
Qed.

Lemma lift_world {A} (o : Outcome A) (w w' : World) (o' : Outcome A) :
  lift o w = (w', o') -> w' = w.
Proof. unfold lift. congruence. Qed.

Lemma forEach_mono {A} (f : A -> Eff string) (l : list A) :
  (forall x w q, is_Some (files w !! q) -> is_Some (files (fst (f x w)) !! q)) ->
  forall w q, is_Some (files w !! q) -> is_Some (files (fst (forEach f l w)) !! q).
Proof.
  intros Hf. induction l as [| x l IH]; intros w q Hq; cbn [forEach]; [exact Hq |].
  unfold bind at 1. pose proof (Hf x w q Hq) as H1.
  destruct (f x w) as [w1 [y | e]]; cbn [fst] in *; [| exact H1].
  unfold bind. pose proof (IH w1 q H1) as H2.
  destruct (forEach f l w1) as [w2 [ys | e]]; exact H2.
Qed.

Lemma forEach_written {A} (f : A -> Eff string) (l : list A) :
  (forall x w w' y, f x w = (w', Return y) -> is_Some (files w' !! y)) ->
  (forall x w q, is_Some (files w !! q) -> is_Some (files (fst (f x w)) !! q)) ->
  forall w w' ys, forEach f l w = (w', Return ys) ->
                  Forall (fun y => is_Some (files w' !! y)) ys.
Proof.
  intros Hw Hm. induction l as [| x l IH]; intros w w' ys; cbn [forEach].
  - intros [= <- <-]. constructor.
  - unfold bind at 1. destruct (f x w) as [w1 [y | e]] eqn:E1; [| discriminate].
    unfold bind. destruct (forEach f l w1) as [w2 [ys' | e]] eqn:E2; [| discriminate].
    intros [= <- <-]. constructor.
    + pose proof (forEach_mono f l Hm w1 y (Hw _ _ _ _ E1)) as H. now rewrite E2 in H.
    + exact (IH _ _ _ E2).
Qed.

Lemma splitPage_written (pdf : PDFDocument) (operationId : string) :
  (forall x w w' y, splitPage pdf operationId x w = (w', Return y) -> is_Some (files w' !! y)) /\
  (forall x w q, is_Some (files w !! q) ->
                 is_Some (files (fst (splitPage pdf operationId x w)) !! q)).
Proof.
  split; intros x; unfold splitPage.
  - apply written_bind; [apply copyPages_world |]. intros r. apply writePart_written.
  - apply mono_bind; [apply copyPages_world |]. intros r. apply writePart_mono.
Qed.

Lemma splitRange_written (pdf : PDFDocument) (operationId : string) (totalPages : Z) :
  (forall x w w' y, splitRange pdf operationId totalPages x w = (w', Return y) ->
                    is_Some (files w' !! y)) /\
  (forall x w q, is_Some (files w !! q) ->
                 is_Some (files (fst (splitRange pdf operationId totalPages x w)) !! q)).
Proof.
  split; intros x; unfold splitRange.
  - apply written_bind; [apply lift_world |]. intros se.
    apply written_bind; [apply copyPages_world |]. intros r. apply writePart_written.
  - apply mono_bind; [apply lift_world |]. intros se.
    apply mono_bind; [apply copyPages_world |]. intros r. apply writePart_mono.
Qed.

Lemma splitChunk_written (pdf : PDFDocument) (operationId : string) (totalPages k : Z) :
  (forall x w w' y, splitChunk pdf operationId totalPages k x w = (w', Return y) ->
                    is_Some (files w' !! y)) /\
  (forall x w q, is_Some (files w !! q) ->
                 is_Some (files (fst (splitChunk pdf operationId totalPages k x w)) !! q)).
Proof.
  split; intros x; unfold splitChunk.
  - apply written_bind; [apply copyPages_world |]. intros r. apply writePart_written.
  - apply mono_bind; [apply copyPages_world |]. intros r. apply writePart_mono.
Qed.

(** Every path a split returns is the path of a file that exists when
    the split returns. *)
Lemma splitPdfFile_written (inputPath operationId : string) (options : Options.t)
    (w w' : World) (paths : list string) :
  splitPdfFile inputPath operationId options w = (w', Return paths) ->
  Forall (fun q => is_Some (files w' !! q)) paths.
Proof.
  unfold splitPdfFile, tryCatch.
  match goal with |- context [bind ?c ?k w] => destruct (bind c k w) as [w1 [ps | e]] eqn:E end;
    [| unfold throw; discriminate].
  intros [= <- <-]. revert E.
  unfold bind at 1, fs_readFile. destruct (files w !! inputPath) as [b |]; [| discriminate].
  unfold bind at 1. destruct b as [pdf | raw]; cbn [PDFDocument_load]; [| discriminate].
  unfold ret at 1.
  destruct (String.eqb _ "pages").
  { apply forEach_written; apply splitPage_written. }
  destruct (String.eqb _ "range").
  { destruct (_ =? _)%nat; [discriminate |].
    apply forEach_written; apply splitRange_written. }
  destruct (String.eqb _ "size"); [| discriminate].
  destruct (maxWithOne _) as [| k].
  { intros [= <- <-]. constructor. }
  apply forEach_written; apply splitChunk_written.
Qed.

(** The path a merge returns is the path of the PDF it wrote. *)
Lemma mergePdfFiles_written (inputFiles : list InputFile.t) (operationId : string)
    (w w' : World) (out : string) :
  mergePdfFiles inputFiles operationId w = (w', Return out) ->
  exists merged, files w' !! out = Some (PdfBytes merged).
Proof.
  unfold mergePdfFiles, tryCatch, bind.
  destruct (foldEff_merge_outcome w
              (sort (fun a b => orderOrZero a - orderOrZero b) inputFiles) [])
    as [[_ (doc & ->)] | [_ (e & ->)]]; [| discriminate].
  cbn. intros [= <- <-].
  exists (withDefaultPage doc). cbn. now rewrite lookup_insert_eq.
Qed.

Lemma stat_all (paths : list string) (w : World) :
  Forall (fun q => is_Some (files w !! q)) paths ->
  forEach (fun outputPath => size <- fs_stat outputPath ;; ret (toOutputFile outputPath size))
          paths w
  = (w, Return ((fun p => toOutputFile p (sizeAt w p)) <$> paths)).
Proof.
  induction 1 as [| p paths [b Hp] _ IH]; [reflexivity |].
  cbn [forEach fmap list_fmap].
  assert ((size <- fs_stat p ;; ret (toOutputFile p size)) w
          = (w, Return (toOutputFile p (sizeAt w p)))) as Hstep.
  { unfold bind, fs_stat, sizeAt. rewrite Hp. reflexivity. }
  rewrite (bind_return _ _ _ _ _ Hstep). rewrite (bind_return _ _ _ _ _ IH). reflexivity.
Qed.

End Written.

(** X13. What the split executor records. On a stored document it never
    throws and ends with one of two persisted states. If the split
    succeeds: status [completed], one output entry per written file, in
    the order of the split, each with the size of its file, every listed
    file present, and a duration equal to the [processingDuration]
    virtual. If the split throws: status [failed], the message of the error
    as [errorMessage], and the output entries and the duration exactly as
    the document had them before the run (the executor neither adds nor
    clears any), while the files the split wrote before it failed stay in
    place. *)
Theorem split_executor_outcome (w : World) (this : nat) (op : PdfOperation)
    (inputFile : MulterFile.t) (options : Options.t) :
  documents w !! this = Some op ->
  is_Some (collection w !! this) ->
  storable op ->
  exists w' final,
    processSplitOperation this inputFile options w = (w', Return tt) /\
    collection w' !! this = Some final /\
    files w'
    = files (fst (splitPdfFile (MulterFile.path inputFile) (operationId op) options
                               (started this w))) /\
    match snd (splitPdfFile (MulterFile.path inputFile) (operationId op) options
                            (started this w)) with
    | Return outputPaths =>
        status final = "completed"%string /\
        outputFiles final = (fun p => toOutputFile p (sizeAt w' p)) <$> outputPaths /\
        Forall (fun p => is_Some (files w' !! p)) outputPaths /\
        exists d, Processing.duration (processing final) = Some (Num d) /\
                  processingDuration final = Some d
    | Throw e =>
        status final = "failed"%string /\
        outputFiles final = outputFiles op /\
        Processing.errorMessage (processing final) = Some (message e) /\
        Processing.duration (processing final) = Processing.duration (processing op)
    end.
Proof.
  intros Hdoc Hcoll Hst.
  rewrite processSplitOperation_executor.
  rewrite (executor_outcome this _ w op (keeps_splitWork _ _ _) Hdoc Hcoll Hst).
  assert (splitWork this inputFile options (started this w)
          = match splitPdfFile (MulterFile.path inputFile) (operationId op) options
                               (started this w) with
            | (w2, Return paths) =>
                (w2, Return ((fun p => toOutputFile p (sizeAt w2 p)) <$> paths))
            | (w2, Throw e) => (w2, Throw e)
            end) as Hwork.
  { unfold splitWork. rewrite (bind_return _ _ _ _ _ (started_document w this op Hdoc Hcoll Hst)).
    change (operationId (processingAt (clock (env w) (ticks w)) op)) with (operationId op).
    unfold bind.
    destruct (splitPdfFile _ _ _ (started this w)) as [w2 [paths | e]] eqn:E; [| reflexivity].
    apply stat_all. exact (splitPdfFile_written _ _ _ _ _ _ E). }
  rewrite Hwork.
  destruct (splitPdfFile _ _ _ (started this w)) as [w2 [paths | e]] eqn:E; cbn [fst snd].
  - eexists. eexists. split; [reflexivity |]. split; [cbn; apply lookup_insert_eq |].
    split; [reflexivity |]. split; [reflexivity |]. split; [reflexivity |].
    split; [exact (splitPdfFile_written _ _ _ _ _ _ E) |].
    eexists. split; reflexivity.
  - eexists. eexists. split; [reflexivity |]. split; [cbn; apply lookup_insert_eq |].
    split; [reflexivity |]. repeat split.
Qed.

Lemma split_executor_outcome_sample :
  exists op,
    documents afterMerge201 !! 0%nat = Some op /\
    is_Some (collection afterMerge201 !! 0%nat) /\
    storable op /\
    exists w' final,
      processSplitOperation 0 (sampleUpload "six") (rangeOptions ["1-2"; "9"]%string)
                            afterMerge201 = (w', Return tt) /\
      collection w' !! 0%nat = Some final /\
      files w'
      = files (fst (splitPdfFile (MulterFile.path (sampleUpload "six")) (operationId op)
                                 (rangeOptions ["1-2"; "9"]%string) (started 0 afterMerge201))) /\
      match snd (splitPdfFile (MulterFile.path (sampleUpload "six")) (operationId op)
                              (rangeOptions ["1-2"; "9"]%string) (started 0 afterMerge201)) with
      | Return outputPaths =>
          status final = "completed"%string /\
          outputFiles final = (fun p => toOutputFile p (sizeAt w' p)) <$> outputPaths /\
          Forall (fun p => is_Some (files w' !! p)) outputPaths /\
          exists d, Processing.duration (processing final) = Some (Num d) /\
                    processingDuration final = Some d
      | Throw e =>
          status final = "failed"%string /\
          outputFiles final = outputFiles op /\
          Processing.errorMessage (processing final) = Some (message e) /\
          Processing.duration (processing final) = Processing.duration (processing op)
      end.
Proof.
  eexists. split; [vm_compute; reflexivity |].
  assert (is_Some (collection afterMerge201 !! 0%nat)) as C
    by (eexists; vm_compute; reflexivity).
  split; [exact C |].
  match goal with
  | |- storable ?op /\ _ =>
      assert (storable op) as S by (apply storable_fieldsOk; vm_compute; reflexivity);
      split; [exact S |];
      refine (split_executor_outcome afterMerge201 0 op (sampleUpload "six")
                (rangeOptions ["1-2"; "9"]%string) _ C S)
  end.
  vm_compute. reflexivity.
Defined.

(** X14. What the merge executor records. The files handed to the
    transformer are the uploads in upload order when there is no merge
    order, and otherwise the uploads the order names, in that order,
    entries outside the uploads being dropped. On a stored document the
    executor never throws. If the merge succeeds, the persisted state is
    [completed] with exactly one output entry, for the file the merge
    wrote, which exists and is a PDF, and with a duration equal to the
    [processingDuration] virtual. If the merge throws, the state is
    [failed] with the message of the error, the output entries and the
    duration exactly as the document had them before the run (the
    executor neither adds nor clears any), and not a single file has
    changed. *)
Theorem merge_executor_outcome (w : World) (this : nat) (op : PdfOperation)
    (inputFiles : list InputFile.t) (mergeOrder : list Z) :
  documents w !! this = Some op ->
  is_Some (collection w !! this) ->
  storable op ->
  exists w' final,
    processMergeOperation this inputFiles mergeOrder w = (w', Return tt) /\
    collection w' !! this = Some final /\
    match snd (mergePdfFiles (orderedFiles inputFiles mergeOrder) (operationId op)
                             (started this w)) with
    | Return out =>
        status final = "completed"%string /\
        outputFiles final = [toOutputFile out (sizeAt w' out)] /\
        (exists merged, files w' !! out = Some (PdfBytes merged)) /\
        exists d, Processing.duration (processing final) = Some (Num d) /\
                  processingDuration final = Some d
    | Throw e =>
        status final = "failed"%string /\
        outputFiles final = outputFiles op /\
        Processing.errorMessage (processing final) = Some (message e) /\
        Processing.duration (processing final) = Processing.duration (processing op) /\
        files w' = files w
    end.
Proof.
  intros Hdoc Hcoll Hst.
  rewrite processMergeOperation_executor.
  change (if (0 <? length mergeOrder)%nat
          then omap (fun index => itemAt inputFiles index) mergeOrder
          else inputFiles) with (orderedFiles inputFiles mergeOrder).
  rewrite (executor_outcome this _ w op (keeps_mergeWork _ _) Hdoc Hcoll Hst).
  assert (mergeWork this (orderedFiles inputFiles mergeOrder) (started this w)
          = match mergePdfFiles (orderedFiles inputFiles mergeOrder) (operationId op)
                                (started this w) with
            | (w2, Return out) => (w2, Return [toOutputFile out (sizeAt w2 out)])
            | (w2, Throw e) => (w2, Throw e)
            end) as Hwork.
  { unfold mergeWork. rewrite (bind_return _ _ _ _ _ (started_document w this op Hdoc Hcoll Hst)).
    change (operationId (processingAt (clock (env w) (ticks w)) op)) with (operationId op).
    unfold bind.
    destruct (mergePdfFiles _ _ (started this w)) as [w2 [out | e]] eqn:E; [| reflexivity].
    destruct (mergePdfFiles_written _ _ _ _ _ E) as (merged & Hout).
    unfold fs_stat, sizeAt. rewrite Hout. reflexivity. }
  rewrite Hwork.
  pose proof (merge_all_or_nothing_world (started this w)
                (orderedFiles inputFiles mergeOrder) (operationId op)) as Hsame.
  destruct (mergePdfFiles _ _ (started this w)) as [w2 [out | e]] eqn:E; cbn [fst snd].
  - eexists. eexists. split; [reflexivity |]. split; [cbn; apply lookup_insert_eq |].
    split; [reflexivity |]. split; [reflexivity |].
    split; [exact (mergePdfFiles_written _ _ _ _ _ E) |].
    eexists. split; reflexivity.
  - eexists. eexists. split; [reflexivity |]. split; [cbn; apply lookup_insert_eq |].
    split; [reflexivity |]. split; [reflexivity |]. split; [reflexivity |].
    split; [reflexivity |].
    cbn [files transitioned persist set_documents set_ticks].
    pose proof (Hsame e eq_refl) as Hw2. cbn [fst] in Hw2.
    rewrite Hw2, (started_eq w this op Hdoc Hcoll Hst). reflexivity.
Qed.

Lemma merge_executor_outcome_sample :
  exists op,
    documents afterMerge201 !! 0%nat = Some op /\
    is_Some (collection afterMerge201 !! 0%nat) /\
    storable op /\
    exists w' final,
      processMergeOperation 0 twoInputs [1; 7] afterMerge201 = (w', Return tt) /\
      collection w' !! 0%nat = Some final /\
      match snd (mergePdfFiles (orderedFiles twoInputs [1; 7]) (operationId op)
                               (started 0 afterMerge201)) with
      | Return out =>
          status final = "completed"%string /\
          outputFiles final = [toOutputFile out (sizeAt w' out)] /\
          (exists merged, files w' !! out = Some (PdfBytes merged)) /\
          exists d, Processing.duration (processing final) = Some (Num d) /\
                    processingDuration final = Some d
      | Throw e =>
          status final = "failed"%string /\
          outputFiles final = outputFiles op /\
          Processing.errorMessage (processing final) = Some (message e) /\
          Processing.duration (processing final) = Processing.duration (processing op) /\
          files w' = files afterMerge201
      end.
Proof.
  eexists. split; [vm_compute; reflexivity |].
  assert (is_Some (collection afterMerge201 !! 0%nat)) as C
    by (eexists; vm_compute; reflexivity).
  split; [exact C |].
  match goal with
  | |- storable ?op /\ _ =>
      assert (storable op) as S by (apply storable_fieldsOk; vm_compute; reflexivity);
      split; [exact S |];
      refine (merge_executor_outcome afterMerge201 0 op twoInputs [1; 7] _ C S)
  end.
  vm_compute. reflexivity.
Defined.

(* ===================================================================== *)
(** * The handlers that report on an operation                            *)
(* ===================================================================== *)

Section Reports.

Lemma findByOperationId_eq (operationId_ : string) (w : World) :
  findByOperationId operationId_ w = (w, snd (findByOperationId operationId_ w)).
Proof. reflexivity. Qed.

Lemma findByOperationId_missing (operationId_ : string) (w : World) :
  (forall k op, collection w !! k = Some op -> operationId op <> operationId_) ->
  findByOperationId operationId_ w = (w, Return None).
Proof.
  intros H. rewrite findByOperationId_eq.
  now rewrite (proj2 (findByOperationId_none operationId_ w) H).
Qed.

Lemma path_basename_join (dir name : string) :
  includes "/" name = false -> path_basename (path_join dir name) = name.
Proof.
  intros Hn. unfold path_join.
  change ("/" +:+ name) with (String "/" name).
  induction dir as [| c d IH].
  - rewrite app_nil. cbn [path_basename]. rewrite Hn. reflexivity.
  - rewrite app_cons. cbn [path_basename]. rewrite includes_after_sep. exact IH.
Qed.

End Reports.

(** X15. An identifier under which no operation is persisted is answered
    in the same way by every endpoint that takes one: the status, the
    download-operation, the preview-operation and the bulk-download
    handlers all throw the application error [Operation not found] with
    status 404, and none of them changes anything. *)
Theorem unknown_operation_not_found (req : Req.t) (w : World) :
  (forall k op, collection w !! k = Some op -> operationId op <> Req.operationId req) ->
  getOperationStatus req w = (w, Throw (newAppError "Operation not found" 404)) /\
  downloadOperationResult req w = (w, Throw (newAppError "Operation not found" 404)) /\
  (forall fileIndex,
      previewOperationResult req fileIndex w
      = (w, Throw (newAppError "Operation not found" 404))) /\
  bulkDownload req w = (w, Throw (newAppError "Operation not found" 404)).
Proof.
  intros H. pose proof (findByOperationId_missing _ w H) as F.
  unfold getOperationStatus, downloadOperationResult, previewOperationResult, bulkDownload.
  repeat split; intros; now rewrite (bind_return _ _ _ _ _ F).
Qed.

Lemma unknown_operation_not_found_sample :
  (forall k op, collection afterMerge201 !! k = Some op ->
                operationId op <> Req.operationId (operationRequest "no-such-operation")) /\
  getOperationStatus (operationRequest "no-such-operation") afterMerge201
  = (afterMerge201, Throw (newAppError "Operation not found" 404)).
Proof.
  assert (forall k op, collection afterMerge201 !! k = Some op ->
                       operationId op <> Req.operationId (operationRequest "no-such-operation"))
    as H.
  { assert (exists stored, collection afterMerge201 = {[0%nat := stored]} /\
                           operationId stored = firstId) as (stored & C & I)
      by (eexists; split; vm_compute; reflexivity).
    intros k op Hk. rewrite C in Hk. apply lookup_singleton_Some in Hk as [_ <-].
    rewrite I. discriminate. }
  split; [exact H |].
  exact (proj1 (unknown_operation_not_found (operationRequest "no-such-operation")
                  afterMerge201 H)).
Defined.

(** X16. An operation that is not completed gives no result: while its
    status is [pending], [processing] or [failed], the download-operation,
    preview-operation and bulk-download handlers throw [Operation not
    completed yet] with status 400, and the status handler answers with
    that status, without an [outputFiles] key, and with the error message
    of the record exactly when the status is [failed]. *)
Theorem unfinished_operation_not_served (req : Req.t) (w : World) (operation : PdfOperation) :
  findByOperationId (Req.operationId req) w = (w, Return (Some operation)) ->
  status operation <> "completed"%string ->
  downloadOperationResult req w
  = (w, Throw (newAppError "Operation not completed yet" 400)) /\
  (forall fileIndex,
      previewOperationResult req fileIndex w
      = (w, Throw (newAppError "Operation not completed yet" 400))) /\
  bulkDownload req w = (w, Throw (newAppError "Operation not completed yet" 400)) /\
  exists processingTime,
    getOperationStatus req w
    = (w, Return (StatusReply (operationId operation) (operationType operation)
                    (status operation) (inputLink <$> inputFiles operation) None
                    (if String.eqb (status operation) "failed"
                     then Processing.errorMessage (processing operation) else None)
                    processingTime)).
Proof.
  intros F Hs. apply String.eqb_neq in Hs.
  unfold getOperationStatus, downloadOperationResult, previewOperationResult, bulkDownload.
  split; [| split; [| split]].
  - rewrite (bind_return _ _ _ _ _ F), Hs. reflexivity.
  - intros fileIndex. rewrite (bind_return _ _ _ _ _ F), Hs. reflexivity.
  - rewrite (bind_return _ _ _ _ _ F), Hs. reflexivity.
  - eexists. rewrite (bind_return _ _ _ _ _ F), Hs. reflexivity.
Qed.

Lemma unfinished_operation_not_served_sample :
  exists operation,
    findByOperationId (Req.operationId (operationRequest firstId)) afterFailedSplit
    = (afterFailedSplit, Return (Some operation)) /\
    status operation <> "completed"%string /\
    status operation = "failed"%string /\
    downloadOperationResult (operationRequest firstId) afterFailedSplit
    = (afterFailedSplit, Throw (newAppError "Operation not completed yet" 400)).
Proof.
  eexists.
  assert (forall A B (x : A) (y y' : B), y = y' -> (x, y) = (x, y')) as P by (intros; congruence).
  match goal with
  | |- ?F /\ ?S /\ _ =>
      assert F as HF by (apply P; vm_compute; reflexivity);
      assert S as HS by (vm_compute; discriminate)
  end.
  split; [exact HF |]. split; [exact HS |]. split; [reflexivity |].
  exact (proj1 (unfinished_operation_not_served (operationRequest firstId) afterFailedSplit
                  _ HF HS)).
Defined.



(* ===================================================================== *)
(** * A request from its acceptance to its result                         *)
(* ===================================================================== *)

Section Started.

Lemma intToString_no_slash (z : Z) : includes "/" (intToString z) = false.
Proof.
  unfold intToString. destruct (z <? 0) eqn:E.
  - apply Z.ltb_lt in E. simpl.
    apply allDigits_includes; [reflexivity | apply natToString_digits; lia].
  - apply Z.ltb_ge in E.
    apply allDigits_includes; [reflexivity | now apply natToString_digits].
Qed.

Lemma outputFileName_no_slash (operationId : string) (suffix : Suffix) (now : Z) :
  includes "/" operationId = false ->
  includes "/" (outputFileName operationId suffix now) = false.
Proof.
  intros H. rewrite outputFileName_shape.
  change (String "_" (intToString now +:+ ".pdf")) with ("_" +:+ (intToString now +:+ ".pdf")).
  destruct suffix; unfold nameHead;
    repeat (rewrite includes_app
            || match goal with
               | |- context [String ?c ?s] =>
                   lazymatch s with
                   | EmptyString => fail
                   | _ => change (String c s) with (String c EmptyString +:+ s)
                   end
               end);
    rewrite ?H, ?intToString_no_slash; reflexivity.
Qed.

Lemma fireAndForget_then {A} (c : Eff A) (response : Response) (w : World) :
  (fireAndForget c ;; ret response) w = (fst (c w), Return response).
Proof. reflexivity. Qed.

Lemma mergeRecord_valid (req : Req.t) (files_ : list MulterFile.t) (operationId_ : string) :
  operationId_ <> EmptyString -> validate (mergeRecord req files_ operationId_) = None.
Proof.
  intros H. apply validate_None. unfold fieldsOk, mergeRecord. cbn.
  rewrite (proj2 (String.eqb_neq _ _) H). split; reflexivity.
Qed.

Lemma mergePdfs_started (req : Req.t) (w : World) (files_ : list MulterFile.t) :
  Req.files req = Some files_ ->
  (2 <= length files_)%nat ->
  freshOperation w ->
  mergePdfs req w
  = (fst (processMergeOperation (fresh_id w) (mergeInputs req files_)
            (default [] (Body.mergeOrder (Req.body req)))
            (created (mergeRecord req files_ (nextId w)) w)),
     Return (Json 202 true "Merge operation started" None (startedData (nextId w)))).
Proof.
  intros Hfiles Hlen (Hid & _ & Hnew & Hfree).
  unfold mergePdfs. rewrite Hfiles.
  rewrite (proj2 (Nat.ltb_ge _ _) Hlen).
  rewrite (bind_return _ _ w (set_drawn (S (drawn w)) w) (nextId w) eq_refl).
  fold (mergeInputs req files_).
  set (op0 := mergeRecord req files_ (nextId w)).
  set (w1 := set_drawn (S (drawn w)) w).
  rewrite (bind_return _ _ w1
             (set_fresh_id (S (fresh_id w)) (set_documents (<[fresh_id w := op0]> (documents w)) w1))
             (fresh_id w) eq_refl).
  erewrite (bind_return (save (fresh_id w))).
  2: { apply (save_insert_run _ (fresh_id w) op0).
       - cbn. apply lookup_insert_eq.
       - now apply mergeRecord_valid.
       - exact Hnew.
       - exact Hfree. }
  apply fireAndForget_then.
Qed.

End Started.

Section MergeRequest.

Variables (req : Req.t) (w : World) (files_ : list MulterFile.t).
Hypothesis has_files : Req.files req = Some files_.
Hypothesis two_files : (2 <= length files_)%nat.
Hypothesis fresh : freshOperation w.

(** The merge request from the handler to the last write of its
    executor, when the files handed to the transformer all load. *)
Lemma mergePdfs_completes (docs : list PDFDocument) :
  Forall2 (fun f d => files w !! InputFile.path f = Some (PdfBytes d))
          (sort (fun a b => orderOrZero a - orderOrZero b)
                (orderedFiles (mergeInputs req files_)
                              (default [] (Body.mergeOrder (Req.body req)))))
          docs ->
  exists w' final out,
    mergePdfs req w
    = (w', Return (Json 202 true "Merge operation started" None (startedData (nextId w)))) /\
    env w' = env w /\
    collection w' !! fresh_id w = Some final /\
    (forall k, k <> fresh_id w -> collection w' !! k = collection w !! k) /\
    operationId final = nextId w /\
    status final = "completed"%string /\
    out = path_join (processedDir (env w))
                    (mergedFileName (nextId w) (clock (env w) (S (ticks w)))) /\
    outputFiles final = [toOutputFile out (pdfSize (env w) (withDefaultPage (concat docs)))] /\
    files w' = <[out := PdfBytes (withDefaultPage (concat docs))]> (files w).
Proof.
  intros Hall.
  rewrite (mergePdfs_started req w files_ has_files two_files fresh).
  destruct fresh as (Hid & _ & Hnew & Hfree).
  set (this := fresh_id w).
  set (op0 := mergeRecord req files_ (nextId w)).
  set (w0 := created op0 w).
  assert (documents w0 !! this = Some op0) as Hdoc0 by (cbn; apply lookup_insert_eq).
  assert (is_Some (collection w0 !! this)) as Hcoll0
    by (exists op0; cbn; apply lookup_insert_eq).
  assert (storable op0) as Hst0 by (apply validate_storable; now apply mergeRecord_valid).
  rewrite processMergeOperation_executor.
  change (if (0 <? length (default [] (Body.mergeOrder (Req.body req))))%nat
          then omap (fun index => itemAt (mergeInputs req files_) index)
                    (default [] (Body.mergeOrder (Req.body req)))
          else mergeInputs req files_)
    with (orderedFiles (mergeInputs req files_) (default [] (Body.mergeOrder (Req.body req)))).
  set (ordered := orderedFiles (mergeInputs req files_)
                               (default [] (Body.mergeOrder (Req.body req)))) in *.
  rewrite (executor_outcome this _ w0 op0 (keeps_mergeWork _ _) Hdoc0 Hcoll0 Hst0).
  cbn [fst].
  set (out := path_join (processedDir (env w))
                        (mergedFileName (nextId w) (clock (env w) (S (ticks w))))).
  pose proof (started_document w0 this op0 Hdoc0 Hcoll0 Hst0) as Hget.
  rewrite (started_eq w0 this op0 Hdoc0 Hcoll0 Hst0) in *.
  set (w1 := transitioned this (processingAt (clock (env w0) (ticks w0)) op0) w0) in *.
  assert (mergeWork this ordered w1
          = (afterWrites (<[out := PdfBytes (withDefaultPage (concat docs))]> (files w))
                         (S (S (ticks w))) w1,
             Return [toOutputFile out (pdfSize (env w) (withDefaultPage (concat docs)))]))
    as Hwork.
  { unfold mergeWork.
    rewrite (bind_return _ _ _ _ _ Hget).
    change (operationId (processingAt (clock (env w0) (ticks w0)) op0)) with (nextId w).
    erewrite (bind_return (mergePdfFiles ordered (nextId w))).
    2: { apply (merge_run _ ordered (nextId w) docs). exact Hall. }
    unfold bind, fs_stat. cbn. rewrite lookup_insert_eq. reflexivity. }
  rewrite Hwork. cbn [fst snd].
  eexists. eexists. exists out. split; [reflexivity |].
  split; [reflexivity |].
  split; [cbn; apply lookup_insert_eq |].
  split.
  { intros k Hk. assert (this <> k) as Nk by (intros E; apply Hk; symmetry; exact E).
    cbn. now rewrite !lookup_insert_ne by exact Nk. }
  split; [reflexivity |]. split; [reflexivity |]. split; [reflexivity |].
  split; [reflexivity |].
  cbn. reflexivity.
Qed.

(** A completed record with one output of the transformers is found by
    its identifier and its file is what the download sends. *)
Lemma single_output_served (w' : World) (final : PdfOperation) (suffix : Suffix) (now size : Z) :
  env w' = env w ->
  collection w' !! fresh_id w = Some final ->
  (forall k, k <> fresh_id w -> collection w' !! k = collection w !! k) ->
  operationId final = nextId w ->
  status final = "completed"%string ->
  outputFiles final
  = [toOutputFile (path_join (processedDir (env w)) (outputFileName (nextId w) suffix now))
                  size] ->
  is_Some (files w' !! path_join (processedDir (env w))
                         (outputFileName (nextId w) suffix now)) ->
  findByOperationId (nextId w) w' = (w', Return (Some final)) /\
  forall req', Req.operationId req' = nextId w ->
    downloadOperationResult req' w'
    = (w', Return (DownloadReply
                     (path_join (processedDir (env w)) (outputFileName (nextId w) suffix now))
                     (outputFileName (nextId w) suffix now)
                     (attachment (outputFileName (nextId w) suffix now)))).
Proof.
  intros Henv Hthis Hother Hid Hstatus Houts [b Hb].
  destruct fresh as (_ & Hslash & _ & Hfree).
  assert (findByOperationId (nextId w) w' = (w', Return (Some final))) as F.
  { rewrite <- Hid. apply (findByOperationId_only w' (fresh_id w) final Hthis).
    intros k' op' Hk' Heq. destruct (decide (k' = fresh_id w)) as [-> | Nk]; [reflexivity |].
    rewrite (Hother k' Nk) in Hk'. destruct (Hfree k' op' Hk'). congruence. }
  split; [exact F |].
  intros req' Hreq. unfold downloadOperationResult. rewrite Hreq.
  rewrite (bind_return _ _ _ _ _ F), Hstatus, Houts.
  change (String.eqb "completed" "completed") with true. cbn [negb].
  unfold toOutputFile. cbn [OutputFile.filename].
  rewrite (path_basename_join _ _ (outputFileName_no_slash _ suffix now Hslash)).
  unfold bind, getEnv, tryCatch, fs_access. rewrite Henv, Hb. reflexivity.
Qed.

End MergeRequest.

Section Selection.

Lemma itemAt_Forall2 {A B} (R : A -> B -> Prop) (l : list A) (k : list B) (i : Z) :
  Forall2 R l k ->
  match itemAt l i, itemAt k i with
  | Some a, Some b => R a b
  | None, None => True
  | _, _ => False
  end.
Proof.
  intros H. unfold itemAt. destruct (i <? 0); [exact I |].
  destruct (l !! Z.to_nat i) as [a |] eqn:Ha.
  - destruct (Forall2_lookup_l _ _ _ _ _ H Ha) as (b & -> & Hab). exact Hab.
  - apply lookup_ge_None in Ha. rewrite (Forall2_length _ _ _ H) in Ha.
    now rewrite (proj2 (lookup_ge_None k (Z.to_nat i)) Ha).
Qed.

Lemma omap_itemAt_Forall2 {A B} (R : A -> B -> Prop) (l : list A) (k : list B)
    (order : list Z) :
  Forall2 R l k ->
  Forall2 R (omap (fun index => itemAt l index) order) (omap (fun index => itemAt k index) order).
Proof.
  intros H. induction order as [| i order IH]; cbn [omap list_omap]; [constructor |].
  pose proof (itemAt_Forall2 R l k i H) as Hi.
  destruct (itemAt l i), (itemAt k i); try contradiction; [now constructor | exact IH].
Qed.

Lemma mergeInputs_default (req : Req.t) (files_ : list MulterFile.t) :
  default [] (Body.mergeOrder (Req.body req)) = [] ->
  orderedFiles (mergeInputs req files_) (default [] (Body.mergeOrder (Req.body req)))
  = defaultInputs files_.
Proof. intros H. unfold orderedFiles, mergeInputs. rewrite H. reflexivity. Qed.

Lemma mergeInputs_loadable (req : Req.t) (w : World) (files_ : list MulterFile.t)
    (docs : list PDFDocument) :
  Forall2 (fun f d => files w !! MulterFile.path f = Some (PdfBytes d)) files_ docs ->
  Forall2 (fun f d => files w !! InputFile.path f = Some (PdfBytes d))
          (mergeInputs req files_) docs.
Proof.
  intros H. apply Forall2_same_length_lookup_2.
  - unfold mergeInputs. rewrite length_imap. now apply Forall2_length in H.
  - intros i f d Hf Hd. unfold mergeInputs in Hf. rewrite list_lookup_imap in Hf.
    destruct (files_ !! i) as [part |] eqn:Hp; [| discriminate].
    cbn in Hf. injection Hf as <-.
    exact (Forall2_lookup_lr _ _ _ _ _ _ H Hp Hd).
Qed.

End Selection.

(** X18. A merge request without a merge order, from its acceptance to
    the download. When at least two files are uploaded, all of them PDFs,
    and the identifier drawn is new, the handler answers 202 with that
    identifier and status URL, and when the executor is done: the
    operation is found under the identifier with status [completed] and
    one output file; that file holds the pages of the uploads one after
    the other in upload order, or one blank page when no upload has a
    page; and the download-operation endpoint sends that very file,
    under its own name. *)
Theorem merge_request_in_upload_order (req : Req.t) (w : World) (files_ : list MulterFile.t)
    (docs : list PDFDocument) :
  Req.files req = Some files_ ->
  (2 <= length files_)%nat ->
  default [] (Body.mergeOrder (Req.body req)) = [] ->
  Forall2 (fun f d => files w !! MulterFile.path f = Some (PdfBytes d)) files_ docs ->
  freshOperation w ->
  exists w' final out merged,
    mergePdfs req w
    = (w', Return (Json 202 true "Merge operation started" None (startedData (nextId w)))) /\
    findByOperationId (nextId w) w' = (w', Return (Some final)) /\
    status final = "completed"%string /\
    OutputFile.path <$> outputFiles final = [out] /\
    files w' !! out = Some (PdfBytes merged) /\
    (concat docs <> [] -> merged = concat docs) /\
    (concat docs = [] -> merged = [blankPage]) /\
    forall req', Req.operationId req' = nextId w ->
      downloadOperationResult req' w'
      = (w', Return (DownloadReply out (path_basename out) (attachment (path_basename out)))).
Proof.
  intros Hfiles Hlen Horder Hall Hfresh.
  destruct (mergePdfs_completes req w files_ Hfiles Hlen Hfresh docs)
    as (w' & final & out & Hrun & Henv & Hthis & Hother & Hid & Hstatus & Hout & Houts & Hf).
  { rewrite (mergeInputs_default req files_ Horder), defaultInputs_sorted.
    rewrite <- (mergeInputs_default req files_ Horder).
    unfold orderedFiles. rewrite Horder. cbn [length Nat.ltb Nat.leb].
    now apply mergeInputs_loadable. }
  exists w', final, out, (withDefaultPage (concat docs)). split; [exact Hrun |].
  assert (is_Some (files w' !! out)) as Hex by (rewrite Hf, lookup_insert_eq; eauto).
  rewrite Hout in Houts, Hex.
  destruct (single_output_served w Hfresh w' final MergedOutput _ _ Henv Hthis Hother Hid
              Hstatus Houts Hex) as [F D].
  split; [exact F |]. split; [exact Hstatus |].
  split; [rewrite Houts, Hout; reflexivity |].
  split; [rewrite Hf; apply lookup_insert_eq |].
  split; [now destruct (concat docs) |].
  split; [now intros -> |].
  intros req' Hreq. rewrite (D req' Hreq), Hout.
  destruct Hfresh as (_ & Hslash & _).
  change (mergedFileName (nextId w) (clock (env w) (S (ticks w))))
    with (outputFileName (nextId w) MergedOutput (clock (env w) (S (ticks w)))).
  now rewrite (path_basename_join _ _ (outputFileName_no_slash _ MergedOutput _ Hslash)).
Qed.

(** X19. What a merge request with a merge order puts into its output.
    When all uploads are PDFs and the identifier drawn is new, the
    operation completes and its one output file holds exactly the pages
    of the uploads the order names, each upload as often as it is named
    and entries outside the uploads ignored; the order of the pages in
    the file may differ from the order asked for, but no page is lost,
    duplicated or taken from a file that was not named. When the uploads
    the order names have no page at all (every entry is outside the
    uploads, or names a document without pages), the file holds one blank
    page instead. *)
Theorem merge_request_with_order (req : Req.t) (w : World) (files_ : list MulterFile.t)
    (docs : list PDFDocument) (order : list Z) :
  Req.files req = Some files_ ->
  (2 <= length files_)%nat ->
  Body.mergeOrder (Req.body req) = Some order ->
  order <> [] ->
  Forall2 (fun f d => files w !! MulterFile.path f = Some (PdfBytes d)) files_ docs ->
  freshOperation w ->
  exists w' final out merged,
    mergePdfs req w
    = (w', Return (Json 202 true "Merge operation started" None (startedData (nextId w)))) /\
    findByOperationId (nextId w) w' = (w', Return (Some final)) /\
    status final = "completed"%string /\
    OutputFile.path <$> outputFiles final = [out] /\
    files w' !! out = Some (PdfBytes merged) /\
    (concat (omap (fun index => itemAt docs index) order) <> [] ->
     Permutation merged (concat (omap (fun index => itemAt docs index) order))) /\
    (concat (omap (fun index => itemAt docs index) order) = [] -> merged = [blankPage]).
Proof.
  intros Hfiles Hlen Horder Hne Hall Hfresh.
  assert (orderedFiles (mergeInputs req files_) (default [] (Body.mergeOrder (Req.body req)))
          = omap (fun index => itemAt (mergeInputs req files_) index) order) as Hsel.
  { unfold orderedFiles. rewrite Horder. cbn [default from_option id].
    destruct order; [contradiction | reflexivity]. }
  pose proof (omap_itemAt_Forall2 _ _ _ order (mergeInputs_loadable req w files_ docs Hall))
    as Hnamed.
  destruct (Permutation_Forall2
              (symmetry (sort_Permutation (fun a b => orderOrZero a - orderOrZero b)
                           (omap (fun index => itemAt (mergeInputs req files_) index) order)))
              Hnamed) as (docs' & Hperm & Hsorted).
  destruct (mergePdfs_completes req w files_ Hfiles Hlen Hfresh docs')
    as (w' & final & out & Hrun & Henv & Hthis & Hother & Hid & Hstatus & Hout & Houts & Hf).
  { rewrite Hsel. exact Hsorted. }
  exists w', final, out, (withDefaultPage (concat docs')). split; [exact Hrun |].
  assert (is_Some (files w' !! out)) as Hex by (rewrite Hf, lookup_insert_eq; eauto).
  rewrite Hout in Houts, Hex.
  destruct (single_output_served w Hfresh w' final MergedOutput _ _ Henv Hthis Hother Hid
              Hstatus Houts Hex) as [F _].
  split; [exact F |]. split; [exact Hstatus |].
  split; [rewrite Houts, Hout; reflexivity |].
  split; [rewrite Hf; apply lookup_insert_eq |].
  pose proof (concat_Permutation _ _ (symmetry Hperm)) as Hc.
  destruct (concat docs') as [| x rest] eqn:E; cbn [withDefaultPage].
  - apply Permutation_nil_l in Hc. split; [intros N; now rewrite <- Hc in N | reflexivity].
  - split; [intros _; exact Hc |].
    intros N. rewrite N in Hc. symmetry in Hc. now apply Permutation_nil_l in Hc.
Qed.

Section Samples.

Lemma sampleWorld_fresh : freshOperation sampleWorld.
Proof.
  split; [vm_compute; discriminate |]. split; [vm_compute; reflexivity |].
  split; [reflexivity |]. intros k op H. change (collection sampleWorld) with (∅ : gmap nat PdfOperation) in H.
  rewrite lookup_empty in H. discriminate H.
Qed.

Lemma threeUploads_loadable :
  Forall2 (fun f d => files sampleWorld !! MulterFile.path f = Some (PdfBytes d))
          threeUploads threeDocuments.
Proof. repeat constructor. Qed.

End Samples.

Lemma merge_request_in_upload_order_sample :
  Req.files uploadOrderRequest = Some threeUploads /\
  (2 <= length threeUploads)%nat /\
  default [] (Body.mergeOrder (Req.body uploadOrderRequest)) = [] /\
  Forall2 (fun f d => files sampleWorld !! MulterFile.path f = Some (PdfBytes d))
          threeUploads threeDocuments /\
  freshOperation sampleWorld /\
  exists w' final out,
    mergePdfs uploadOrderRequest sampleWorld
    = (w', Return (Json 202 true "Merge operation started" None
                        (startedData (nextId sampleWorld)))) /\
    findByOperationId (nextId sampleWorld) w' = (w', Return (Some final)) /\
    status final = "completed"%string /\
    OutputFile.path <$> outputFiles final = [out] /\
    files w' !! out = Some (PdfBytes (concat threeDocuments)) /\
    forall req', Req.operationId req' = nextId sampleWorld ->
      downloadOperationResult req' w'
      = (w', Return (DownloadReply out (path_basename out) (attachment (path_basename out)))).
Proof.
  assert (2 <= length threeUploads)%nat as L by (cbn; lia).
  split; [reflexivity |]. split; [exact L |]. split; [reflexivity |].
  split; [exact threeUploads_loadable |]. split; [exact sampleWorld_fresh |].
  destruct (merge_request_in_upload_order uploadOrderRequest sampleWorld threeUploads
              threeDocuments eq_refl L eq_refl threeUploads_loadable sampleWorld_fresh)
    as (w' & final & out & merged & H1 & H2 & H3 & H4 & H5 & H6 & _ & H8).
  exists w', final, out. split; [exact H1 |]. split; [exact H2 |]. split; [exact H3 |].
  split; [exact H4 |]. split; [| exact H8].
  rewrite H5. f_equal. f_equal. apply H6. discriminate.
Defined.

Lemma merge_request_with_order_sample :
  Req.files mergeRequest201 = Some threeUploads /\
  (2 <= length threeUploads)%nat /\
  Body.mergeOrder (Req.body mergeRequest201) = Some [2; 0; 1] /\
  [2; 0; 1] <> [] /\
  Forall2 (fun f d => files sampleWorld !! MulterFile.path f = Some (PdfBytes d))
          threeUploads threeDocuments /\
  freshOperation sampleWorld /\
  exists w' final out merged,
    mergePdfs mergeRequest201 sampleWorld
    = (w', Return (Json 202 true "Merge operation started" None
                        (startedData (nextId sampleWorld)))) /\
    findByOperationId (nextId sampleWorld) w' = (w', Return (Some final)) /\
    status final = "completed"%string /\
    OutputFile.path <$> outputFiles final = [out] /\
    files w' !! out = Some (PdfBytes merged) /\
    Permutation merged (concat (omap (fun index => itemAt threeDocuments index) [2; 0; 1])).
Proof.
  assert (2 <= length threeUploads)%nat as L by (cbn; lia).
  assert ([2; 0; 1] <> @nil Z) as N by discriminate.
  split; [reflexivity |]. split; [exact L |]. split; [reflexivity |]. split; [exact N |].
  split; [exact threeUploads_loadable |]. split; [exact sampleWorld_fresh |].
  destruct (merge_request_with_order mergeRequest201 sampleWorld threeUploads threeDocuments
              [2; 0; 1] eq_refl L eq_refl N threeUploads_loadable sampleWorld_fresh)
    as (w' & final & out & merged & H1 & H2 & H3 & H4 & H5 & H6 & _).
  exists w', final, out, merged. split; [exact H1 |]. split; [exact H2 |].
  split; [exact H3 |]. split; [exact H4 |]. split; [exact H5 |].
  apply H6. discriminate.
Defined.

(* ===================================================================== *)
(** * What the validation of a split request lets through                 *)
(* ===================================================================== *)

Section SplitValidation.

Lemma splitSchema_accepts (body value : Body.t) :
  splitSchema_validate body = JoiValue value ->
  (exists splitType k,
      Body.splitType value = Some splitType /\ inEnum splitType splitTypeEnum = true /\
      Body.pagesPerFile value = Some (VNumber k) /\ 1 <= k <= 100) /\
  Body.pageRanges value = Body.pageRanges body /\
  Forall (fun t => matchesRangePattern t = true)
         (rangesAsArray (default (RangeArray []) (Body.pageRanges value))).
Proof.
  unfold splitSchema_validate.
  destruct (_ ++ _ ++ _) as [| d ds] eqn:E; [| discriminate].
  intros [= <-]. cbn [Body.splitType Body.pagesPerFile Body.pageRanges].
  apply app_eq_nil in E as [E1 E]. apply app_eq_nil in E as [E2 E3].
  split; [| split; [reflexivity |]].
  - eexists. eexists. split; [reflexivity |]. split; [| split; [reflexivity |]].
    + destruct (Body.splitType body) as [s |]; [| reflexivity].
      cbn [default from_option id]. destruct (inEnum s splitTypeEnum); [reflexivity | discriminate].
    + destruct (Body.pagesPerFile body) as [v |]; cbn [mbind option_bind default from_option id];
        [| lia].
      destruct (joiNumber v) as [z |]; [| discriminate]. cbn [default from_option id].
      destruct (z <? 1) eqn:L1; [discriminate |].
      destruct (100 <? z) eqn:L2; [discriminate |].
      apply Z.ltb_ge in L1. apply Z.ltb_ge in L2. lia.
  - destruct (Body.pageRanges body) as [[items | s] |]; cbn [default from_option id rangesAsArray].
    + destruct (forallb matchesRangePattern items) eqn:F; [| discriminate].
      apply Forall_forall. intros t Ht.
      rewrite forallb_forall in F. apply F. now apply list_elem_of_In.
    + destruct (matchesRangePattern s) eqn:M; [| discriminate].
      destruct s; [discriminate M | now repeat constructor].
    + constructor.
Qed.

Lemma checkRanges_none (ranges : list string) :
  checkRanges ranges = None -> Forall (fun t => checkRange t = None) ranges.
Proof.
  induction ranges as [| t ranges IH]; cbn [checkRanges]; [constructor |].
  destruct (checkRange t) eqn:E; [discriminate |]. intros H. constructor; [exact E | now apply IH].
Qed.

Lemma checkRange_forwards (t : string) (s e : Z) :
  checkRange t = None -> 0 <= s -> 0 <= e -> t = renderRange (PageSpan s e) -> s < e.
Proof.
  intros Hc Hs He ->. destruct (Z_lt_le_dec s e) as [L | L]; [exact L |].
  destruct (checkRange_backwards s e He L Hc).
Qed.

Lemma validateSplitRequest_next (req req' : Req.t) :
  validateSplitRequest req = NextWith req' ->
  exists inputFile value,
    Req.files req = Some [inputFile] /\
    splitSchema_validate (Req.body req) = JoiValue value /\
    req' = Req.mk (Req.files req) value (Req.operationId req) (Req.ip req) (Req.userAgent req) /\
    (Body.splitType value = Some "range"%string ->
     requestedRanges req' <> [] /\ checkRanges (requestedRanges req') = None).
Proof.
  unfold validateSplitRequest, badRequest.
  destruct (Req.files req) as [[| inputFile [| x l]] |]; try discriminate.
  cbn [length Nat.eqb negb].
  destruct (splitSchema_validate (Req.body req)) as [value | details] eqn:V; [| discriminate].
  pose proof (splitSchema_accepts _ _ V) as ((splitType & k & Ht & _) & _).
  rewrite Ht. cbn [default from_option id].
  destruct (String.eqb splitType "range") eqn:R.
  - apply String.eqb_eq in R. subst splitType.
    destruct (Body.pageRanges value) as [[[| t ranges] | [| c s]] |] eqn:P; try discriminate.
    + destruct (checkRanges (t :: ranges)) eqn:C; [| intros [= <-]].
      { intros H. destruct (checkRanges_answer _ _ C) as (msg & err & ->). discriminate H. }
      exists inputFile, value. split; [reflexivity |]. split; [reflexivity |].
      split; [reflexivity |]. intros _. unfold requestedRanges. cbn [Req.body]. rewrite P.
      split; [discriminate | exact C].
    + destruct (checkRanges [String c s]) eqn:C; [| intros [= <-]].
      { intros H. destruct (checkRanges_answer _ _ C) as (msg & err & ->). discriminate H. }
      exists inputFile, value. split; [reflexivity |]. split; [reflexivity |].
      split; [reflexivity |]. intros _. unfold requestedRanges. cbn [Req.body]. rewrite P.
      split; [discriminate | exact C].
  - intros [= <-]. exists inputFile, value. split; [reflexivity |]. split; [reflexivity |].
    split; [reflexivity |]. rewrite Ht. intros [= ->]. discriminate R.
Qed.

End SplitValidation.

(** X20. What [validateSplitRequest] hands on. A request that passes
    has exactly one file, a split type among [pages], [range] and [size],
    a [pagesPerFile] that is a number from 1 to 100 (whatever text it
    arrived as), and page ranges that are all numeric tokens; and when the
    split type is [range] there is at least one range and every range
    [start-end] has its start strictly before its end. *)
Theorem validated_split_request (req req' : Req.t) :
  validateSplitRequest req = NextWith req' ->
  (exists inputFile, Req.files req' = Some [inputFile]) /\
  (exists splitType k,
      Body.splitType (Req.body req') = Some splitType /\
      inEnum splitType splitTypeEnum = true /\
      Body.pagesPerFile (Req.body req') = Some (VNumber k) /\ 1 <= k <= 100) /\
  Forall numericToken (requestedRanges req') /\
  (Body.splitType (Req.body req') = Some "range"%string ->
   requestedRanges req' <> [] /\
   Forall (fun t => forall s e, 0 <= s -> 0 <= e -> t = renderRange (PageSpan s e) -> s < e)
          (requestedRanges req')).
Proof.
  intros H. destruct (validateSplitRequest_next req req' H)
    as (inputFile & value & Hf & Hv & -> & Hr).
  destruct (splitSchema_accepts _ _ Hv) as (Hshape & _ & Htokens).
  cbn [Req.files Req.body]. split; [now exists inputFile |]. split; [exact Hshape |]. split.
  - unfold requestedRanges. cbn [Req.body].
    eapply Forall_impl; [exact Htokens |]. intros t. apply pattern_numeric.
  - intros Hrange. destruct (Hr Hrange) as [Hne Hc]. split; [exact Hne |].
    eapply Forall_impl; [exact (checkRanges_none _ Hc) |].
    intros t Ht s e. now apply checkRange_forwards.
Qed.

Lemma validated_split_request_sample :
  validateSplitRequest splitRequestByRange = NextWith splitRequestByRangeValidated /\
  (exists inputFile, Req.files splitRequestByRangeValidated = Some [inputFile]) /\
  (exists splitType k,
      Body.splitType (Req.body splitRequestByRangeValidated) = Some splitType /\
      inEnum splitType splitTypeEnum = true /\
      Body.pagesPerFile (Req.body splitRequestByRangeValidated) = Some (VNumber k) /\
      1 <= k <= 100) /\
  Forall numericToken (requestedRanges splitRequestByRangeValidated) /\
  (Body.splitType (Req.body splitRequestByRangeValidated) = Some "range"%string ->
   requestedRanges splitRequestByRangeValidated <> [] /\
   Forall (fun t => forall s e, 0 <= s -> 0 <= e -> t = renderRange (PageSpan s e) -> s < e)
          (requestedRanges splitRequestByRangeValidated)).
Proof.
  assert (validateSplitRequest splitRequestByRange = NextWith splitRequestByRangeValidated) as H
    by (vm_compute; reflexivity).
  split; [exact H |].
  exact (validated_split_request splitRequestByRange splitRequestByRangeValidated H).
Defined.

Section SplitRequest.

Lemma splitRecord_valid (req : Req.t) (inputFile : MulterFile.t) (operationId_ : string) :
  operationId_ <> EmptyString ->
  inEnum (default "pages"%string (Body.splitType (Req.body req))) splitTypeEnum = true ->
  validate (splitRecord req inputFile operationId_) = None.
Proof.
  intros H Ht. apply validate_None. unfold fieldsOk, splitRecord. cbn.
  rewrite (proj2 (String.eqb_neq _ _) H). cbn in Ht. rewrite Ht. split; reflexivity.
Qed.

Lemma splitPdf_started (req : Req.t) (w : World) (inputFile : MulterFile.t) :
  Req.files req = Some [inputFile] ->
  inEnum (default "pages"%string (Body.splitType (Req.body req))) splitTypeEnum = true ->
  freshOperation w ->
  splitPdf req w
  = (fst (processSplitOperation (fresh_id w) inputFile (splitOptionsOf req)
            (created (splitRecord req inputFile (nextId w)) w)),
     Return (Json 202 true "Split operation started" None (startedData (nextId w)))).
Proof.
  intros Hfiles Ht (Hid & _ & Hnew & Hfree).
  unfold splitPdf. rewrite Hfiles.
  rewrite (bind_return _ _ w (set_drawn (S (drawn w)) w) (nextId w) eq_refl).
  set (op0 := splitRecord req inputFile (nextId w)).
  set (w1 := set_drawn (S (drawn w)) w).
  rewrite (bind_return _ _ w1
             (set_fresh_id (S (fresh_id w)) (set_documents (<[fresh_id w := op0]> (documents w)) w1))
             (fresh_id w) eq_refl).
  erewrite (bind_return (save (fresh_id w))).
  2: { apply (save_insert_run _ (fresh_id w) op0).
       - cbn. apply lookup_insert_eq.
       - now apply splitRecord_valid.
       - exact Hnew.
       - exact Hfree. }
  apply fireAndForget_then.
Qed.

End SplitRequest.

(** X21. Validation and handler fit together. A request that
    [validateSplitRequest] hands on is never refused by [splitPdf]: with a
    new identifier the handler answers 202, the document it saves passes
    the schema (the split type is one the schema knows), and when the
    executor is done the operation is found under the identifier as a
    split operation for the uploaded file whose status is [completed] or
    [failed], never [pending] or [processing]. *)
Theorem validated_split_is_started (req req' : Req.t) (w : World) :
  validateSplitRequest req = NextWith req' ->
  freshOperation w ->
  exists w' final inputFile,
    Req.files req' = Some [inputFile] /\
    splitPdf req' w
    = (w', Return (Json 202 true "Split operation started" None (startedData (nextId w)))) /\
    findByOperationId (nextId w) w' = (w', Return (Some final)) /\
    operationType final = "split"%string /\
    inputFiles final = [toInputFile None inputFile] /\
    (status final = "completed"%string \/ status final = "failed"%string).
Proof.
  intros Hv Hfresh.
  destruct (validateSplitRequest_next req req' Hv) as (inputFile & value & Hf & Hs & Hreq & _).
  destruct (splitSchema_accepts _ _ Hs) as ((splitType & k & Ht & He & _) & _).
  assert (Req.files req' = Some [inputFile]) as Hf' by (rewrite Hreq; exact Hf).
  assert (inEnum (default "pages"%string (Body.splitType (Req.body req'))) splitTypeEnum = true)
    as He' by (rewrite Hreq; cbn [Req.body]; rewrite Ht; exact He).
  rewrite (splitPdf_started req' w inputFile Hf' He' Hfresh).
  pose proof Hfresh as (Hid & _ & Hnew & Hfree).
  set (this := fresh_id w).
  set (op0 := splitRecord req' inputFile (nextId w)).
  set (w0 := created op0 w).
  assert (documents w0 !! this = Some op0) as Hdoc0 by (cbn; apply lookup_insert_eq).
  assert (is_Some (collection w0 !! this)) as Hcoll0
    by (exists op0; cbn; apply lookup_insert_eq).
  assert (storable op0) as Hst0 by (apply validate_storable; now apply splitRecord_valid).
  rewrite processSplitOperation_executor.
  rewrite (executor_outcome this _ w0 op0 (keeps_splitWork _ _ _) Hdoc0 Hcoll0 Hst0).
  cbn [fst].
  pose proof (keeps_splitWork this inputFile (splitOptionsOf req') (started this w0)) as K.
  rewrite (started_eq w0 this op0 Hdoc0 Hcoll0 Hst0) in *.
  destruct (splitWork this inputFile (splitOptionsOf req') _) as [w2 r]. cbn [fst snd] in *.
  destruct K as (_ & _ & _ & _ & Kc & _). cbn in Kc.
  assert (forall final : PdfOperation, operationId final = nextId w ->
            findByOperationId (nextId w) (transitioned this final w2)
            = (transitioned this final w2, Return (Some final))) as F.
  { intros final Hfinal. rewrite <- Hfinal.
    apply (findByOperationId_only _ this final); [cbn; apply lookup_insert_eq |].
    intros k' op' Hk' Heq. destruct (decide (k' = this)) as [-> | Nk]; [reflexivity |].
    assert (this <> k') as Nk' by congruence.
    cbn in Hk'. rewrite lookup_insert_ne in Hk' by exact Nk'.
    rewrite Kc in Hk'. fold this in Hk'. rewrite !lookup_insert_ne in Hk' by exact Nk'.
    destruct (Hfree k' op' Hk'). congruence. }
  destruct r as [outs | e].
  - eexists. eexists. exists inputFile. split; [exact Hf' |]. split; [reflexivity |].
    split; [apply F; reflexivity |]. split; [reflexivity |]. split; [reflexivity |].
    left. reflexivity.
  - eexists. eexists. exists inputFile. split; [exact Hf' |]. split; [reflexivity |].
    split; [apply F; reflexivity |]. split; [reflexivity |]. split; [reflexivity |].
    right. reflexivity.
Qed.

Lemma validated_split_is_started_sample :
  validateSplitRequest splitRequestByRange = NextWith splitRequestByRangeValidated /\
  freshOperation sampleWorld /\
  exists w' final inputFile,
    Req.files splitRequestByRangeValidated = Some [inputFile] /\
    splitPdf splitRequestByRangeValidated sampleWorld
    = (w', Return (Json 202 true "Split operation started" None
                        (startedData (nextId sampleWorld)))) /\
    findByOperationId (nextId sampleWorld) w' = (w', Return (Some final)) /\
    operationType final = "split"%string /\
    inputFiles final = [toInputFile None inputFile] /\
    (status final = "completed"%string \/ status final = "failed"%string).
Proof.
  assert (validateSplitRequest splitRequestByRange = NextWith splitRequestByRangeValidated) as H
    by (vm_compute; reflexivity).
  split; [exact H |]. split; [exact sampleWorld_fresh |].
  exact (validated_split_is_started splitRequestByRange splitRequestByRangeValidated sampleWorld
           H sampleWorld_fresh).
Defined.

(* ===================================================================== *)
(** * What the validation of a merge request lets through                 *)
(* ===================================================================== *)

Section MergeValidation.

Lemma remove_dups_same_length {A} `{EqDecision A} (l : list A) :
  length (remove_dups l) = length l -> NoDup l.
Proof.
  intros H.
  assert (remove_dups l ⊆+ l) as S.
  { apply NoDup_submseteq; [apply NoDup_remove_dups |]. intros x. apply elem_of_remove_dups. }
  rewrite <- (submseteq_length_Permutation _ _ S) by lia. apply NoDup_remove_dups.
Qed.

Lemma inside_uploads (n : nat) (index : jsnum) :
  outsideUploads n index = false -> exists z, index = Num z /\ 0 <= z < Z.of_nat n.
Proof.
  destruct index as [| z]; [discriminate |]. cbn [outsideUploads]. intros H.
  apply orb_false_iff in H as [H1 H2]. apply Z.ltb_ge in H1.
  rewrite Z.geb_leb in H2. apply Z.leb_gt in H2. exists z. split; [reflexivity | lia].
Qed.

Lemma parsed_indices (n : nat) (items : list jsval) :
  List.find (outsideUploads n) (parseIntOf <$> items) = None ->
  Forall2 (fun v i => parseIntOf v = Num i) items (omap numberOf (parseIntOf <$> items)) /\
  Forall (fun i => 0 <= i < Z.of_nat n) (omap numberOf (parseIntOf <$> items)).
Proof.
  induction items as [| v items IH]; cbn [fmap list_fmap List.find omap list_omap].
  - intros _. split; constructor.
  - destruct (outsideUploads n (parseIntOf v)) eqn:E; [discriminate |].
    intros H. destruct (IH H) as [IH1 IH2].
    destruct (inside_uploads n _ E) as (z & Hz & Hr). rewrite Hz. cbn [numberOf].
    split; constructor; assumption.
Qed.

Lemma itemAt_inside {A} (l : list A) (order : list Z) :
  Forall (fun i => 0 <= i < Z.of_nat (length l)) order ->
  length (omap (fun index => itemAt l index) order) = length order.
Proof.
  induction 1 as [| i order Hi _ IH]; cbn [omap list_omap]; [reflexivity |].
  unfold itemAt at 1. rewrite (ltb_false i 0) by lia.
  destruct (lookup_lt_is_Some_2 l (Z.to_nat i)) as [x ->]; [lia |].
  cbn [length]. now rewrite IH.
Qed.

End MergeValidation.

(** X22. What [validateMergeRequest] hands on, for a merge order sent as
    an array. A request that passes has at least two files; without a
    merge order it is handed on unchanged; with one, the order handed on
    is what [parseInt] reads from the entries, every index lies between 0
    and the number of files minus one, no index occurs twice, so the order
    is no longer than the list of files, and it selects one file for each
    of its entries. *)
Theorem validated_merge_order (req req' : Req.t) (mergeOrder : option (list jsval)) :
  validateMergeRequest req mergeOrder = NextWith req' ->
  exists files_,
    Req.files req = Some files_ /\ Req.files req' = Some files_ /\
    (2 <= length files_)%nat /\
    match mergeOrder with
    | None => req' = req
    | Some items =>
        exists order,
          Body.mergeOrder (Req.body req') = Some order /\
          Forall2 (fun v i => parseIntOf v = Num i) items order /\
          Forall (fun i => 0 <= i < Z.of_nat (length files_)) order /\
          NoDup order /\
          (length order <= length files_)%nat /\
          length (omap (fun index => itemAt files_ index) order) = length order
    end.
Proof.
  unfold validateMergeRequest, badRequest.
  destruct (Req.files req) as [files_ |] eqn:Hf; [| discriminate].
  destruct (length files_ <? 2)%nat eqn:Hl; [discriminate |].
  apply Nat.ltb_ge in Hl.
  destruct mergeOrder as [items |].
  2: { intros [= <-]. exists files_. split; [reflexivity |]. split; [exact Hf |].
       split; [exact Hl | reflexivity]. }
  destruct (List.find _ _) as [bad |] eqn:Hfind; [discriminate |].
  destruct (negb _) eqn:Hdup; [discriminate |].
  intros [= <-]. exists files_. cbn [Req.files Req.body Body.mergeOrder].
  split; [reflexivity |]. split; [reflexivity |]. split; [exact Hl |].
  destruct (parsed_indices _ _ Hfind) as [Hparsed Hin].
  apply negb_false_iff, Nat.eqb_eq in Hdup.
  assert (NoDup (omap numberOf (parseIntOf <$> items))) as Hnodup.
  { apply remove_dups_same_length. rewrite Hdup.
    rewrite length_fmap. apply (Forall2_length _ _ _ Hparsed). }
  eexists. split; [reflexivity |]. split; [exact Hparsed |]. split; [exact Hin |].
  split; [exact Hnodup |]. split; [| now apply itemAt_inside].
  assert (omap numberOf (parseIntOf <$> items) ⊆+ (Z.of_nat <$> seq 0 (length files_))) as S.
  { apply NoDup_submseteq; [exact Hnodup |]. intros i Hi.
    rewrite Forall_forall in Hin. specialize (Hin i Hi).
    apply list_elem_of_fmap. exists (Z.to_nat i). split; [lia |]. apply elem_of_seq. lia. }
  apply submseteq_length in S. now rewrite length_fmap, length_seq in S.
Qed.

Lemma validated_merge_order_sample :
  exists req',
    validateMergeRequest uploadOrderRequest (Some orderAsFields) = NextWith req' /\
    Body.mergeOrder (Req.body req') = Some [2; 0; 1] /\
    exists files_,
      Req.files uploadOrderRequest = Some files_ /\ Req.files req' = Some files_ /\
      (2 <= length files_)%nat /\
      exists order,
        Body.mergeOrder (Req.body req') = Some order /\
        Forall2 (fun v i => parseIntOf v = Num i) orderAsFields order /\
        Forall (fun i => 0 <= i < Z.of_nat (length files_)) order /\
        NoDup order /\
        (length order <= length files_)%nat /\
        length (omap (fun index => itemAt files_ index) order) = length order.
Proof.
  eexists.
  match goal with
  | |- ?V /\ _ => assert V as H by (vm_compute; reflexivity)
  end.
  split; [exact H |]. split; [reflexivity |].
  exact (validated_merge_order uploadOrderRequest _ (Some orderAsFields) H).
Defined.

(* ===================================================================== *)
(** * Removing the files of an operation                                  *)
(* ===================================================================== *)

Section Cleanup.

Lemma stripPrefix_app (prefix rest : string) : stripPrefix prefix (prefix +:+ rest) = Some rest.
Proof.
  induction prefix as [| c prefix IH]; [now rewrite app_nil |].
  rewrite app_cons. cbn [stripPrefix]. now rewrite Ascii.eqb_refl.
Qed.

Lemma stripPrefix_Some (prefix s rest : string) :
  stripPrefix prefix s = Some rest -> s = prefix +:+ rest.
Proof.
  revert s. induction prefix as [| c prefix IH]; intros s; cbn [stripPrefix].
  - intros [= ->]. now rewrite app_nil.
  - destruct s as [| d s]; [discriminate |].
    destruct (Ascii.eqb c d) eqn:E; [| discriminate].
    apply Ascii.eqb_eq in E as ->. intros H. rewrite app_cons. f_equal. now apply IH.
Qed.

Lemma includesString_here (needle rest : string) :
  includesString needle (needle +:+ rest) = true.
Proof.
  destruct (needle +:+ rest) eqn:E; cbn [includesString]; rewrite <- E, stripPrefix_app;
    reflexivity.
Qed.

Lemma includesString_later (needle before s : string) :
  includesString needle s = true -> includesString needle (before +:+ s) = true.
Proof.
  intros H. induction before as [| c before IH]; [now rewrite app_nil |].
  rewrite app_cons. cbn [includesString].
  destruct (stripPrefix needle (String c (before +:+ s))); [reflexivity | exact IH].
Qed.

Lemma outputFileName_includes (operationId : string) (suffix : Suffix) (now : Z) :
  includesString operationId (outputFileName operationId suffix now) = true.
Proof.
  destruct suffix; cbn [outputFileName];
    unfold mergedFileName, pageFileName, rangeFileName, partFileName;
    apply includesString_later, includesString_here.
Qed.

Lemma entryOf_join (directory name : string) :
  name <> EmptyString -> includes "/" name = false ->
  entryOf directory (path_join directory name) = Some name.
Proof.
  intros Hne Hs. unfold entryOf, path_join. rewrite <- append_assoc, stripPrefix_app.
  rewrite (proj2 (String.eqb_neq _ _) Hne), Hs. reflexivity.
Qed.

Lemma entryOf_Some (directory p name : string) :
  entryOf directory p = Some name -> p = path_join directory name.
Proof.
  unfold entryOf. destruct (stripPrefix _ p) as [rest |] eqn:E; [| discriminate].
  destruct (_ || _); [discriminate |]. intros [= <-].
  apply stripPrefix_Some in E. unfold path_join. now rewrite <- append_assoc.
Qed.

(** The entries [fs.readdir] lists are the names of the files of the
    directory. *)
Lemma fs_readdir_run (directory : string) (w : World) :
  directoryExists w directory = true ->
  exists names,
    fs_readdir directory w = (w, Return names) /\
    (forall name, name <> EmptyString -> includes "/" name = false ->
                  is_Some (files w !! path_join directory name) -> name ∈ names) /\
    (forall name, name ∈ names -> is_Some (files w !! path_join directory name)).
Proof.
  intros Hd. unfold fs_readdir. rewrite Hd.
  eexists. split; [reflexivity |]. split.
  - intros name Hne Hs [b Hb]. apply list_elem_of_omap.
    exists (path_join directory name, b). split; [now apply elem_of_map_to_list |].
    now apply entryOf_join.
  - intros name Hin. apply list_elem_of_omap in Hin as ([p b] & Hin & He).
    apply elem_of_map_to_list in Hin. cbn [fst] in He.
    apply entryOf_Some in He as <-. now exists b.
Qed.

(** A directory that does not exist cannot be listed, and no file lies
    in it. *)
Lemma fs_readdir_missing (directory : string) (w : World) :
  directoryExists w directory = false ->
  (exists e, fs_readdir directory w = (w, Throw e)) /\
  (forall name, files w !! path_join directory name = None).
Proof.
  intros Hd. split; [unfold fs_readdir; rewrite Hd; eauto |].
  intros name. destruct (files w !! path_join directory name) as [b |] eqn:Hb; [| reflexivity].
  exfalso. unfold directoryExists in Hd. apply orb_false_iff in Hd as [_ Hd].
  assert (existsb (fun kv : string * FileBytes =>
                     match stripPrefix (directory +:+ "/") (fst kv) with
                     | Some _ => true
                     | None => false
                     end) (map_to_list (files w)) = true) as Ht; [| congruence].
  apply existsb_exists. exists (path_join directory name, b). split.
  - apply list_elem_of_In. now apply elem_of_map_to_list.
  - cbn [fst]. unfold path_join. now rewrite <- append_assoc, stripPrefix_app.
Qed.

(** The inner loop: the files of the directory whose names include the
    identifier are gone, and nothing else has changed. *)
Lemma sweep_run (operationId directory : string) (names : list string) (w : World) :
  exists w' done,
    forEach (cleanupFile operationId directory) names w = (w', Return done) /\
    sameRecords w w' /\
    (forall name, name ∈ names -> includesString operationId name = true ->
                  files w' !! path_join directory name = None) /\
    (forall q, (forall name, includesString operationId name = true ->
                             q <> path_join directory name) ->
               files w' !! q = files w !! q) /\
    (forall q, files w' !! q = None \/ files w' !! q = files w !! q).
Proof.
  revert w. induction names as [| name names IH]; intros w.
  - exists w, []. split; [reflexivity |]. split; [apply sameRecords_refl |].
    split; [intros name Hin; inversion Hin |]. split; [reflexivity | now right].
  - cbn [forEach].
    assert (exists w1, cleanupFile operationId directory name w = (w1, Return tt) /\
              sameRecords w w1 /\
              (includesString operationId name = true ->
               files w1 !! path_join directory name = None) /\
              (forall q, (includesString operationId name = true ->
                          q <> path_join directory name) ->
                         files w1 !! q = files w !! q) /\
              (forall q, files w1 !! q = None \/ files w1 !! q = files w !! q))
      as (w1 & Hstep & Hs1 & Hgone1 & Hkept1 & Hmono1).
    { unfold cleanupFile. destruct (includesString operationId name) eqn:E.
      - unfold tryCatch, fs_unlink.
        destruct (files w !! path_join directory name) as [b |] eqn:Hb.
        + eexists. split; [reflexivity |]. split; [repeat split |].
          split; [intros _; cbn; apply lookup_delete_eq |]. split.
          * intros q Hq. cbn. apply lookup_delete_ne. intros <-. now apply Hq.
          * intros q. cbn. destruct (decide (path_join directory name = q)) as [<- | N].
            -- left. apply lookup_delete_eq.
            -- right. now apply lookup_delete_ne.
        + exists w. split; [reflexivity |]. split; [apply sameRecords_refl |].
          split; [now intros _ |]. split; [reflexivity | now right].
      - exists w. split; [reflexivity |]. split; [apply sameRecords_refl |].
        split; [discriminate |]. split; [reflexivity | now right]. }
    destruct (IH w1) as (w2 & done & Hrest & Hs2 & Hgone2 & Hkept2 & Hmono2).
    exists w2, (tt :: done). split.
    { rewrite (bind_return _ _ _ _ _ Hstep), (bind_return _ _ _ _ _ Hrest). reflexivity. }
    split; [exact (sameRecords_trans _ _ _ Hs1 Hs2) |]. split; [| split].
    + intros n Hin Hn. apply elem_of_cons in Hin as [-> | Hin].
      * destruct (Hmono2 (path_join directory name)) as [H | H]; [exact H |].
        rewrite H. now apply Hgone1.
      * now apply Hgone2.
    + intros q Hq. rewrite Hkept2 by exact Hq. apply Hkept1. intros Hn. now apply Hq.
    + intros q. destruct (Hmono2 q) as [H | H]; [now left |].
      rewrite H. apply Hmono1.
Qed.

(** One directory: its listing, then the inner loop. *)
Lemma directory_run (operationId directory : string) (w : World) :
  directoryExists w directory = true ->
  exists w' done,
    (files_ <- fs_readdir directory ;; forEach (cleanupFile operationId directory) files_) w
    = (w', Return done) /\
    sameRecords w w' /\
    (forall name, name <> EmptyString -> includes "/" name = false ->
                  includesString operationId name = true ->
                  files w' !! path_join directory name = None) /\
    (forall q, (forall name, includesString operationId name = true ->
                             q <> path_join directory name) ->
               files w' !! q = files w !! q) /\
    (forall q, files w' !! q = None \/ files w' !! q = files w !! q).
Proof.
  intros Hd.
  destruct (fs_readdir_run directory w Hd) as (names & Hread & Hall & _).
  destruct (sweep_run operationId directory names w)
    as (w' & done & Hrun & Hs & Hgone & Hkept & Hmono).
  exists w', done. split; [now rewrite (bind_return _ _ _ _ _ Hread) |].
  split; [exact Hs |]. split; [| split; assumption].
  intros name Hne Hslash Hn.
  destruct (files w !! path_join directory name) as [b |] eqn:Hb.
  - apply Hgone; [| exact Hn]. apply Hall; [assumption | assumption | now exists b].
  - destruct (Hmono (path_join directory name)) as [H | H]; [exact H | now rewrite H].
Qed.

(** One directory, whether it exists or not: either way the loop over
    the directories ends there without a file of the operation in it. *)
Lemma directory_outcome (operationId directory : string) (w : World) :
  exists w' o,
    (files_ <- fs_readdir directory ;; forEach (cleanupFile operationId directory) files_) w
    = (w', o) /\
    (directoryExists w directory = true -> exists done, o = Return done) /\
    (directoryExists w directory = false -> w' = w /\ exists e, o = Throw e) /\
    sameRecords w w' /\
    (forall name, name <> EmptyString -> includes "/" name = false ->
                  includesString operationId name = true ->
                  files w' !! path_join directory name = None) /\
    (forall q, (forall name, includesString operationId name = true ->
                             q <> path_join directory name) ->
               files w' !! q = files w !! q) /\
    (forall q, files w' !! q = None \/ files w' !! q = files w !! q).
Proof.
  destruct (directoryExists w directory) eqn:Hd.
  - destruct (directory_run operationId directory w Hd)
      as (w' & done & Hrun & Hs & Hgone & Hkept & Hmono).
    exists w', (Return done). split; [exact Hrun |]. split; [eauto |].
    split; [discriminate |]. split; [exact Hs |]. split; [exact Hgone |].
    split; [exact Hkept | exact Hmono].
  - destruct (fs_readdir_missing directory w Hd) as [(e & Hread) Hnone].
    exists w, (Throw e). split; [now rewrite (bind_throw _ _ _ _ _ Hread) |].
    split; [discriminate |]. split; [eauto |]. split; [apply sameRecords_refl |].
    split; [intros name _ _ _; apply Hnone |]. split; [reflexivity | now right].
Qed.

Lemma cleanupOperationFiles_run (uploadsDir operationId : string) (w : World) :
  exists w',
    cleanupOperationFiles uploadsDir operationId w = (w', Return tt) /\
    sameRecords w w' /\
    (directoryExists w uploadsDir = true ->
     forall directory name,
        directory = uploadsDir \/ directory = processedDir (env w) ->
        name <> EmptyString -> includes "/" name = false ->
        includesString operationId name = true ->
        files w' !! path_join directory name = None) /\
    (directoryExists w uploadsDir = false -> w' = w) /\
    (forall q, includesString operationId q = false -> files w' !! q = files w !! q) /\
    (forall q, files w' !! q = None \/ files w' !! q = files w !! q).
Proof.
  destruct (directory_outcome operationId uploadsDir w)
    as (w1 & o1 & Hrun1 & Hyes1 & Hno1 & Hs1 & Hgone1 & Hkept1 & Hmono1).
  destruct (directory_outcome operationId (processedDir (env w)) w1)
    as (w2 & o2 & Hrun2 & _ & _ & Hs2 & Hgone2 & Hkept2 & Hmono2).
  assert (forall q directory name, includesString operationId q = false ->
            includesString operationId name = true -> q <> path_join directory name) as Hfar.
  { intros q directory name Hq Hn ->. unfold path_join in Hq.
    rewrite includesString_later in Hq; [discriminate |].
    now apply includesString_later. }
  destruct (directoryExists w uploadsDir) eqn:Hd.
  - destruct (Hyes1 eq_refl) as (done1 & ->).
    exists w2. split.
    { unfold cleanupOperationFiles, tryCatch. cbn [forEach].
      unfold bind, getEnv, ret in *. cbn beta iota. rewrite Hrun1, Hrun2.
      now destruct o2. }
    split; [exact (sameRecords_trans _ _ _ Hs1 Hs2) |]. split; [| split; [| split]].
    + intros _ directory name [-> | ->] Hne Hslash Hn.
      * destruct (Hmono2 (path_join uploadsDir name)) as [H | H]; [exact H |].
        rewrite H. now apply Hgone1.
      * now apply Hgone2.
    + discriminate.
    + intros q Hq. rewrite Hkept2 by (intros name Hn; now apply Hfar).
      apply Hkept1. intros name Hn. now apply Hfar.
    + intros q. destruct (Hmono2 q) as [H | H]; [now left |]. rewrite H. apply Hmono1.
  - destruct (Hno1 eq_refl) as (-> & e1 & ->).
    exists w. split.
    { unfold cleanupOperationFiles, tryCatch. cbn [forEach].
      unfold bind, getEnv, ret in *. cbn beta iota. now rewrite Hrun1. }
    split; [apply sameRecords_refl |]. split; [discriminate |].
    split; [reflexivity |]. split; [reflexivity | now right].
Qed.

End Cleanup.

(** X23. [cleanupOperationFiles] removes what the transformers wrote
    for an operation and nothing that does not carry its identifier. It
    never throws and leaves the operation records alone. When the uploads
    directory exists, no file of the uploads or the output directory whose
    name includes the identifier is left afterwards, so every output a
    merge or a split wrote for this operation is gone. When the uploads
    directory does not exist, listing it fails, the function gives up
    there and nothing at all is removed, the outputs of the operation
    included. In both cases a path that does not include the identifier
    holds what it held before, and no file is created or changed. *)
Theorem cleanup_removes_operation_files (uploadsDir operationId : string) (w : World) :
  includes "/" operationId = false ->
  exists w',
    cleanupOperationFiles uploadsDir operationId w = (w', Return tt) /\
    sameRecords w w' /\
    (directoryExists w uploadsDir = true ->
     (forall directory name,
         directory = uploadsDir \/ directory = processedDir (env w) ->
         name <> EmptyString -> includes "/" name = false ->
         includesString operationId name = true ->
         files w' !! path_join directory name = None) /\
     (forall q, namedFor (env w) operationId q -> files w' !! q = None)) /\
    (directoryExists w uploadsDir = false -> w' = w) /\
    (forall q, includesString operationId q = false -> files w' !! q = files w !! q) /\
    (forall q, files w' !! q = None \/ files w' !! q = files w !! q).
Proof.
  intros Hslash.
  destruct (cleanupOperationFiles_run uploadsDir operationId w)
    as (w' & Hrun & Hs & Hgone & Hnot & Hkept & Hmono).
  exists w'. split; [exact Hrun |]. split; [exact Hs |].
  split; [| split; [exact Hnot | split; assumption]].
  intros Hd. split; [exact (Hgone Hd) |].
  intros q (suffix & now & ->). apply (Hgone Hd).
  - now right.
  - rewrite outputFileName_shape. destruct (nameHead operationId suffix); discriminate.
  - now apply outputFileName_no_slash.
  - apply outputFileName_includes.
Qed.

Lemma cleanup_removes_operation_files_sample :
  includes "/" firstId = false /\
  directoryExists afterSplitBySize "/srv/app/uploads" = true /\
  is_Some (files afterSplitBySize
           !! path_join (processedDir sampleEnv) (partFileName firstId 0 1700000000001)) /\
  exists w',
    cleanupOperationFiles "/srv/app/uploads" firstId afterSplitBySize = (w', Return tt) /\
    files w' !! path_join (processedDir sampleEnv) (partFileName firstId 0 1700000000001) = None /\
    files w' !! MulterFile.path (sampleUpload "ten")
    = files afterSplitBySize !! MulterFile.path (sampleUpload "ten").
Proof.
  assert (includes "/" firstId = false) as H by (vm_compute; reflexivity).
  assert (directoryExists afterSplitBySize "/srv/app/uploads" = true) as D
    by (vm_compute; reflexivity).
  split; [exact H |]. split; [exact D |]. split; [eexists; vm_compute; reflexivity |].
  destruct (cleanup_removes_operation_files "/srv/app/uploads" firstId afterSplitBySize H)
    as (w' & Hrun & _ & Hgone & _ & Hkept & _).
  exists w'. split; [exact Hrun |]. split.
  - apply (proj2 (Hgone D)). exists (PartOutput 0), 1700000000001. reflexivity.
  - apply Hkept. vm_compute. reflexivity.
Defined.

(* ===================================================================== *)
(** * The statistics of the operations                                    *)
(* ===================================================================== *)

Section Statistics.

Lemma countByStatus_lookup (ops : list PdfOperation) (s : string) :
  countByStatus ops !! s
  = match length (filter (fun op => status op = s) ops) with
    | O => None
    | S n => Some (S n)
    end.
Proof.
  induction ops as [| op ops IH]; cbn [countByStatus foldr]; [apply lookup_empty |].
  fold (countByStatus ops). rewrite filter_cons.
  destruct (decide (status op = s)) as [-> | N].
  - rewrite lookup_insert_eq, IH. cbn [length].
    destruct (length (filter _ ops)); reflexivity.
  - rewrite lookup_insert_ne by exact N. exact IH.
Qed.

Lemma totalCount_insert (groups : gmap string nat) (s : string) (n : nat) :
  groups !! s = None -> totalCount (<[s := n]> groups) = (n + totalCount groups)%nat.
Proof.
  intros H. unfold totalCount.
  apply (map_fold_insert_L (fun (_ : string) (count total : nat) => (count + total)%nat)).
  - intros. lia.
  - exact H.
Qed.

Lemma totalCount_bump (groups : gmap string nat) (s : string) :
  totalCount (<[s := S (default O (groups !! s))]> groups) = S (totalCount groups).
Proof.
  destruct (groups !! s) as [n |] eqn:E; cbn [default from_option id].
  - rewrite <- (insert_delete_eq groups s (S n)).
    rewrite totalCount_insert by apply lookup_delete_eq.
    rewrite <- (insert_delete_id groups s n E) at 2.
    rewrite totalCount_insert by apply lookup_delete_eq. reflexivity.
  - now rewrite totalCount_insert.
Qed.

Lemma totalCount_countByStatus (ops : list PdfOperation) :
  totalCount (countByStatus ops) = length ops.
Proof.
  induction ops as [| op ops IH]; [reflexivity |].
  cbn [countByStatus foldr length]. fold (countByStatus ops).
  now rewrite totalCount_bump, IH.
Qed.

End Statistics.

(** X24. The statistics partition the collection. [getOperationStats]
    changes nothing and gives one group for each status that at least one
    persisted operation has, never an empty group; the count of a group
    is the number of persisted operations with that status; and the counts
    of all groups add up to the number of persisted operations. *)
Theorem operation_stats_partition (w : World) :
  exists groups,
    getOperationStats w = (w, Return groups) /\
    (forall s count,
        groups !! s = Some count <->
        (0 < count)%nat /\
        count = length (filter (fun op => status op = s)
                               (snd <$> map_to_list (collection w)))) /\
    totalCount groups = size (collection w).
Proof.
  eexists. split; [reflexivity |]. split.
  - intros s count. rewrite countByStatus_lookup.
    destruct (length (filter _ _)) as [| n].
    + split; [discriminate | intros [H ->]; lia].
    + split; [intros [= <-]; split; [lia | reflexivity] | intros [_ ->]; reflexivity].
  - now rewrite totalCount_countByStatus, length_fmap, length_map_to_list.
Qed.

Example operation_stats_after_requests :
  snd (getOperationStats afterSplitAndMerge)
  = Return (<["completed"%string := 2%nat]> ∅).
Proof. vm_compute. reflexivity. Qed.

(* ===================================================================== *)
(** * A split into pages from its acceptance to its downloads             *)
(* ===================================================================== *)

Section PagesRequest.

Variables (req : Req.t) (w : World) (inputFile : MulterFile.t) (pdf : PDFDocument).
Hypothesis has_file : Req.files req = Some [inputFile].
Hypothesis by_pages :
  Body.splitType (Req.body req) = None \/ Body.splitType (Req.body req) = Some "pages"%string.
Hypothesis is_pdf : files w !! MulterFile.path inputFile = Some (PdfBytes pdf).
Hypothesis fresh : freshOperation w.

Lemma by_pages_enum :
  inEnum (default "pages"%string (Body.splitType (Req.body req))) splitTypeEnum = true.
Proof. destruct by_pages as [-> | ->]; reflexivity. Qed.

Lemma by_pages_options :
  Options.splitType (splitOptionsOf req) = None \/
  Options.splitType (splitOptionsOf req) = Some "pages"%string.
Proof. right. unfold splitOptionsOf. destruct by_pages as [-> | ->]; reflexivity. Qed.

(** The path of the output for page [i + 1]. *)
Lemma splitPdf_pages_completes :
  exists w' final,
    splitPdf req w
    = (w', Return (Json 202 true "Split operation started" None (startedData (nextId w)))) /\
    env w' = env w /\
    collection w' !! fresh_id w = Some final /\
    (forall k, k <> fresh_id w -> collection w' !! k = collection w !! k) /\
    operationId final = nextId w /\
    status final = "completed"%string /\
    length (outputFiles final) = length pdf /\
    forall (i : nat) (page : PDFPage),
      pdf !! i = Some page ->
      outputFiles final !! i
      = Some (toOutputFile
                (path_join (processedDir (env w))
                   (pageFileName (nextId w) (Z.of_nat i) (clock (env w) (S (ticks w) + i))))
                (pdfSize (env w) [page])) /\
      files w' !! path_join (processedDir (env w))
                    (pageFileName (nextId w) (Z.of_nat i) (clock (env w) (S (ticks w) + i)))
      = Some (PdfBytes [page]).
Proof.
  rewrite (splitPdf_started req w inputFile has_file by_pages_enum fresh).
  destruct fresh as (Hid & _ & Hnew & Hfree).
  set (this := fresh_id w).
  set (op0 := splitRecord req inputFile (nextId w)).
  set (w0 := created op0 w).
  assert (documents w0 !! this = Some op0) as Hdoc0 by (cbn; apply lookup_insert_eq).
  assert (is_Some (collection w0 !! this)) as Hcoll0
    by (exists op0; cbn; apply lookup_insert_eq).
  assert (storable op0) as Hst0
    by (apply validate_storable; apply splitRecord_valid; [exact Hid | exact by_pages_enum]).
  rewrite processSplitOperation_executor.
  rewrite (executor_outcome this _ w0 op0 (keeps_splitWork _ _ _) Hdoc0 Hcoll0 Hst0).
  cbn [fst].
  pose proof (started_document w0 this op0 Hdoc0 Hcoll0 Hst0) as Hget.
  rewrite (started_eq w0 this op0 Hdoc0 Hcoll0 Hst0) in *.
  set (w1 := transitioned this (processingAt (clock (env w0) (ticks w0)) op0) w0) in *.
  assert (files w1 !! MulterFile.path inputFile = Some (PdfBytes pdf)) as Hin by exact is_pdf.
  pose proof (fun i page =>
                split_pages_page w1 (MulterFile.path inputFile) (nextId w) pdf
                  (splitOptionsOf req) i page Hin by_pages_options) as Hpage.
  assert (exists paths,
             snd (splitPdfFile (MulterFile.path inputFile) (nextId w) (splitOptionsOf req) w1)
             = Return paths /\ length paths = length pdf) as (paths & Hpaths & Hlen).
  { rewrite (splitPdfFile_default _ _ _ _ by_pages_options).
    rewrite (split_pages_run w1 (MulterFile.path inputFile) (nextId w) pdf Hin). cbn [snd].
    eexists. split; [reflexivity |].
    now rewrite length_fmap, plan_length, countFrom_length. }
  destruct (splitPdfFile (MulterFile.path inputFile) (nextId w) (splitOptionsOf req) w1)
    as [w2 r] eqn:Esplit.
  cbn [fst snd] in Hpaths, Hpage. subst r. cbn [pathsOf] in Hpage.
  pose proof (keeps_splitPdfFile (MulterFile.path inputFile) (nextId w) (splitOptionsOf req) w1)
    as K. rewrite Esplit in K. cbn [fst] in K. destruct K as (Ke & _ & _ & _ & Kc & _).
  assert (splitWork this inputFile (splitOptionsOf req) w1
          = (w2, Return ((fun p => toOutputFile p (sizeAt w2 p)) <$> paths))) as Hwork.
  { unfold splitWork. rewrite (bind_return _ _ _ _ _ Hget).
    change (operationId (processingAt (clock (env w0) (ticks w0)) op0)) with (nextId w).
    rewrite (bind_return _ _ _ _ _ Esplit).
    apply stat_all. exact (splitPdfFile_written _ _ _ _ _ _ Esplit). }
  rewrite Hwork. cbn [fst snd].
  eexists. eexists. split; [reflexivity |].
  split; [cbn; exact Ke |].
  split; [cbn; apply lookup_insert_eq |].
  split.
  { intros k Hk. assert (this <> k) as Nk by (intros E; apply Hk; symmetry; exact E).
    cbn. rewrite lookup_insert_ne by exact Nk. rewrite Kc. cbn.
    now rewrite !lookup_insert_ne by exact Nk. }
  split; [reflexivity |]. split; [reflexivity |].
  split; [cbn; now rewrite length_fmap |].
  intros i page Hi. destruct (Hpage i page Hi) as [Hp Hf].
  change (env w1) with (env w) in Hp, Hf. change (ticks w1) with (S (ticks w)) in Hp, Hf.
  split; [| exact Hf].
  cbn. rewrite list_lookup_fmap, Hp. cbn. unfold sizeAt.
  cbn [Nat.add] in Hf. rewrite Hf, Ke. reflexivity.
Qed.

End PagesRequest.

(** X25. A split request into pages, from its acceptance to its
    downloads. When one PDF with [n] pages is uploaded, the split type is
    [pages] or absent and the identifier drawn is new, the handler answers
    202, and when the executor is done the operation is found under the
    identifier with status [completed] and [n] output files; output [i]
    holds page [i + 1] alone, and the download link the record stores for
    it is served by [downloadFile] (and [previewFile]) with that very
    file; and when [n] is at least 2, the download-operation endpoint
    answers with the list of all [n] files. *)
Theorem split_request_into_pages (req : Req.t) (w : World) (inputFile : MulterFile.t)
    (pdf : PDFDocument) :
  Req.files req = Some [inputFile] ->
  Body.splitType (Req.body req) = None \/ Body.splitType (Req.body req) = Some "pages"%string ->
  files w !! MulterFile.path inputFile = Some (PdfBytes pdf) ->
  freshOperation w ->
  exists w' final,
    splitPdf req w
    = (w', Return (Json 202 true "Split operation started" None (startedData (nextId w)))) /\
    findByOperationId (nextId w) w' = (w', Return (Some final)) /\
    status final = "completed"%string /\
    length (outputFiles final) = length pdf /\
    (forall (i : nat) (page : PDFPage),
        pdf !! i = Some page ->
        exists out,
          outputFiles final !! i = Some out /\
          files w' !! OutputFile.path out = Some (PdfBytes [page]) /\
          OutputFile.downloadUrl out = ("/api/pdf/download/" +:+ OutputFile.filename out)%string /\
          downloadFile (OutputFile.filename out) w'
          = (w', Return (DownloadReply (OutputFile.path out) (OutputFile.filename out)
                                       (attachment (OutputFile.filename out)))) /\
          previewFile (OutputFile.filename out) w'
          = (w', Return (InlineReply (OutputFile.path out)
                                     (inline (OutputFile.filename out))))) /\
    ((2 <= length pdf)%nat ->
     forall req', Req.operationId req' = nextId w ->
       downloadOperationResult req' w'
       = (w', Return (FileListReply "Multiple files available for download" (nextId w)
                                    (outputLink <$> outputFiles final)))).
Proof.
  intros Hfile Hpages Hpdf Hfresh.
  destruct (splitPdf_pages_completes req w inputFile pdf Hfile Hpages Hpdf Hfresh)
    as (w' & final & Hrun & Henv & Hthis & Hother & Hid & Hstatus & Hlen & Hout).
  pose proof Hfresh as (_ & Hslash & _ & Hfree).
  assert (findByOperationId (nextId w) w' = (w', Return (Some final))) as F.
  { rewrite <- Hid. apply (findByOperationId_only w' (fresh_id w) final Hthis).
    intros k' op' Hk' Heq. destruct (decide (k' = fresh_id w)) as [-> | Nk]; [reflexivity |].
    rewrite (Hother k' Nk) in Hk'. destruct (Hfree k' op' Hk'). congruence. }
  exists w', final. split; [exact Hrun |]. split; [exact F |]. split; [exact Hstatus |].
  split; [exact Hlen |]. split.
  - intros i page Hi. destruct (Hout i page Hi) as [Ho Hf].
    eexists. split; [exact Ho |].
    unfold toOutputFile.
    cbn [OutputFile.path OutputFile.filename OutputFile.downloadUrl].
    change (pageFileName (nextId w) (Z.of_nat i) (clock (env w) (S (ticks w) + i)))
      with (outputFileName (nextId w) (PageOutput (Z.of_nat i))
                           (clock (env w) (S (ticks w) + i))) in *.
    rewrite (path_basename_join _ _ (outputFileName_no_slash _ _ _ Hslash)).
    split; [exact Hf |]. split; [reflexivity |].
    unfold downloadFile, previewFile, bind, getEnv, tryCatch, fs_access.
    rewrite Henv, Hf. split; reflexivity.
  - intros Hn req' Hreq. unfold downloadOperationResult. rewrite Hreq.
    rewrite (bind_return _ _ _ _ _ F), Hstatus.
    change (String.eqb "completed" "completed") with true. cbn [negb].
    destruct (outputFiles final) as [| a [| b l]] eqn:E; cbn [length] in Hlen; try lia.
    reflexivity.
Qed.

Lemma split_request_into_pages_sample :
  Req.files splitRequestByPages = Some [sampleUpload "six"] /\
  (Body.splitType (Req.body splitRequestByPages) = None \/
   Body.splitType (Req.body splitRequestByPages) = Some "pages"%string) /\
  files sampleWorld !! MulterFile.path (sampleUpload "six") = Some (PdfBytes sixPages) /\
  freshOperation sampleWorld /\
  exists w' final,
    splitPdf splitRequestByPages sampleWorld
    = (w', Return (Json 202 true "Split operation started" None
                        (startedData (nextId sampleWorld)))) /\
    findByOperationId (nextId sampleWorld) w' = (w', Return (Some final)) /\
    status final = "completed"%string /\
    length (outputFiles final) = length sixPages /\
    (forall (i : nat) (page : PDFPage),
        sixPages !! i = Some page ->
        exists out,
          outputFiles final !! i = Some out /\
          files w' !! OutputFile.path out = Some (PdfBytes [page]) /\
          OutputFile.downloadUrl out = ("/api/pdf/download/" +:+ OutputFile.filename out)%string /\
          downloadFile (OutputFile.filename out) w'
          = (w', Return (DownloadReply (OutputFile.path out) (OutputFile.filename out)
                                       (attachment (OutputFile.filename out)))) /\
          previewFile (OutputFile.filename out) w'
          = (w', Return (InlineReply (OutputFile.path out)
                                     (inline (OutputFile.filename out))))) /\
    ((2 <= length sixPages)%nat ->
     forall req', Req.operationId req' = nextId sampleWorld ->
       downloadOperationResult req' w'
       = (w', Return (FileListReply "Multiple files available for download"
                                    (nextId sampleWorld) (outputLink <$> outputFiles final)))).
Proof.
  assert (files sampleWorld !! MulterFile.path (sampleUpload "six") = Some (PdfBytes sixPages))
    as Hin by (vm_compute; reflexivity).
  split; [reflexivity |]. split; [left; reflexivity |]. split; [exact Hin |].
  split; [exact sampleWorld_fresh |].
  exact (split_request_into_pages splitRequestByPages sampleWorld (sampleUpload "six") sixPages
           eq_refl (or_introl eq_refl) Hin sampleWorld_fresh).
Defined.

Section Sweep.

Variable selected : string -> bool.
Variable directory : string.
Variable step : string -> Eff unit.

Hypothesis step_run : forall name w,
  step name w
  = (if selected name then
       match files w !! path_join directory name with
       | Some _ => set_files (delete (path_join directory name) (files w)) w
       | None => w
       end
     else w, Return tt).

(** A loop whose rounds remove the selected entries removes all of
    them that it is given, and nothing else. *)
Lemma sweep_selected (names : list string) (w : World) :
  exists w' done,
    forEach step names w = (w', Return done) /\
    sameRecords w w' /\ ticks w' = ticks w /\
    (forall name, name ∈ names -> selected name = true ->
                  files w' !! path_join directory name = None) /\
    (forall q, (forall name, name ∈ names -> selected name = true ->
                             q <> path_join directory name) ->
               files w' !! q = files w !! q) /\
    (forall q, files w' !! q = None \/ files w' !! q = files w !! q).
Proof.
  revert w. induction names as [| name names IH]; intros w.
  - exists w, []. split; [reflexivity |]. split; [apply sameRecords_refl |].
    split; [reflexivity |].
    split; [intros name Hin; inversion Hin |]. split; [reflexivity | now right].
  - cbn [forEach]. pose proof (step_run name w) as Hstep.
    set (w1 := if selected name then _ else _) in Hstep.
    assert (sameRecords w w1 /\ ticks w1 = ticks w /\
            (selected name = true -> files w1 !! path_join directory name = None) /\
            (forall q, (selected name = true -> q <> path_join directory name) ->
                       files w1 !! q = files w !! q) /\
            (forall q, files w1 !! q = None \/ files w1 !! q = files w !! q))
      as (Hs1 & Ht1 & Hgone1 & Hkept1 & Hmono1).
    { subst w1. destruct (selected name).
      - destruct (files w !! path_join directory name) as [b |] eqn:Hb.
        + split; [repeat split |]. split; [reflexivity |].
          split; [intros _; cbn; apply lookup_delete_eq |]. split.
          * intros q Hq. cbn. apply lookup_delete_ne. intros <-. now apply Hq.
          * intros q. cbn. destruct (decide (path_join directory name = q)) as [<- | N].
            -- left. apply lookup_delete_eq.
            -- right. now apply lookup_delete_ne.
        + split; [apply sameRecords_refl |]. split; [reflexivity |].
          split; [now intros _ |]. split; [reflexivity | now right].
      - split; [apply sameRecords_refl |]. split; [reflexivity |].
        split; [discriminate |]. split; [reflexivity | now right]. }
    destruct (IH w1) as (w2 & done & Hrest & Hs2 & Ht2 & Hgone2 & Hkept2 & Hmono2).
    exists w2, (tt :: done). split.
    { rewrite (bind_return _ _ _ _ _ Hstep), (bind_return _ _ _ _ _ Hrest). reflexivity. }
    split; [exact (sameRecords_trans _ _ _ Hs1 Hs2) |].
    split; [now rewrite Ht2 |]. split; [| split].
    + intros n Hin Hn. apply elem_of_cons in Hin as [-> | Hin].
      * destruct (Hmono2 (path_join directory name)) as [H | H]; [exact H |].
        rewrite H. now apply Hgone1.
      * now apply Hgone2.
    + intros q Hq. rewrite Hkept2.
      * apply Hkept1. intros Hn. apply Hq; [left | exact Hn].
      * intros n Hin. apply Hq. now right.
    + intros q. destruct (Hmono2 q) as [H | H]; [now left |].
      rewrite H. apply Hmono1.
Qed.

End Sweep.

(** What [fs.readdir] lists are names of entries of the directory. *)
Lemma fs_readdir_entries (directory : string) (w : World) :
  directoryExists w directory = true ->
  exists names,
    fs_readdir directory w = (w, Return names) /\
    (forall name, name <> EmptyString -> includes "/" name = false ->
                  is_Some (files w !! path_join directory name) -> name ∈ names) /\
    (forall name, name ∈ names ->
                  entryOf directory (path_join directory name) = Some name).
Proof.
  intros Hd. unfold fs_readdir. rewrite Hd.
  eexists. split; [reflexivity |]. split.
  - intros name Hne Hs [b Hb]. apply list_elem_of_omap.
    exists (path_join directory name, b). split; [now apply elem_of_map_to_list |].
    now apply entryOf_join.
  - intros name Hin. apply list_elem_of_omap in Hin as ([p b] & Hin & He).
    cbn [fst] in He. pose proof (entryOf_Some _ _ _ He) as ->. exact He.
Qed.

Section OldFiles.

Variable mtime : string -> Z.
Variables now maxAge : Z.



Lemma cleanupOldFile_run (directory name : string) (w : World) :
  cleanupOldFile mtime now maxAge directory name w
  = (if tooOld mtime now maxAge (path_join directory name) then
       match files w !! path_join directory name with
       | Some _ => set_files (delete (path_join directory name) (files w)) w
       | None => w
       end
     else w, Return tt).
Proof.
  unfold cleanupOldFile, tooOld, tryCatch, bind, fs_stat, fs_unlink, ret.
  destruct (files w !! path_join directory name) as [b |] eqn:Hb.
  - destruct (now - mtime (path_join directory name) >? maxAge).
    + now rewrite Hb.
    + reflexivity.
  - now destruct (now - mtime (path_join directory name) >? maxAge).
Qed.

(** One directory of [cleanupFiles]. *)
Lemma old_directory_run (directory : string) (w : World) :
  exists w',
    tryCatch
      (files_ <- fs_readdir directory ;;
       forEach (cleanupOldFile mtime now maxAge directory) files_ ;;
       ret tt)
      (fun _ => ret tt) w
    = (w', Return tt) /\
    sameRecords w w' /\ ticks w' = ticks w /\
    (forall name, name <> EmptyString -> includes "/" name = false ->
                  tooOld mtime now maxAge (path_join directory name) = true ->
                  files w' !! path_join directory name = None) /\
    (forall q, tooOld mtime now maxAge q = false \/ entryOf directory q = None ->
               files w' !! q = files w !! q) /\
    (forall q, files w' !! q = None \/ files w' !! q = files w !! q).
Proof.
  destruct (directoryExists w directory) eqn:Hd.
  2: { destruct (fs_readdir_missing directory w Hd) as [(e & Hread) Hnone].
       exists w. split.
       { unfold tryCatch. now rewrite (bind_throw _ _ _ _ _ Hread). }
       split; [apply sameRecords_refl |]. split; [reflexivity |].
       split; [intros name _ _ _; apply Hnone |]. split; [reflexivity | now right]. }
  destruct (fs_readdir_entries directory w Hd) as (names & Hread & Hall & Hentries).
  destruct (sweep_selected (fun name => tooOld mtime now maxAge (path_join directory name)) directory
              (cleanupOldFile mtime now maxAge directory)
              (cleanupOldFile_run directory) names w)
    as (w' & done & Hrun & Hs & Ht & Hgone & Hkept & Hmono).
  exists w'. split.
  { unfold tryCatch.
    rewrite (bind_return _ _ _ _ _ Hread), (bind_return _ _ _ _ _ Hrun). reflexivity. }
  split; [exact Hs |]. split; [exact Ht |]. split; [| split; [| exact Hmono]].
  - intros name Hne Hslash Hold.
    destruct (files w !! path_join directory name) as [b |] eqn:Hb.
    + apply Hgone; [| exact Hold]. apply Hall; [assumption | assumption | now exists b].
    + destruct (Hmono (path_join directory name)) as [H | H]; [exact H | now rewrite H].
  - intros q Hq. apply Hkept. intros name Hin Hold ->.
    destruct Hq as [Hq | Hq]; [congruence |].
    rewrite (Hentries name Hin) in Hq. discriminate.
Qed.

End OldFiles.

(** X26. [cleanupFiles] removes the files that are too old and no
    others. It reads the clock once, never throws and leaves the
    operation records alone. Afterwards no entry of the uploads, the
    output or the temp directory whose modification time lies more than
    [tempFileLifetime] hours before that clock reading is left; a file
    that is not that old, or that is not an entry of one of the three
    directories, holds what it held before; and no file is created or
    changed. *)
Theorem cleanup_removes_old_files (mtime : string -> Z) (tempFileLifetime : Z)
    (uploadsDir tempDir : string) (w : World) :
  exists w',
    cleanupFiles mtime tempFileLifetime uploadsDir tempDir w = (w', Return tt) /\
    sameRecords w w' /\ ticks w' = S (ticks w) /\
    (forall directory name,
        directory ∈ [uploadsDir; processedDir (env w); tempDir] ->
        name <> EmptyString -> includes "/" name = false ->
        clock (env w) (ticks w) - mtime (path_join directory name)
        > tempFileLifetime * 3600000 ->
        files w' !! path_join directory name = None) /\
    (forall q, clock (env w) (ticks w) - mtime q <= tempFileLifetime * 3600000 ->
               files w' !! q = files w !! q) /\
    (forall q, entryOf uploadsDir q = None -> entryOf (processedDir (env w)) q = None ->
               entryOf tempDir q = None ->
               files w' !! q = files w !! q) /\
    (forall q, files w' !! q = None \/ files w' !! q = files w !! q).
Proof.
  set (now := clock (env w) (ticks w)).
  set (maxAge := tempFileLifetime * 60 * 60 * 1000).
  assert (tempFileLifetime * 3600000 = maxAge) as -> by (subst maxAge; lia).
  set (w0 := set_ticks (S (ticks w)) w).
  destruct (old_directory_run mtime now maxAge uploadsDir w0)
    as (w1 & Hrun1 & Hs1 & Ht1 & Hgone1 & Hkept1 & Hmono1).
  destruct (old_directory_run mtime now maxAge (processedDir (env w)) w1)
    as (w2 & Hrun2 & Hs2 & Ht2 & Hgone2 & Hkept2 & Hmono2).
  destruct (old_directory_run mtime now maxAge tempDir w2)
    as (w3 & Hrun3 & Hs3 & Ht3 & Hgone3 & Hkept3 & Hmono3).
  assert (forall p, now - mtime p > maxAge -> tooOld mtime now maxAge p = true) as Hold.
  { intros p Hp. unfold tooOld. apply Z.gtb_lt. lia. }
  assert (forall p, now - mtime p <= maxAge -> tooOld mtime now maxAge p = false) as Hnew.
  { intros p Hp. unfold tooOld. rewrite Z.gtb_ltb. apply Z.ltb_ge. exact Hp. }
  exists w3. split.
  { unfold cleanupFiles. fold maxAge.
    assert (Date_now w = (w0, Return now)) as Hnow by reflexivity.
    rewrite (bind_return _ _ _ _ _ Hnow).
    assert (getEnv w0 = (w0, Return (env w))) as Henv by reflexivity.
    rewrite (bind_return _ _ _ _ _ Henv).
    unfold tryCatch at 1. cbn [forEach].
    unfold bind at 1. rewrite (bind_return _ _ _ _ _ Hrun1).
    unfold bind at 1. rewrite (bind_return _ _ _ _ _ Hrun2).
    unfold bind at 1. rewrite (bind_return _ _ _ _ _ Hrun3).
    reflexivity. }
  split.
  { apply (sameRecords_trans w w0); [repeat split |].
    exact (sameRecords_trans _ _ _ Hs1 (sameRecords_trans _ _ _ Hs2 Hs3)). }
  split; [now rewrite Ht3, Ht2, Ht1 |].
  split; [| split; [| split]].
  - intros directory name Hin Hne Hslash Hage. apply Hold in Hage.
    assert (forall q, files w2 !! q = None -> files w3 !! q = None) as H23.
    { intros q Hq. destruct (Hmono3 q) as [H | H]; [exact H | now rewrite H]. }
    assert (forall q, files w1 !! q = None -> files w2 !! q = None) as H12.
    { intros q Hq. destruct (Hmono2 q) as [H | H]; [exact H | now rewrite H]. }
    apply elem_of_cons in Hin as [-> | Hin]; [now apply H23, H12, Hgone1 |].
    apply elem_of_cons in Hin as [-> | Hin]; [now apply H23, Hgone2 |].
    apply elem_of_cons in Hin as [-> | Hin]; [now apply Hgone3 | inversion Hin].
  - intros q Hq. apply Hnew in Hq.
    rewrite Hkept3, Hkept2, Hkept1 by now left. reflexivity.
  - intros q H1 H2 H3.
    rewrite Hkept3, Hkept2, Hkept1 by now right. reflexivity.
  - intros q. destruct (Hmono3 q) as [H | H]; [now left |]. rewrite H.
    destruct (Hmono2 q) as [H' | H']; [now left |]. rewrite H'.
    destruct (Hmono1 q) as [H'' | H'']; [now left | now right].
Qed.

(** After the split by size, a cleanup with the default lifetime of two
    hours removes the part that is three hours old and keeps the upload. *)
Example cleanup_removes_old_files_sample :
  is_Some (files afterSplitBySize
           !! path_join (processedDir sampleEnv) (partFileName firstId 0 1700000000001)) /\
  exists w',
    cleanupFiles sampleTimes 2 "/srv/app/uploads" "/srv/app/temp" afterSplitBySize
    = (w', Return tt) /\
    files w' !! path_join (processedDir sampleEnv) (partFileName firstId 0 1700000000001) = None /\
    files w' !! MulterFile.path (sampleUpload "ten")
    = files afterSplitBySize !! MulterFile.path (sampleUpload "ten").
Proof.
  split; [eexists; vm_compute; reflexivity |].
  destruct (cleanup_removes_old_files sampleTimes 2 "/srv/app/uploads" "/srv/app/temp"
              afterSplitBySize)
    as (w' & Hrun & _ & _ & Hgone & Hkept & _ & _).
  exists w'. split; [exact Hrun |]. split.
  - apply (Hgone (processedDir sampleEnv)).
    + right. left.
    + discriminate.
    + vm_compute. reflexivity.
    + vm_compute. reflexivity.
  - apply Hkept. vm_compute. discriminate.
Defined.
